(** * Sales coach: request lifecycle of the retrieval-augmented backend

    A shallow embedding of the Express handlers ([/ask], [/coaching],
    [/knowledge/add], [/knowledge/upload]), of [SalesCoachAgent] and of the
    browser-side [getCoachingSuggestions], together with the properties the
    specification states about them.

    - [getInstance], [initChain], [getRelevantDocuments], [ask], [ask_post],
      [coaching_post], [knowledge_add_post], [knowledge_upload_post]: the
      Pinecone-backed [index.ts];
    - [App]: the stand-alone router [app/src/ask.ts] with the agent of
      [sales_coach_agent.ts];
    - [Client]: [getCoachingSuggestions] of the frontend's [askApi.ts];
    - [Lifecycle]: the same requests interleaved at their [await]s.

    The handlers run in a state-and-exception monad over the process state;
    the providers (OpenAI, Pinecone, the clock, the engine) are the fields of
    the class [Platform], so that every statement holds for all of their
    behaviours.  Logging is left out.

    JavaScript strings are sequences of UTF-16 code units; they are kept as
    [list N] so that [trim], [split] and [includes] see exactly the units
    the engine sees (the Japanese literals of the source are spelled out
    unit by unit). *)

From Stdlib Require Import NArith ZArith List Bool Ascii String Lia Sorted Permutation.
From Stdlib Require Import DecimalString DecimalN DecimalPos DecimalFacts.
From stdpp Require Import base option list gmap.
Import ListNotations.

Local Open Scope N_scope.
Local Set Warnings "-register-all".

(* ===================================================================== *)
(** ** JavaScript strings *)
(* ===================================================================== *)

Abbreviation jsstring := (list N).

Module JS.

(** An ASCII literal of the source, unit by unit. *)
Definition lit (s : string) : jsstring :=
  List.map N_of_ascii (list_ascii_of_string s).

(** [WhiteSpace] and [LineTerminator] of ECMAScript: what [trim] strips and
    what [\s] matches. *)
Definition is_space (c : N) : bool :=
  (c =? 9) || (c =? 10) || (c =? 11) || (c =? 12) || (c =? 13) || (c =? 32)
  || (c =? 160) || (c =? 5760) || ((8192 <=? c) && (c <=? 8202))
  || (c =? 8232) || (c =? 8233) || (c =? 8239) || (c =? 8287)
  || (c =? 12288) || (c =? 65279).

(** [\d] without the unicode flag: the ten ASCII digits. *)
Definition is_digit (c : N) : bool := (48 <=? c) && (c <=? 57).

Fixpoint trimStart (s : jsstring) : jsstring :=
  match s with
  | c :: s' => if is_space c then trimStart s' else s
  | [] => []
  end.

Definition trimEnd (s : jsstring) : jsstring := rev (trimStart (rev s)).

(** [String.prototype.trim] *)
Definition trim (s : jsstring) : jsstring := trimEnd (trimStart s).

(** [!s.trim()]: the trimmed string is the empty string. *)
Definition blank (s : jsstring) : bool :=
  match trim s with [] => true | _ => false end.

(** The longest prefix whose units satisfy [p]. *)
Fixpoint span (p : N -> bool) (s : jsstring) : jsstring :=
  match s with
  | c :: s' => if p c then c :: span p s' else []
  | [] => []
  end.

Fixpoint starts_with (pre s : jsstring) : bool :=
  match pre, s with
  | [], _ => true
  | a :: pre', b :: s' => (a =? b) && starts_with pre' s'
  | _ :: _, [] => false
  end.

(** [String.prototype.includes] *)
Fixpoint includes (needle hay : jsstring) : bool :=
  starts_with needle hay ||
  match hay with
  | [] => false
  | _ :: hay' => includes needle hay'
  end.

(** A separator matcher tells, for the text that starts at the current
    position, how many units a separator occupies there, if one starts
    there. *)
Definition matcher := jsstring -> option nat.

(** A string separator, as in [text.split("\n\n")]. *)
Definition match_sep (sep : jsstring) : matcher :=
  fun s => if starts_with sep s then Some (length sep) else None.

(** The regular expression [/\d+\.\s+/] tried at the current position: the
    digits are taken greedily, then a dot, then the white space greedily.
    Giving back digits or spaces never turns a failure into a match, so the
    backtracking matcher of the engine finds exactly this. *)
Definition match_marker : matcher :=
  fun s =>
    let ds := span is_digit s in
    match ds, drop (length ds) s with
    | _ :: _, 46 :: r =>
        match span is_space r with
        | [] => None
        | ws => Some (length ds + 1 + length ws)%nat
        end
    | _, _ => None
    end.

(** [String.prototype.split] without a limit, for a separator that never
    matches the empty string: scan from the left, cut at the first position
    where a separator starts, resume behind it.  [skip] counts the units of
    the current separator that are still to be passed over.  The empty
    string splits into one empty segment. *)
Fixpoint split_go (m : matcher) (skip : nat) (s : jsstring) : list jsstring :=
  match s with
  | [] => [[]]
  | c :: s' =>
      match skip with
      | S k => split_go m k s'
      | O =>
          match m s with
          | Some (S k) => [] :: split_go m k s'
          | _ =>
              match split_go m 0 s' with
              | seg :: segs => (c :: seg) :: segs
              | [] => [[c]]
              end
          end
      end
  end.

Definition split (m : matcher) (s : jsstring) : list jsstring := split_go m 0 s.

(** [Array.prototype.join] on an array of strings. *)
Fixpoint join (sep : jsstring) (l : list jsstring) : jsstring :=
  match l with
  | [] => []
  | [x] => x
  | x :: l' => x ++ sep ++ join sep l'
  end.

(** [Array.prototype.slice(from, to)] for non-negative indices: both ends
    are clamped to the length, an empty range gives the empty array. *)
Definition slice {A} (from to : nat) (l : list A) : list A :=
  let from' := Nat.min from (length l) in
  let to' := Nat.min to (length l) in
  take (to' - from') (drop from' l).

(** [arr.slice(from)] *)
Definition slice_from {A} (from : nat) (l : list A) : list A :=
  slice from (length l) l.

(** [Number.prototype.toString] on a non-negative integer below 10^21 (array
    lengths, loop counters, millisecond time stamps): its decimal digits. *)
Definition decimal (n : N) : jsstring :=
  lit (NilZero.string_of_uint (N.to_uint n)).

Definition nl : N := 10.
Definition blank_line : jsstring := [nl; nl].

End JS.

(* ===================================================================== *)
(** ** JSON values, errors, responses *)
(* ===================================================================== *)

(** A JSON number is a double; the handlers observe a number in two ways
    only, by its truthiness and by [ToString], and it is kept as that pair
    of observations. *)
Record number := { is_zero : bool; digits : jsstring }.

(** What [JSON.parse] produces.  [undefined] (an absent property) is the
    [None] of [option json]. *)
Inductive json :=
| JNull
| JBool (b : bool)
| JNum (n : number)
| JStr (s : jsstring)
| JArr (items : list json)
| JObj (fields : list (jsstring * json)).

(** An [Error] object: the two fields the handlers read. *)
Record jserror := { message : jsstring; stack : jsstring }.

(** The faults the engine itself raises in this code. *)
Inductive fault :=
| NullProperty (name : jsstring)   (* reading a property of null *)
| NotPrimitive                     (* ToString on an object without a usable toString *)
| NotCallable (name : jsstring)    (* calling a property that is not a function *)
| NoSuchFile (path : jsstring)     (* fs call on a missing path *)
| Raised (msg : jsstring).         (* [throw new Error(msg)] in the code itself *)

Abbreviation result A := (sum jserror A).

Module Json.

(** [ToBoolean] *)
Definition truthy (v : option json) : bool :=
  match v with
  | None | Some JNull => false
  | Some (JBool b) => b
  | Some (JNum n) => negb (is_zero n)
  | Some (JStr s) => match s with [] => false | _ => true end
  | Some (JArr _) | Some (JObj _) => true
  end.

Definition key_eqb (a b : jsstring) : bool := bool_decide (a = b).

(** Own property of a parsed object: of duplicate keys the last one wins. *)
Fixpoint lookup_field (k : jsstring) (fields : list (jsstring * json)) : option json :=
  match fields with
  | [] => None
  | (k', v) :: rest =>
      match lookup_field k rest with
      | Some v' => Some v'
      | None => if key_eqb k k' then Some v else None
      end
  end.

(** [v.k] for a property name that no prototype defines ([question],
    [conversation], [text], [source], [speaker]); [v] is not null. *)
Definition prop (v : json) (k : jsstring) : option json :=
  match v with
  | JObj fields => lookup_field k fields
  | _ => None
  end.

Definition comma : jsstring := [44].

Section ToString.
Variable raise : fault -> jserror.

(** [ToString], as a template literal and [String(...)] apply it.  An array
    joins its elements with commas, null elements giving the empty string;
    a plain object gives ["[object Object]"] unless an own [toString]
    property (never callable in parsed JSON) hides the inherited one. *)
Fixpoint to_string (v : json) : result jsstring :=
  match v with
  | JNull => inr (JS.lit "null")
  | JBool true => inr (JS.lit "true")
  | JBool false => inr (JS.lit "false")
  | JNum n => inr (digits n)
  | JStr s => inr s
  | JArr items =>
      (fix go (l : list json) : result jsstring :=
         match l with
         | [] => inr []
         | x :: l' =>
             match (match x with JNull => inr [] | _ => to_string x end) with
             | inl e => inl e
             | inr sx =>
                 match l' with
                 | [] => inr sx
                 | _ => match go l' with
                        | inl e => inl e
                        | inr rest => inr (sx ++ comma ++ rest)
                        end
                 end
             end
         end) items
  | JObj fields =>
      match lookup_field (JS.lit "toString") fields with
      | Some _ => inl (raise NotPrimitive)
      | None => inr (JS.lit "[object Object]")
      end
  end.

(** [`${v}`] where [v] may be [undefined]. *)
Definition template (v : option json) : result jsstring :=
  match v with
  | None => inr (JS.lit "undefined")
  | Some v => to_string v
  end.
End ToString.

End Json.

(** An HTTP response: status code and JSON body ([res.status(c).json(b)];
    [res.json(b)] answers 200). *)
Record response := { status : nat; body : json }.

(* ===================================================================== *)
(** ** The world outside the process *)
(* ===================================================================== *)

(** A Pinecone record as the ingestion handlers build it:
    [{ id, values, metadata: { pageContent, source } }]. *)
Record record (V : Type) := {
  id : jsstring;
  values : V;
  pageContent : jsstring;
  source : json
}.
Arguments id {V}. Arguments values {V}.
Arguments pageContent {V}. Arguments source {V}.

(** One entry of [results.matches]; [metadata] may be absent. *)
Record pmatch := { metadata : option (list (jsstring * json)) }.

(** A langchain [Document]: [pageContent] and [metadata.source]. *)
Record Document := { doc_content : jsstring; doc_source : jsstring }.

(** The external collaborators: the engine, the environment variables, the
    clock, OpenAI (embeddings and generation) and the Pinecone index.  Every
    call may fail and may change the world it runs in, so that successive
    calls are free to answer differently. *)
Class Platform := {
  world : Type;
  vector : Type;
  raise : fault -> jserror;
  development : bool;                 (* NODE_ENV === 'development' *)
  open_api_key : bool;                (* OPEN_API_KEY is set and non-empty *)
  db_path : jsstring;                 (* path.join(__dirname, "data", "fake_db.txt") *)
  pinecone_handle : option jserror;   (* failure of getInstance().index(name), if any *)
  model_setup : option jserror;       (* failure of new OpenAI / fromLLM, if any *)
  date_now : world -> N * world;
  embedQuery : json -> world -> result vector * world;
  index_query : vector -> world -> result (list pmatch) * world;
  index_upsert : list (record vector) -> world -> result unit * world;
  (** the stuff-documents step of [RetrievalQAChain]: one generation call
      over the retrieved documents and the query, giving [response.text] *)
  generate : list Document -> json -> world -> result jsstring * world
}.

Section Server.
Context {P : Platform}.

(** Calls that leave the process, in the order they are issued. *)
Inductive event :=
| Construct                              (* new SalesCoachAgent() *)
| Clock (t : N)                          (* Date.now() and what it gave *)
| Embed (input : json)
| Query (v : vector)
| Upsert (batch : list (record vector))
| Generate (docs : list Document) (query : json)
| ReadFile (path : jsstring)
| Unlink (path : jsstring).

(** The settled [chainPromise] of an agent.  The Pinecone-backed chain has
    no data of its own; the in-memory chain of [sales_coach_agent.ts] holds
    the embedded seed document. *)
Inductive chain :=
| PineconeChain
| MemoryChain (seed : vector * Document).

Record agent := { chainPromise : result chain }.

(** The process: the outside world, the local disk, the calls issued so far
    and the static [SalesCoachAgent.instance]. *)
Record state := {
  ext : world;
  files : gmap jsstring jsstring;
  trace : list event;
  instance : option agent
}.

(** An [async] body run to completion: it may throw, and it changes the
    state. *)
Definition M (A : Type) : Type := state -> result A * state.

Definition ret {A} (a : A) : M A := fun s => (inr a, s).

Definition bind {A B} (m : M A) (k : A -> M B) : M B :=
  fun s => match m s with
           | (inl e, s') => (inl e, s')
           | (inr a, s') => k a s'
           end.

Definition throw {A} (e : jserror) : M A := fun s => (inl e, s).

Definition lift {A} (r : result A) : M A := fun s => (r, s).

Definition check (o : option jserror) : M unit :=
  match o with Some e => throw e | None => ret tt end.

(** [try { m } catch (e) { h e }] *)
Definition try_catch {A} (m : M A) (h : jserror -> M A) : M A :=
  fun s => match m s with
           | (inl e, s') => h e s'
           | (inr a, s') => (inr a, s')
           end.

Definition record_event (ev : event) (s : state) : state :=
  {| ext := ext s; files := files s; trace := trace s ++ [ev];
     instance := instance s |}.

(** A call to a provider: logged, answered by the world. *)
Definition call {A} (ev : event) (f : world -> result A * world) : M A :=
  fun s => let (r, w) := f (ext s) in
           (r, {| ext := w; files := files s; trace := trace s ++ [ev];
                  instance := instance s |}).

Definition now : M N :=
  fun s => let (t, w) := date_now (ext s) in
           (inr t, {| ext := w; files := files s; trace := trace s ++ [Clock t];
                      instance := instance s |}).

End Server.

Declare Scope js_scope.
Delimit Scope js_scope with js.
Notation "x <- y ;; z" := (bind y (fun x => z))
  (at level 20, y at level 99, z at level 200, only parsing) : js_scope.
Notation "y ;; z" := (bind y (fun _ => z))
  (at level 100, z at level 200, only parsing, right associativity) : js_scope.
Local Open Scope js_scope.

(* ===================================================================== *)
(** ** The literals of the source *)
(* ===================================================================== *)

Module Text.
Import JS.

(** ["有効な会話データが必要です"] *)
Definition invalid_conversation : jsstring :=
  [26377; 21177; 12394; 20250; 35441; 12487; 12540; 12479; 12364; 24517;
   35201; 12391; 12377].

(** ["テキストが必要です"] *)
Definition text_required : jsstring :=
  [12486; 12461; 12473; 12488; 12364; 24517; 35201; 12391; 12377].

(** ["ファイルが必要です"] *)
Definition file_required : jsstring :=
  [12501; 12449; 12452; 12523; 12364; 24517; 35201; 12391; 12377].

(** ["件のドキュメントが追加されました"] *)
Definition documents_added : jsstring :=
  [20214; 12398; 12489; 12461; 12517; 12513; 12531; 12488; 12364; 36861;
   21152; 12373; 12428; 12414; 12375; 12383].

(** ["デフォルトのコンテンツ"] *)
Definition default_content : jsstring :=
  [12487; 12501; 12457; 12523; 12488; 12398; 12467; 12531; 12486; 12531; 12484].

(** ["不明"] *)
Definition unknown_source : jsstring := [19981; 26126].

(** ["コーチング提案の取得中にエラーが発生しました。"] *)
Definition suggestions_failed : jsstring :=
  [12467; 12540; 12481; 12531; 12464; 25552; 26696; 12398; 21462; 24471;
   20013; 12395; 12456; 12521; 12540; 12364; 30330; 29983; 12375; 12414;
   12375; 12383; 12290].

(** The coaching prompt up to [${conversationText}] ... *)
Definition prompt_head : jsstring :=
  [10; 20197; 19979; 12399; 21830; 35527; 12398; 20250; 35441; 12391; 12377;
   12290; 12371; 12398; 20250; 35441; 12434; 20998; 26512; 12375; 12289;
   20197; 19979; 12398; 51; 12388; 12398; 12459; 12486; 12468; 12522; 12395;
   20998; 12369; 12390; 31777; 28500; 12394; 12450; 12489; 12496; 12452;
   12473; 12434; 25552; 20379; 12375; 12390; 12367; 12384; 12373; 12356; 58;
   10; 10; 49; 46; 32; 36074; 21839; 20363; 58; 27425; 12395; 23563; 12397;
   12427; 12409; 12365; 20855; 20307; 30340; 12394; 36074; 21839; 12434; 50;
   45; 51; 20491; 10; 50; 46; 32; 27425; 12398; 12473; 12486; 12483; 12503;
   58; 21830; 35527; 12434; 36914; 12417; 12427; 12383; 12417; 12398; 27425;
   12398; 12450; 12463; 12471; 12519; 12531; 12434; 49; 45; 50; 20491; 10;
   51; 46; 32; 12381; 12398; 20182; 25552; 26696; 58; 21830; 35527; 12434;
   25104; 21151; 12373; 12379; 12427; 12383; 12417; 12398; 12498; 12531;
   12488; 12434; 49; 45; 50; 20491; 10; 10; 22238; 31572; 12399; 21508;
   12459; 12486; 12468; 12522; 12372; 12392; 12395; 31623; 26465; 26360;
   12365; 12391; 12289; 35500; 26126; 12399; 24517; 35201; 12354; 12426;
   12414; 12379; 12435; 12290; 20855; 20307; 30340; 12394; 20869; 23481;
   12384; 12369; 12434; 26360; 12356; 12390; 12367; 12384; 12373; 12356;
   12290; 10; 10; 20250; 35441; 58; 10].

(** ... and from there to the closing backquote. *)
Definition prompt_tail : jsstring :=
  [10; 10; 22238; 31572; 24418; 24335; 65306; 10; 36074; 21839; 20363; 65306;
   10; 45; 32; 10; 45; 32; 10; 10; 27425; 12398; 12473; 12486; 12483; 12503;
   65306; 10; 45; 32; 10; 10; 12381; 12398; 20182; 25552; 26696; 65306; 10;
   45; 32; 10].

(** The keywords of the browser-side bucketing:
    ['質問'], ['聞く'], ['ヒアリング'], ['次'], ['ステップ'], ['進める']. *)
Definition kw_question : jsstring := [36074; 21839].
Definition kw_listen : jsstring := [32862; 12367].
Definition kw_hearing : jsstring := [12498; 12450; 12522; 12531; 12464].
Definition kw_next : jsstring := [27425].
Definition kw_step : jsstring := [12473; 12486; 12483; 12503].
Definition kw_advance : jsstring := [36914; 12417; 12427].

Definition missing_question : jsstring := lit "Missing 'question' in request body".
Definition internal_server_error : jsstring := lit "Internal Server Error".

End Text.

(* ===================================================================== *)
(** ** SalesCoachAgent (Pinecone-backed [index.ts]) *)
(* ===================================================================== *)

Section Agent.
Context {P : Platform}.

(** [initChain]: the index handle, the retriever object, the model, the
    chain.  Nothing is awaited, so the promise is settled as soon as the
    constructor returns; [catch (error) { throw error }] rethrows. *)
Definition initChain : result chain :=
  match pinecone_handle with
  | Some e => inl e
  | None => match model_setup with
            | Some e => inl e
            | None => inr PineconeChain
            end
  end.

(** [new SalesCoachAgent()]: starts [initChain] and caches its promise.  The
    constructor also starts [checkAndInitializeKnowledge()] without awaiting
    it; that task runs on its own and is not part of the request. *)
Definition new_SalesCoachAgent : M agent :=
  fun s => (inr {| chainPromise := initChain |}, record_event Construct s).

(** [SalesCoachAgent.getInstance()] *)
Definition getInstance : M agent :=
  fun s => match instance s with
           | Some a => (inr a, s)
           | None =>
               match new_SalesCoachAgent s with
               | (inr a, s') =>
                   (inr a, {| ext := ext s'; files := files s';
                              trace := trace s'; instance := Some a |})
               | (inl e, s') => (inl e, s')
               end
           end.

(** [match.metadata?.pageContent ? String(match.metadata.pageContent) : d] *)
Definition metadata_text (m : pmatch) (k d : jsstring) : result jsstring :=
  let v := match metadata m with
           | Some fields => Json.lookup_field k fields
           | None => None
           end in
  if Json.truthy v then Json.template raise v else inr d.

Definition document_of_match (m : pmatch) : result Document :=
  match metadata_text m (JS.lit "pageContent") Text.default_content with
  | inl e => inl e
  | inr c =>
      match metadata_text m (JS.lit "source") Text.unknown_source with
      | inl e => inl e
      | inr src => inr {| doc_content := c; doc_source := src |}
      end
  end.

(** [arr.map(f)] where [f] may throw: the first exception ends the map. *)
Fixpoint map_result {A B} (f : A -> result B) (l : list A) : result (list B) :=
  match l with
  | [] => inr []
  | x :: l' =>
      match f x with
      | inl e => inl e
      | inr y => match map_result f l' with
                 | inl e => inl e
                 | inr ys => inr (y :: ys)
                 end
      end
  end.

(** [retriever.getRelevantDocuments]: embed the query, ask the index for the
    five nearest records, turn the matches into documents; whatever is
    thrown on the way is caught and answered by the empty array. *)
Definition getRelevantDocuments (query : json) : M (list Document) :=
  try_catch
    (queryEmbedding <- call (Embed query) (embedQuery query) ;;
     results <- call (Query queryEmbedding) (index_query queryEmbedding) ;;
     lift (map_result document_of_match results))
    (fun _ => ret []).

(** [chain.call({ query })] of a [RetrievalQAChain]: fetch the documents
    from the chain's retriever, then one generation call over them.  The
    in-memory retriever embeds the query and ranks its store, which holds
    the one seed document; its errors are not caught. *)
Definition chain_call (c : chain) (query : json) : M jsstring :=
  match c with
  | PineconeChain =>
      docs <- getRelevantDocuments query ;;
      call (Generate docs query) (generate docs query)
  | MemoryChain seed =>
      _ <- call (Embed query) (embedQuery query) ;;
      let docs := [snd seed] in
      call (Generate docs query) (generate docs query)
  end.

(** [agent.ask(question)]: await the cached promise, call the chain, return
    [response.text]; the [catch] logs and rethrows. *)
Definition ask (a : agent) (question : json) : M jsstring :=
  chain <- lift (chainPromise a) ;;
  chain_call chain question.

(** A log line that renders the question in a template literal, as
    [logger.info(`Received question: ${question}`)] does: [ToString] of the
    question is taken, and it throws for a value that has no primitive.
    What is logged is no part of the state. *)
Definition log_question (question : option json) : M unit :=
  match Json.template raise question with
  | inl e => throw e
  | inr _ => ret tt
  end.

End Agent.

(* ===================================================================== *)
(** ** The Express handlers *)
(* ===================================================================== *)

Section Handlers.
Context {P : Platform}.

Definition json_error (st : nat) (msg : jsstring) : response :=
  {| status := st; body := JObj [(JS.lit "error", JStr msg)] |}.

(** [res.json(b)] *)
Definition ok (b : json) : response := {| status := 200; body := b |}.

(** The [catch] of the handlers of [index.ts]: 500 with the message of the
    error and, in development only, its stack ([JSON.stringify] drops the
    key whose value is [undefined]). *)
Definition internal_error (e : jserror) : response :=
  {| status := 500;
     body := JObj ([(JS.lit "error", JStr Text.internal_server_error);
                    (JS.lit "message", JStr (message e))]
                   ++ (if development then [(JS.lit "stack", JStr (stack e))]
                       else [])) |}.

(** [fs.readFileSync(path, "utf8")] *)
Definition readFileSync (path : jsstring) : M jsstring :=
  fun s => match files s !! path with
           | Some content => (inr content, record_event (ReadFile path) s)
           | None => (inl (raise (NoSuchFile path)), record_event (ReadFile path) s)
           end.

(** [fs.unlinkSync(path)] *)
Definition unlinkSync (path : jsstring) : M unit :=
  fun s => match files s !! path with
           | Some _ =>
               (inr tt, {| ext := ext s; files := delete path (files s);
                           trace := trace s ++ [Unlink path];
                           instance := instance s |})
           | None => (inl (raise (NoSuchFile path)), record_event (Unlink path) s)
           end.

(** *** POST /ask *)

(** [askRoute.post] of [index.ts].  The question is logged first, before
    the check and outside the [try]: when that throws, the handler throws
    and no response is sent.  Past the check [question] is a defined value,
    whatever its type. *)
Definition ask_post (req_body : json) : M response :=
  let question := Json.prop req_body (JS.lit "question") in
  log_question question ;;
  if negb (Json.truthy question) then
    ret (json_error 400 Text.missing_question)
  else
    try_catch
      (agent <- getInstance ;;
       answer <- ask agent (default JNull question) ;;
       ret (ok (JObj [(JS.lit "answer", JStr answer)])))
      (fun error => ret (internal_error error)).

(** *** POST /coaching *)

(** [!conversation || !Array.isArray(conversation) || conversation.length === 0] *)
Definition rejected_conversation (conversation : option json) : bool :=
  negb (Json.truthy conversation)
  || match conversation with
     | Some (JArr items) => Nat.eqb (length items) 0
     | _ => true
     end.

Definition array_items (v : option json) : list json :=
  match v with Some (JArr items) => items | _ => [] end.

(** [msg => `${msg.speaker}: ${msg.text}`] *)
Definition render_message (msg : json) : result jsstring :=
  match msg with
  | JNull => inl (raise (NullProperty (JS.lit "speaker")))
  | _ =>
      match Json.template raise (Json.prop msg (JS.lit "speaker")) with
      | inl e => inl e
      | inr speaker =>
          match Json.template raise (Json.prop msg (JS.lit "text")) with
          | inl e => inl e
          | inr text => inr (speaker ++ JS.lit ": " ++ text)
          end
      end
  end.

Definition coaching_prompt (conversationText : jsstring) : jsstring :=
  Text.prompt_head ++ conversationText ++ Text.prompt_tail.

(** [answer.split(/\d+\.\s+/).filter(item => item.trim().length > 0)
          .map(item => item.trim())] *)
Definition parse_suggestions (answer : jsstring) : list jsstring :=
  List.map JS.trim
    (List.filter (fun item => Nat.ltb 0 (length (JS.trim item)))
       (JS.split JS.match_marker answer)).

Definition suggestions_body (suggestions : list jsstring) : json :=
  JObj [(JS.lit "suggestions", JArr (List.map JStr suggestions))].

Definition coaching_post (req_body : json) : M response :=
  let conversation := Json.prop req_body (JS.lit "conversation") in
  if rejected_conversation conversation then
    ret (json_error 400 Text.invalid_conversation)
  else
    try_catch
      (lines <- lift (map_result render_message (array_items conversation)) ;;
       let conversationText := JS.join JS.blank_line lines in
       let prompt := coaching_prompt conversationText in
       agent <- getInstance ;;
       answer <- ask agent (JStr prompt) ;;
       let suggestions := parse_suggestions answer in
       ret (ok (suggestions_body suggestions)))
      (fun error => ret (internal_error error)).

(** *** POST /knowledge/add and POST /knowledge/upload *)

Definition BATCH_SIZE : nat := 100.

(** [`${prefix}-${Date.now()}-${i}`] with the clock already read. *)
Definition record_id (prefix : jsstring) (t : N) (i : nat) : jsstring :=
  prefix ++ JS.lit "-" ++ JS.decimal t ++ JS.lit "-" ++ JS.decimal (N.of_nat i).

(** The loop over the chunks, from index [i] on: a chunk that is blank after
    trimming is skipped; any other is embedded and becomes a record whose id
    comes from the clock and the index.  [label] is the caller's source
    label; when it is falsy the clock is read a second time for the default
    label.  Both ingestion handlers spell this loop out, with prefix
    ["manual"] and label [source], and with prefix ["file"] and label
    [req.file?.originalname]. *)
Fixpoint build_records (prefix : jsstring) (label : option json) (i : nat)
    (chunks : list jsstring) : M (list (record vector)) :=
  match chunks with
  | [] => ret []
  | chunk :: rest =>
      if JS.blank chunk then build_records prefix label (S i) rest
      else
        embedding <- call (Embed (JStr chunk)) (embedQuery (JStr chunk)) ;;
        t <- now ;;
        src <- (if Json.truthy label then ret (default JNull label)
                else t' <- now ;; ret (JStr (record_id prefix t' i))) ;;
        records <- build_records prefix label (S i) rest ;;
        ret ({| id := record_id prefix t i; values := embedding;
                pageContent := chunk; source := src |} :: records)
  end.

(** [for (let i = 0; i < records.length; i += BATCH_SIZE)
       { const batch = records.slice(i, i + BATCH_SIZE);
         await pineconeIndex.upsert(batch); }]
    from index [i] on.  [fuel] bounds the number of rounds; [length records]
    rounds always suffice (see [upsert_loop_fuel]). *)
Fixpoint upsert_loop (fuel i : nat) (records : list (record vector)) : M unit :=
  match fuel with
  | O => ret tt
  | S fuel' =>
      if Nat.ltb i (length records) then
        let batch := JS.slice i (i + BATCH_SIZE) records in
        call (Upsert batch) (index_upsert batch) ;;
        upsert_loop fuel' (i + BATCH_SIZE) records
      else ret tt
  end.

Definition upsert_batches (records : list (record vector)) : M unit :=
  upsert_loop (length records) 0 records.

Definition added_body (n : nat) : json :=
  JObj [(JS.lit "success", JBool true);
        (JS.lit "message", JStr (JS.decimal (N.of_nat n) ++ Text.documents_added))].

(** [text.split("\n\n")]: only a string has [split]. *)
Definition split_paragraphs_of (text : option json) : result (list jsstring) :=
  match text with
  | Some (JStr t) => inr (JS.split (JS.match_sep JS.blank_line) t)
  | _ => inl (raise (NotCallable (JS.lit "text.split")))
  end.

Definition knowledge_add_post (req_body : json) : M response :=
  let text := Json.prop req_body (JS.lit "text") in
  let source := Json.prop req_body (JS.lit "source") in
  if negb (Json.truthy text) then
    ret (json_error 400 Text.text_required)
  else
    try_catch
      (chunks <- lift (split_paragraphs_of text) ;;
       check pinecone_handle ;;
       records <- build_records (JS.lit "manual") source 0 chunks ;;
       upsert_batches records ;;
       ret (ok (added_body (length records))))
      (fun error => ret (internal_error error)).

(** [req.file] as multer leaves it: where the upload was stored and the
    name the client gave. *)
Record upload := { path : jsstring; originalname : jsstring }.

Definition knowledge_upload_post (file : option upload) : M response :=
  match file with
  | None => ret (json_error 400 Text.file_required)
  | Some f =>
      try_catch
        (text <- readFileSync (path f) ;;
         unlinkSync (path f) ;;
         let chunks := JS.split (JS.match_sep JS.blank_line) text in
         check pinecone_handle ;;
         records <- build_records (JS.lit "file") (Some (JStr (originalname f)))
                      0 chunks ;;
         upsert_batches records ;;
         ret (ok (added_body (length records))))
        (fun error => ret (internal_error error))
  end.

End Handlers.

(* ===================================================================== *)
(** ** The stand-alone router of [app/src] *)
(* ===================================================================== *)

Module App.
Section App.
Context {P : Platform}.

(** [initChain] of [sales_coach_agent.ts]: read the seed file, check the
    key, embed the one document into a memory store, build the chain. *)
Definition initChain : M chain :=
  content <- readFileSync db_path ;;
  if open_api_key then
    v <- call (Embed (JStr content)) (embedQuery (JStr content)) ;;
    check model_setup ;;
    ret (MemoryChain (v, {| doc_content := content; doc_source := [] |}))
  else
    throw (raise (Raised (JS.lit "OPEN_API_KEY is not set in environment variables."))).

(** [new SalesCoachAgent()]: the public constructor; a failed [initChain]
    rejects the promise and shows when [ask] awaits it. *)
Definition new_SalesCoachAgent : M agent :=
  fun s => let (r, s') := initChain (record_event Construct s) in
           (inr {| chainPromise := r |}, s').

(** [ask] of [sales_coach_agent.ts]: the question is logged in a template
    literal before the [try]; the rest is the [ask] above. *)
Definition ask (a : agent) (question : json) : M jsstring :=
  log_question (Some question) ;;
  ask a question.

(** [askRoute.post] of [ask.ts]. *)
Definition ask_post (req_body : json) : M response :=
  let question := Json.prop req_body (JS.lit "question") in
  if negb (Json.truthy question) then
    ret (json_error 400 Text.missing_question)
  else
    try_catch
      (agent <- new_SalesCoachAgent ;;
       answer <- ask agent (default JNull question) ;;
       ret (ok (JObj [(JS.lit "answer", JStr answer)])))
      (fun _ => ret (json_error 500 Text.internal_server_error)).

End App.
End App.

(* ===================================================================== *)
(** ** The browser side: [getCoachingSuggestions] *)
(* ===================================================================== *)

Module Client.

(** [{ questions, nextSteps, tips }] *)
Record suggestion_set := {
  questions : list json;
  nextSteps : list json;
  tips : list json
}.

Definition empty_set : suggestion_set :=
  {| questions := []; nextSteps := []; tips := [] |}.

(** [Math.ceil(n / 3)] *)
Definition ceil_third (n : nat) : nat :=
  (n / 3 + (if Nat.eqb (n mod 3) 0 then 0 else 1))%nat.

Section Client.
Context {P : Platform}.

(** [v === kw] for a string [kw]. *)
Definition is_string (kw : jsstring) (v : json) : bool :=
  match v with
  | JStr s => bool_decide (s = kw)
  | _ => false
  end.

(** [suggestion.includes(kw)]: a substring test on a string, a membership
    test on an array; nothing else has an [includes] to call. *)
Definition item_includes (kw : jsstring) (suggestion : json) : result bool :=
  match suggestion with
  | JStr s => inr (JS.includes kw s)
  | JArr items => inr (existsb (is_string kw) items)
  | JNull => inl (raise (NullProperty (JS.lit "includes")))
  | _ => inl (raise (NotCallable (JS.lit "suggestion.includes")))
  end.

(** [s.includes(k1) || s.includes(k2) || ...], left to right. *)
Fixpoint includes_any (kws : list jsstring) (suggestion : json) : result bool :=
  match kws with
  | [] => inr false
  | kw :: kws' =>
      match item_includes kw suggestion with
      | inl e => inl e
      | inr true => inr true
      | inr false => includes_any kws' suggestion
      end
  end.

(** The body of the [forEach]: push the suggestion onto one of the lists. *)
Definition push_suggestion (r : suggestion_set) (suggestion : json)
    : result suggestion_set :=
  match includes_any [Text.kw_question; Text.kw_listen; Text.kw_hearing] suggestion with
  | inl e => inl e
  | inr true =>
      inr {| questions := questions r ++ [suggestion];
             nextSteps := nextSteps r; tips := tips r |}
  | inr false =>
      match includes_any [Text.kw_next; Text.kw_step; Text.kw_advance] suggestion with
      | inl e => inl e
      | inr true =>
          inr {| questions := questions r;
                 nextSteps := nextSteps r ++ [suggestion]; tips := tips r |}
      | inr false =>
          inr {| questions := questions r; nextSteps := nextSteps r;
                 tips := tips r ++ [suggestion] |}
      end
  end.

Fixpoint for_each (suggestions : list json) (r : suggestion_set)
    : result suggestion_set :=
  match suggestions with
  | [] => inr r
  | x :: rest =>
      match push_suggestion r x with
      | inl e => inl e
      | inr r' => for_each rest r'
      end
  end.

(** The keyword pass, then the positional split when it left [questions]
    empty. *)
Definition categorize (suggestions : list json) : result suggestion_set :=
  match for_each suggestions empty_set with
  | inl e => inl e
  | inr r =>
      if Nat.eqb (length (questions r)) 0 then
        let third := ceil_third (length suggestions) in
        inr {| questions := JS.slice 0 third suggestions;
               nextSteps := JS.slice third (third * 2) suggestions;
               tips := JS.slice_from (third * 2) suggestions |}
      else inr r
  end.

Definition failed_set : suggestion_set :=
  {| questions := [JStr Text.suggestions_failed]; nextSteps := []; tips := [] |}.

(** [response.ok] *)
Definition response_ok (r : response) : bool :=
  Nat.leb 200 (status r) && Nat.leb (status r) 299.

(** What [getCoachingSuggestions] makes of the response to its POST. *)
Definition read_response (r : response) : suggestion_set :=
  if response_ok r then
    match Json.prop (body r) (JS.lit "suggestions") with
    | Some (JArr suggestions) =>
        match categorize suggestions with
        | inr set => set
        | inl _ => failed_set
        end
    | _ => empty_set
    end
  else failed_set.

(** [getCoachingSuggestions(conversation)]: POST [{ conversation }] to
    [/coaching] and read the answer.  The request is taken to reach the
    server. *)
Definition getCoachingSuggestions (conversation : list json) : M suggestion_set :=
  fun s =>
    match coaching_post (JObj [(JS.lit "conversation", JArr conversation)]) s with
    | (inr r, s') => (inr (read_response r), s')
    | (inl _, s') => (inr failed_set, s')
    end.

End Client.
End Client.

(* ===================================================================== *)
(** ** Requests interleaved at their [await]s *)
(* ===================================================================== *)

(** The event loop runs one piece of synchronous code at a time.  A request
    runs from its arrival to its first [await] in one piece: validation,
    getting hold of an agent, and [ask] up to [await this.chainPromise].
    The promise settles in a piece of its own, and each waiting request is
    resumed in yet another one.  Any interleaving of these pieces is a list
    of labels. *)
Module Lifecycle.

(** The Pinecone-backed [index.ts] takes its agent from
    [SalesCoachAgent.getInstance()]; [app/src/ask.ts] writes
    [new SalesCoachAgent()]. *)
Inductive router := Integrated | StandAlone.

Inductive route := Ask | Test | Coaching.

Inductive outcome := Fulfilled | Rejected.

(** An agent, by the handle of the promise its constructor cached. *)
Record agent := { chainPromise : nat }.

Record proc := {
  instance : option agent;               (* static SalesCoachAgent.instance *)
  promises : list (option outcome);      (* one per initChain() started; None: pending *)
  arrived : nat;                         (* requests so far; the next one's number *)
  awaiting : list (nat * nat);           (* request, promise it awaits in ask *)
  resumed : list (nat * nat * outcome);  (* request, promise, what its await gave *)
  turned_away : list nat                 (* requests that ended without awaiting a promise *)
}.

Definition boot : proc :=
  {| instance := None; promises := []; arrived := 0; awaiting := [];
     resumed := []; turned_away := [] |}.

Inductive label :=
| Post (r : route) (req_body : json)
| Settle (promise : nat) (o : outcome)
| Resume (request : nat).

(** The constructor: [this.chainPromise = this.initChain()]. *)
Definition construct (s : proc) : agent * proc :=
  ({| chainPromise := length (promises s) |},
   {| instance := instance s; promises := promises s ++ [None];
      arrived := arrived s; awaiting := awaiting s; resumed := resumed s;
      turned_away := turned_away s |}).

Definition getInstance (s : proc) : agent * proc :=
  match instance s with
  | Some a => (a, s)
  | None =>
      let (a, s') := construct s in
      (a, {| instance := Some a; promises := promises s';
             arrived := arrived s'; awaiting := awaiting s';
             resumed := resumed s'; turned_away := turned_away s' |})
  end.

Definition acquire (rt : router) : proc -> agent * proc :=
  match rt with
  | Integrated => getInstance
  | StandAlone => construct
  end.

Section Lifecycle.
Context {P : Platform}.

(** Does the template literal of a log line render the question? *)
Definition renders (question : option json) : bool :=
  match Json.template raise question with
  | inr _ => true
  | inl _ => false
  end.

(** Does the handler of the route get as far as asking for an agent?  The
    [/ask] handler of [index.ts] logs the question first, and throws there
    when the question does not render.  The stand-alone application mounts
    [/ask] only; its handler has no log line. *)
Definition reaches_agent (rt : router) (r : route) (req_body : json) : bool :=
  match r, rt with
  | Ask, Integrated =>
      renders (Json.prop req_body (JS.lit "question"))
      && Json.truthy (Json.prop req_body (JS.lit "question"))
  | Ask, StandAlone | Test, Integrated =>
      Json.truthy (Json.prop req_body (JS.lit "question"))
  | Coaching, Integrated =>
      let conversation := Json.prop req_body (JS.lit "conversation") in
      negb (rejected_conversation conversation)
      && match map_result render_message (array_items conversation) with
         | inr _ => true
         | inl _ => false
         end
  | _, StandAlone => false
  end.

(** With the agent in hand, does [ask] get as far as
    [await this.chainPromise]?  The [ask] of [sales_coach_agent.ts] logs
    the question first and throws there when it does not render; the [ask]
    of the Pinecone-backed agent awaits at once. *)
Definition awaits_chain (rt : router) (r : route) (req_body : json) : bool :=
  match r, rt with
  | Ask, StandAlone => renders (Json.prop req_body (JS.lit "question"))
  | _, _ => true
  end.

Definition lookup_request (request : nat) (l : list (nat * nat)) : option nat :=
  snd <$> List.find (fun p => Nat.eqb (fst p) request) l.

Definition step (rt : router) (s : proc) (l : label) : proc :=
  match l with
  | Post r req_body =>
      let request := arrived s in
      if reaches_agent rt r req_body then
        let (a, s') := acquire rt s in
        if awaits_chain rt r req_body then
          {| instance := instance s'; promises := promises s';
             arrived := S request;
             awaiting := awaiting s' ++ [(request, chainPromise a)];
             resumed := resumed s'; turned_away := turned_away s' |}
        else
          {| instance := instance s'; promises := promises s';
             arrived := S request; awaiting := awaiting s';
             resumed := resumed s'; turned_away := turned_away s' ++ [request] |}
      else
        {| instance := instance s; promises := promises s;
           arrived := S request; awaiting := awaiting s; resumed := resumed s;
           turned_away := turned_away s ++ [request] |}
  | Settle h o =>
      match promises s !! h with
      | Some None =>
          {| instance := instance s; promises := <[h := Some o]> (promises s);
             arrived := arrived s; awaiting := awaiting s; resumed := resumed s;
             turned_away := turned_away s |}
      | _ => s
      end
  | Resume request =>
      match lookup_request request (awaiting s) with
      | Some h =>
          match promises s !! h with
          | Some (Some o) =>
              {| instance := instance s; promises := promises s;
                 arrived := arrived s;
                 awaiting := List.filter (fun p => negb (Nat.eqb (fst p) request))
                               (awaiting s);
                 resumed := resumed s ++ [(request, h, o)];
                 turned_away := turned_away s |}
          | _ => s
          end
      | None => s
      end
  end.

Definition run (rt : router) (labels : list label) : proc :=
  fold_left (step rt) labels boot.

(** The number of pipeline constructions so far. *)
Definition constructions (s : proc) : nat := length (promises s).

End Lifecycle.
End Lifecycle.

(* ===================================================================== *)
(** ** Reading a run *)
(* ===================================================================== *)

Section Observations.
Context {P : Platform}.

(** The calls issued between two states of one run. *)
Definition new_events (s s' : state) : list event :=
  drop (length (trace s)) (trace s').

(** The batches handed to [pineconeIndex.upsert], in order. *)
Fixpoint upserts (evs : list event) : list (list (record vector)) :=
  match evs with
  | [] => []
  | Upsert batch :: evs' => batch :: upserts evs'
  | _ :: evs' => upserts evs'
  end.

(** The world the index is in after it was handed the batches, one upsert
    after the other, from the world [w] on. *)
Definition world_after (batches : list (list (record vector))) (w : world) : world :=
  fold_left (fun w' batch => snd (index_upsert batch w')) batches w.

(** The values [Date.now()] gave, in order. *)
Fixpoint clock_readings (evs : list event) : list N :=
  match evs with
  | [] => []
  | Clock t :: evs' => t :: clock_readings evs'
  | _ :: evs' => clock_readings evs'
  end.

(** Did the event reach OpenAI or Pinecone? *)
Definition is_provider_call (ev : event) : bool :=
  match ev with
  | Embed _ | Query _ | Upsert _ | Generate _ _ => true
  | _ => false
  end.

End Observations.

(* ===================================================================== *)
(** ** A concrete platform to run the handlers on *)
(* ===================================================================== *)

Module Mock.

Definition failure : jserror :=
  {| message := JS.lit "provider unavailable"; stack := JS.lit "at call" |}.

(** The world is a clock and the number of upserts served.  The clock
    advances by [tick] at each reading; embedding and querying succeed or
    fail as told; the index serves [budget] upserts and fails from then on
    ([None]: it never fails); generation answers [answer]. *)
Definition platform (embed_ok query_ok : bool) (budget : option nat) (tick : N)
    (answer : jsstring) : Platform :=
  {| world := N * nat;
     vector := jsstring;
     raise := fun _ => {| message := JS.lit "fault"; stack := [] |};
     development := false;
     open_api_key := true;
     db_path := JS.lit "data/fake_db.txt";
     pinecone_handle := None;
     model_setup := None;
     date_now := fun w => (fst w, (fst w + tick, snd w));
     embedQuery := fun q w =>
       (if embed_ok then inr (match q with JStr s => s | _ => [] end)
        else inl failure, w);
     index_query := fun _ w => (if query_ok then inr [] else inl failure, w);
     index_upsert := fun _ w =>
       (match budget with
        | Some b => if Nat.ltb (snd w) b then inr tt else inl failure
        | None => inr tt
        end, (fst w, S (snd w)));
     generate := fun _ _ w => (inr answer, w) |}.

(** The same providers with a model that answers with the query it is
    given, word for word. *)
Definition echo : Platform :=
  {| world := N * nat;
     vector := jsstring;
     raise := fun _ => {| message := JS.lit "fault"; stack := [] |};
     development := false;
     open_api_key := true;
     db_path := JS.lit "data/fake_db.txt";
     pinecone_handle := None;
     model_setup := None;
     date_now := fun w => (fst w, (fst w + 1, snd w));
     embedQuery := fun q w => (inr (match q with JStr s => s | _ => [] end), w);
     index_query := fun _ w => (inr [], w);
     index_upsert := fun _ w => (inr tt, (fst w, S (snd w)));
     generate := fun _ q w => (inr (match q with JStr s => s | _ => [] end), w) |}.

Definition start (P : Platform) (w : @world P) (disk : gmap jsstring jsstring)
    : @state P :=
  {| ext := w; files := disk; trace := []; instance := None |}.

(** [{ "text": t, "source": src }] *)
Definition add_body (t src : jsstring) : json :=
  JObj [(JS.lit "text", JStr t); (JS.lit "source", JStr src)].

(** [n] paragraphs ["A"], each followed by a blank line. *)
Definition paragraphs_text (n : nat) : jsstring :=
  concat (repeat (JS.lit "A" ++ JS.blank_line) n).

(** ["A\n\nB\n\n"] *)
Definition scenario_text : jsstring :=
  JS.lit "A" ++ JS.blank_line ++ JS.lit "B" ++ JS.blank_line.

(** ["\n\nA\n\nB"]: the first chunk is the empty string. *)
Definition indented_text : jsstring :=
  JS.blank_line ++ JS.lit "A" ++ JS.blank_line ++ JS.lit "B".

(** The value of a computation that did not throw. *)
Definition value {A} (d : A) (r : result A) : A :=
  match r with inr a => a | inl _ => d end.

(** [{ "speaker": sp, "text": tx }] *)
Definition message_object (sp tx : jsstring) : json :=
  JObj [(JS.lit "speaker", JStr sp); (JS.lit "text", JStr tx)].

End Mock.

(* ===================================================================== *)
(** ** The specification's reading of the coaching formatter *)
(* ===================================================================== *)

(** These definitions follow the words of the specification (4.4), not the
    code; the theorems below compare them with the handler. *)
Module Spec.

(** A [ConversationMessage], as far as the backend reads it. *)
Record message := { speaker : jsstring; text : jsstring }.

Definition to_json (m : message) : json :=
  JObj [(JS.lit "speaker", JStr (speaker m)); (JS.lit "text", JStr (text m))].

(** ["{speaker}: {text}"] *)
Definition line (m : message) : jsstring := speaker m ++ JS.lit ": " ++ text m.

(** The lines, joined by blank lines. *)
Definition transcript (conversation : list message) : jsstring :=
  JS.join JS.blank_line (List.map line conversation).

(** What a field of an element of the array reads as within a line: a
    string as it is; any other value, and a missing field, as JavaScript
    prints it. *)
Definition field_text {P : Platform} (v : option json) (t : jsstring) : Prop :=
  match v with
  | Some (JStr s) => t = s
  | _ => Json.template raise v = inr t
  end.

(** ["{speaker}: {text}"] for one element of the array, whatever other
    fields it has.  [null] has no fields to read. *)
Definition line_of {P : Platform} (msg : json) (l : jsstring) : Prop :=
  msg <> JNull
  /\ exists sp tx,
       field_text (Json.prop msg (JS.lit "speaker")) sp
       /\ field_text (Json.prop msg (JS.lit "text")) tx
       /\ l = sp ++ JS.lit ": " ++ tx.

(** [t] is the lines one after the other with [sep] between each two of
    them, and nowhere else. *)
Inductive joined (sep : jsstring) : list jsstring -> jsstring -> Prop :=
| joined_none : joined sep [] []
| joined_last l : joined sep [l] l
| joined_next l l' ls t :
    joined sep (l' :: ls) t -> joined sep (l :: l' :: ls) (l ++ sep ++ t).

Definition all_digits (s : jsstring) : Prop := Forall (fun c => JS.is_digit c = true) s.
Definition all_space (s : jsstring) : Prop := Forall (fun c => JS.is_space c = true) s.

(** A numeric list marker: digits, a dot, white space. *)
Definition is_marker (m : jsstring) : Prop :=
  exists ds ws, m = ds ++ [46] ++ ws /\ ds <> [] /\ all_digits ds
                /\ ws <> [] /\ all_space ws.

(** A marker starts at the head of [s]. *)
Definition marker_starts (s : jsstring) : Prop :=
  exists m rest, is_marker m /\ s = m ++ rest.

Definition no_leading_space (s : jsstring) : Prop :=
  match s with
  | c :: _ => JS.is_space c = false
  | [] => True
  end.

(** [segs] are the pieces of [s] between its markers, from the left: a piece
    runs up to the first position where a marker starts, the marker takes
    all the white space that follows it, and the rest is cut in the same
    way.  A text without a marker is one piece. *)
Inductive segments : jsstring -> list jsstring -> Prop :=
| segments_last s :
    (forall pre suf, s = pre ++ suf -> ~ marker_starts suf) ->
    segments s [s]
| segments_cut seg m rest segs :
    is_marker m ->
    no_leading_space rest ->
    (forall pre suf, seg = pre ++ suf -> suf <> [] ->
                     ~ marker_starts (suf ++ m ++ rest)) ->
    segments rest segs ->
    segments (seg ++ m ++ rest) (seg :: segs).

(** [t] is [s] without its leading and trailing white space. *)
Definition trimmed (s t : jsstring) : Prop :=
  exists l r, s = l ++ t ++ r /\ all_space l /\ all_space r
              /\ no_leading_space t /\ no_leading_space (rev t).

(** Discard the pieces that are empty after trimming, trim the others, keep
    the order. *)
Inductive kept : list jsstring -> list jsstring -> Prop :=
| kept_nil : kept [] []
| kept_drop seg segs out :
    all_space seg -> kept segs out -> kept (seg :: segs) out
| kept_keep seg t segs out :
    ~ all_space seg -> trimmed seg t -> kept segs out ->
    kept (seg :: segs) (t :: out).

(** The raw suggestions the specification derives from the model's text. *)
Definition suggestions_of (answer : jsstring) (suggestions : list jsstring) : Prop :=
  exists segs, segments answer segs /\ kept segs suggestions.

(** The non-blank paragraphs of a text (4.1): its pieces between blank
    lines that are not empty after trimming. *)
Definition paragraphs (text : jsstring) : list jsstring :=
  List.filter (fun c => negb (JS.blank c)) (JS.split (JS.match_sep JS.blank_line) text).

(** The positions, counted from 0 over all the chunks of a text, of the
    chunks that are kept: those that are not blank. *)
Definition kept_positions (chunks : list jsstring) : list nat :=
  List.filter
    (fun i => match chunks !! i with
              | Some c => negb (JS.blank c)
              | None => false
              end)
    (seq 0 (length chunks)).

End Spec.

(** The values [!question] turns away: an absent key, [null], [false],
    zero, the empty string. *)
Inductive falsy : option json -> Prop :=
| falsy_absent : falsy None
| falsy_null : falsy (Some JNull)
| falsy_false : falsy (Some (JBool false))
| falsy_zero n : is_zero n = true -> falsy (Some (JNum n))
| falsy_empty_string : falsy (Some (JStr [])).

Section Degradation.
Context {P : Platform}.

(** Retrieval for [query], started in the world [w0], ends in [wf] without
    a document: the embedding call failed, or the nearest-neighbour query
    failed, or the index returned no match. *)
Inductive no_grounding (query : json) (w0 wf : world) : Prop :=
| embedding_failed e :
    embedQuery query w0 = (inl e, wf) -> no_grounding query w0 wf
| query_failed v w e :
    embedQuery query w0 = (inr v, w) -> index_query v w = (inl e, wf) ->
    no_grounding query w0 wf
| store_empty v w :
    embedQuery query w0 = (inr v, w) -> index_query v w = (inr [], wf) ->
    no_grounding query w0 wf.

(** The agent the next request will get has a working chain. *)
Definition agent_ready (s : state) : Prop :=
  match instance s with
  | Some a => chainPromise a = inr PineconeChain
  | None => initChain = inr PineconeChain
  end.

End Degradation.

Section Counting.
Context {P : Platform}.

(** The requests of an interleaving whose handler asks for an agent. *)
Fixpoint accepted_posts (rt : Lifecycle.router) (labels : list Lifecycle.label) : nat :=
  match labels with
  | [] => 0
  | Lifecycle.Post r req_body :: rest =>
      ((if Lifecycle.reaches_agent rt r req_body then 1 else 0)
       + accepted_posts rt rest)%nat
  | _ :: rest => accepted_posts rt rest
  end.

(** How often [new SalesCoachAgent()] ran. *)
Fixpoint constructed (evs : list event) : nat :=
  match evs with
  | [] => 0
  | Construct :: evs' => S (constructed evs')
  | _ :: evs' => constructed evs'
  end.

End Counting.

(** [{ "question": q }] *)
Definition question_body (q : jsstring) : json := JObj [(JS.lit "question", JStr q)].

Section Frames.
Context {P : Platform}.

(** [s'] is [s] after the calls [evs]. *)
Definition advance (s s' : state) (evs : list event) : Prop :=
  trace s' = trace s ++ evs.

(** [m] only appends to the trace, and keeps its hands off the disk. *)
Definition tame {A} (m : M A) : Prop :=
  forall s, files (snd (m s)) = files s
            /\ exists evs, advance s (snd (m s)) evs.

(** The state [POST /knowledge/upload] is in once it has read and unlinked
    the file. *)
Definition after_unlink (f : upload) (s : state) : state :=
  {| ext := ext s; files := delete (path f) (files s);
     trace := (trace s ++ [ReadFile (path f)]) ++ [Unlink (path f)];
     instance := instance s |}.

(** [Date.now()] and the position a record id was made of. *)
Definition stamped (prefix : jsstring) (st : N * nat) : jsstring :=
  record_id prefix (fst st) (snd st).

End Frames.

(** What holds of the integrated server at every moment: either nothing has
    been built and nobody waits, or there is the one agent with the one
    promise, every request that called [ask] awaits or has awaited that
    promise, and those that were resumed saw its one outcome. *)
Definition single_pipeline (s : Lifecycle.proc) : Prop :=
  (Lifecycle.instance s = None /\ Lifecycle.promises s = []
   /\ Lifecycle.awaiting s = [] /\ Lifecycle.resumed s = [])
  \/ (Lifecycle.instance s = Some {| Lifecycle.chainPromise := 0 |}
      /\ exists p, Lifecycle.promises s = [p]
         /\ (forall req h, In (req, h) (Lifecycle.awaiting s) -> h = 0%nat)
         /\ (forall req h o, In (req, h, o) (Lifecycle.resumed s) ->
               h = 0%nat /\ p = Some o)).

(* ===================================================================== *)
(** ** Seeding the index: the knowledge check of the constructor *)
(* ===================================================================== *)

Module Knowledge.

(** ["セールスコーチング"], the query [retrieveKnowledge] probes the index with. *)
Definition probe : jsstring :=
  [12475; 12540; 12523; 12473; 12467; 12540; 12481; 12531; 12464].

(** [initialKnowledge], the five seed texts. *)
Definition initialKnowledge : list jsstring :=
  [ [12475; 12540; 12523; 12473; 12467; 12540; 12481; 12531; 12464; 12392;
     12399; 12289; 21942; 26989; 25285; 24403; 32773; 12398; 12473; 12461;
     12523; 12392; 25104; 26524; 12434; 21521; 19978; 12373; 12379; 12427;
     12383; 12417; 12398; 25351; 23566; 12503; 12525; 12475; 12473; 12391;
     12377; 12290];
    [21177; 26524; 30340; 12394; 36074; 21839; 25216; 27861; 12395; 12399;
     12289; 12458; 12540; 12503; 12531; 12463; 12456; 12473; 12481; 12519;
     12531; 12392; 12463; 12525; 12540; 12474; 12489; 12463; 12456; 12473;
     12481; 12519; 12531; 12364; 12354; 12426; 12414; 12377; 12290];
    [39015; 23458; 12398; 12491; 12540; 12474; 12434; 29702; 35299; 12377;
     12427; 12371; 12392; 12399; 12289; 25104; 21151; 12377; 12427; 21942;
     26989; 12398; 22522; 26412; 12391; 12377; 12290];
    [21830; 35527; 12391; 12399; 12289; 39015; 23458; 12398; 35506; 38988;
     12434; 26126; 30906; 12395; 12375; 12289; 12381; 12398; 35299; 27770;
     31574; 12434; 25552; 26696; 12377; 12427; 12371; 12392; 12364; 37325;
     35201; 12391; 12377; 12290];
    [21942; 26989; 12503; 12525; 12475; 12473; 12399; 36890; 24120; 12289;
     35211; 36796; 12415; 23458; 12398; 30330; 25496; 12289; 12450; 12503;
     12525; 12540; 12481; 12289; 12491; 12540; 12474; 20998; 26512; 12289;
     25552; 26696; 12289; 12463; 12525; 12540; 12472; 12531; 12464; 12289;
     12501; 12457; 12525; 12540; 12450; 12483; 12503; 12398; 27573; 38542;
     12391; 27083; 25104; 12373; 12428; 12414; 12377; 12290] ].

(** [`default-knowledge-${i}`] *)
Definition default_id (i : nat) : jsstring :=
  JS.lit "default-knowledge-" ++ JS.decimal (N.of_nat i).

Section Knowledge.
Context {P : Platform}.

(** [retrieveKnowledge()]: the handle of the index, the embedding of the
    probe, the five nearest records as documents.  Its [catch] logs and
    rethrows. *)
Definition retrieveKnowledge : M (list Document) :=
  check pinecone_handle ;;
  queryEmbedding <- call (Embed (JStr probe)) (embedQuery (JStr probe)) ;;
  queryResponse <- call (Query queryEmbedding) (index_query queryEmbedding) ;;
  lift (map_result document_of_match queryResponse).

(** The loop of [initializeWithDefaultKnowledge] from index [i] on: embed
    the text, push the record; id and source are both
    [`default-knowledge-${i}`]. *)
Fixpoint default_records (i : nat) (texts : list jsstring)
    : M (list (record vector)) :=
  match texts with
  | [] => ret []
  | text :: rest =>
      embedding <- call (Embed (JStr text)) (embedQuery (JStr text)) ;;
      records <- default_records (S i) rest ;;
      ret ({| id := default_id i; values := embedding; pageContent := text;
              source := JStr (default_id i) |} :: records)
  end.

(** [initializeWithDefaultKnowledge()]: build the records, upsert them in
    batches; the [catch] logs and goes on. *)
Definition initializeWithDefaultKnowledge : M unit :=
  try_catch
    (check pinecone_handle ;;
     records <- default_records 0 initialKnowledge ;;
     upsert_batches records)
    (fun _ => ret tt).

(** [checkAndInitializeKnowledge()]: seed when the index shows no document,
    and also when looking failed. *)
Definition checkAndInitializeKnowledge : M unit :=
  try_catch
    (docs <- retrieveKnowledge ;;
     if Nat.eqb (length docs) 0 then initializeWithDefaultKnowledge
     else ret tt)
    (fun _ => initializeWithDefaultKnowledge).

End Knowledge.
End Knowledge.

(* ===================================================================== *)
(** ** The in-memory [index.ts] *)
(* ===================================================================== *)

(** The earlier [index.ts]: the same singleton and the same routes, over a
    [MemoryVectorStore] built from one seed file. *)
Module Memory.
Section Memory.
Context {P : Platform}.
Variable dbPath : jsstring.   (* path.join(__dirname, "data", "test_knowledge.txt") *)

Definition key_missing : jsstring :=
  JS.lit "OPEN_API_KEY is not set in environment variables.".

(** [`File not found: ${dbPath}`] *)
Definition file_not_found : jsstring := JS.lit "File not found: " ++ dbPath.

(** [initChain]: the key first, then the seed file, then the store (which
    embeds the document), the model and the chain. *)
Definition initChain : M chain :=
  if open_api_key then
    fun s =>
      match files s !! dbPath with
      | None => (inl (raise (Raised file_not_found)), s)
      | Some _ =>
          (content <- readFileSync dbPath ;;
           v <- call (Embed (JStr content)) (embedQuery (JStr content)) ;;
           check model_setup ;;
           ret (MemoryChain (v, {| doc_content := content; doc_source := [] |}))) s
      end
  else throw (raise (Raised key_missing)).

(** [new SalesCoachAgent()] *)
Definition new_SalesCoachAgent : M agent :=
  fun s => let (r, s') := initChain (record_event Construct s) in
           (inr {| chainPromise := r |}, s').

(** [SalesCoachAgent.getInstance()] *)
Definition getInstance : M agent :=
  fun s => match instance s with
           | Some a => (inr a, s)
           | None =>
               match new_SalesCoachAgent s with
               | (inr a, s') =>
                   (inr a, {| ext := ext s'; files := files s';
                              trace := trace s'; instance := Some a |})
               | (inl e, s') => (inl e, s')
               end
           end.

(** [ask] of this agent: the question is logged in a template literal
    before the [try] and before the promise is awaited; the rest is the
    [ask] of the Pinecone-backed agent. *)
Definition ask (a : agent) (question : json) : M jsstring :=
  log_question (Some question) ;;
  ask a question.

(** [askRoute.post]: this handler has no log line of its own. *)
Definition ask_post (req_body : json) : M response :=
  let question := Json.prop req_body (JS.lit "question") in
  if negb (Json.truthy question) then
    ret (json_error 400 Text.missing_question)
  else
    try_catch
      (agent <- getInstance ;;
       answer <- ask agent (default JNull question) ;;
       ret (ok (JObj [(JS.lit "answer", JStr answer)])))
      (fun error => ret (internal_error error)).

End Memory.
End Memory.

(* ===================================================================== *)
(** ** The browser side: [askApi], the summary, the knowledge form *)
(* ===================================================================== *)

Module UI.

(** ["APIリクエストに失敗しました: "] *)
Definition api_failed : jsstring :=
  [65; 80; 73; 12522; 12463; 12456; 12473; 12488; 12395; 22833; 25943; 12375;
   12414; 12375; 12383; 58; 32].

(** ["要約するメッセージがありません。"] *)
Definition nothing_to_summarize : jsstring :=
  [35201; 32004; 12377; 12427; 12513; 12483; 12475; 12540; 12472; 12364;
   12354; 12426; 12414; 12379; 12435; 12290].

(** ["要約の生成中にエラーが発生しました。"] *)
Definition summary_failed : jsstring :=
  [35201; 32004; 12398; 29983; 25104; 20013; 12395; 12456; 12521; 12540;
   12364; 30330; 29983; 12375; 12414; 12375; 12383; 12290].

(** ["以下の会話を簡潔に要約してください:"] *)
Definition summarize_head : jsstring :=
  [20197; 19979; 12398; 20250; 35441; 12434; 31777; 28500; 12395; 35201;
   32004; 12375; 12390; 12367; 12384; 12373; 12356; 58].

(** ["以下の要約をまとめて、全体の議事録を作成してください:"] *)
Definition combine_head : jsstring :=
  [20197; 19979; 12398; 35201; 32004; 12434; 12414; 12392; 12417; 12390;
   12289; 20840; 20307; 12398; 35696; 20107; 37682; 12434; 20316; 25104;
   12375; 12390; 12367; 12384; 12373; 12356; 58].

(** ["テキストを入力してください"] *)
Definition enter_text : jsstring :=
  [12486; 12461; 12473; 12488; 12434; 20837; 21147; 12375; 12390; 12367;
   12384; 12373; 12356].

(** ["エラーが発生しました"] *)
Definition error_occurred : jsstring :=
  [12456; 12521; 12540; 12364; 30330; 29983; 12375; 12414; 12375; 12383].

(** ["サーバーとの通信に失敗しました"] *)
Definition communication_failed : jsstring :=
  [12469; 12540; 12496; 12540; 12392; 12398; 36890; 20449; 12395; 22833;
   25943; 12375; 12414; 12375; 12383].

(** The [Message] of the chat: who spoke and what.  (Its time stamp is read
    by the rendering only.) *)
Record Message := { speaker : jsstring; text : jsstring }.

(** What [setResult] was called with, if it was called. *)
Inductive update :=
| Unchanged
| Shown (v : option json).

(** The form of the knowledge manager: the two inputs and the two banners. *)
Record form := {
  f_text : jsstring;
  f_source : jsstring;
  f_message : option json;
  f_error : option json
}.

Section UI.
Context {P : Platform}.

(** [`API request failed with status ${response.status}: ${errorData.message || ''}`],
    the message of the error [askApi] throws at itself; rendering a message
    that is an object may throw instead. *)
Definition request_failed (r : response) : result jsstring :=
  let m := Json.prop (body r) (JS.lit "message") in
  match (if Json.truthy m then Json.template raise m else inr []) with
  | inl e => inl e
  | inr shown =>
      inr (JS.lit "API request failed with status "
           ++ JS.decimal (N.of_nat (status r)) ++ JS.lit ": " ++ shown)
  end.

(** [{ answer: "", error: `APIリクエストに失敗しました: ${error.message}` }] *)
Definition failure_object (msg : jsstring) : json :=
  JObj [(JS.lit "answer", JStr []); (JS.lit "error", JStr (api_failed ++ msg))].

(** What [askApi] returns for the response it got: the parsed body of a
    2xx, the failure object otherwise. *)
Definition read_answer (r : response) : json :=
  if Client.response_ok r then body r
  else match request_failed r with
       | inr msg => failure_object msg
       | inl e => failure_object (message e)
       end.

(** [askApi(question)]: POST [{ question }] to [/ask]; whatever goes wrong
    is caught and returned as the failure object.  The request is taken to
    reach the server. *)
Definition askApi (question : jsstring) : M json :=
  fun s =>
    match ask_post (JObj [(JS.lit "question", JStr question)]) s with
    | (inr r, s') => (inr (read_answer r), s')
    | (inl e, s') => (inr (failure_object (message e)), s')
    end.

(** [for (let i = 0; i < userMessages.length; i += chunkSize)
       messageChunks.push(userMessages.slice(i, i + chunkSize))]
    from index [i] on, with [chunkSize] 5; [fuel] bounds the rounds. *)
Fixpoint chunk_loop (fuel i : nat) (userMessages : list jsstring)
    : list (list jsstring) :=
  match fuel with
  | O => []
  | S fuel' =>
      if Nat.ltb i (length userMessages) then
        JS.slice i (i + 5) userMessages :: chunk_loop fuel' (i + 5) userMessages
      else []
  end.

Definition messageChunks (userMessages : list jsstring) : list (list jsstring) :=
  chunk_loop (length userMessages) 0 userMessages.

(** [arr.join(sep)] on values: [undefined] and [null] give the empty
    string, anything else its [ToString]. *)
Fixpoint join_values (sep : jsstring) (l : list (option json)) : result jsstring :=
  let shown (v : option json) : result jsstring :=
    match v with
    | None | Some JNull => inr []
    | Some x => Json.to_string raise x
    end in
  match l with
  | [] => inr []
  | [v] => shown v
  | v :: l' =>
      match shown v with
      | inl e => inl e
      | inr a => match join_values sep l' with
                 | inl e => inl e
                 | inr b => inr (a ++ sep ++ b)
                 end
      end
  end.

(** The loop over the chunks: one [askApi] each; the answer of a call that
    reported no error is pushed onto [summaries]. *)
Fixpoint summarize (chunks : list (list jsstring)) : M (list (option json)) :=
  match chunks with
  | [] => ret []
  | chunk :: rest =>
      response <- askApi (summarize_head ++ JS.blank_line ++ JS.join [JS.nl] chunk) ;;
      summaries <- summarize rest ;;
      ret (if Json.truthy (Json.prop response (JS.lit "error")) then summaries
           else Json.prop response (JS.lit "answer") :: summaries)
  end.

(** [generateSummary()]: the texts of the user's messages, five to a
    request; with several summaries one more request combines them. *)
Definition generateSummary (messages : list Message) : M update :=
  let userMessages :=
    List.map text
      (List.filter (fun msg => bool_decide (speaker msg = JS.lit "user")) messages) in
  if Nat.eqb (length userMessages) 0 then ret (Shown (Some (JStr nothing_to_summarize)))
  else
    try_catch
      (summaries <- summarize (messageChunks userMessages) ;;
       if Nat.ltb 1 (length summaries) then
         joined <- lift (join_values JS.blank_line summaries) ;;
         finalResponse <- askApi (combine_head ++ JS.blank_line ++ joined) ;;
         ret (if Json.truthy (Json.prop finalResponse (JS.lit "error")) then Unchanged
              else Shown (Json.prop finalResponse (JS.lit "answer")))
       else
         match summaries with
         | [only] => ret (Shown only)
         | _ => ret Unchanged
         end)
      (fun _ => ret (Shown (Some (JStr summary_failed)))).

(** [handleTextSubmit]: a text that is blank after trimming is refused in
    the browser; otherwise POST [{ text, source }] to [/knowledge/add] and
    show the message of a 2xx (clearing the inputs) or the error of the
    rest. *)
Definition handleTextSubmit (f : form) : M form :=
  if JS.blank (f_text f) then
    ret {| f_text := f_text f; f_source := f_source f;
           f_message := f_message f; f_error := Some (JStr enter_text) |}
  else
    fun s =>
      match knowledge_add_post
              (JObj [(JS.lit "text", JStr (f_text f));
                     (JS.lit "source", JStr (f_source f))]) s with
      | (inr r, s') =>
          (inr (if Client.response_ok r then
                  {| f_text := []; f_source := [];
                     f_message := Json.prop (body r) (JS.lit "message");
                     f_error := Some (JStr []) |}
                else
                  let e := Json.prop (body r) (JS.lit "error") in
                  {| f_text := f_text f; f_source := f_source f;
                     f_message := Some (JStr []);
                     f_error := if Json.truthy e then e
                                else Some (JStr error_occurred) |}), s')
      | (inl _, s') =>
          (inr {| f_text := f_text f; f_source := f_source f;
                  f_message := Some (JStr []);
                  f_error := Some (JStr communication_failed) |}, s')
      end.

End UI.
End UI.

(* ===================================================================== *)
(** ** The minutes form: rows added and removed in place *)
(* ===================================================================== *)

(** [MinutesData] holds seven arrays.  The state updaters of
    [MinutesCreator] copy the state object only ([{ ...prev }]), so the copy
    and the previous state refer to the same arrays; the arrays therefore
    live in a heap and a state object holds their references. *)
Module Minutes.

Record Participant := { name : jsstring; position : jsstring; company : jsstring }.
Record ActionItem := { task : jsstring; responsible : jsstring; deadline : jsstring }.

(** What a row of one of the arrays is. *)
Inductive row :=
| Person (p : Participant)
| Action (a : ActionItem)
| Line (s : jsstring).

Record NextMeeting := {
  nm_date : jsstring; nm_time : jsstring; nm_location : jsstring; nm_agenda : jsstring
}.

Record MinutesData := {
  date : jsstring;
  startTime : jsstring;
  endTime : jsstring;
  location : jsstring;
  participants : nat;      (* references into the heap *)
  absentees : nat;
  agendaItems : nat;
  agreements : nat;
  concerns : nat;
  actionItems : nat;
  nextSteps : nat;
  otherMatters : jsstring;
  nextMeeting : NextMeeting;
  creator : jsstring;
  creationDate : jsstring
}.

Abbreviation heap := (gmap nat (list row)).

Definition is_section (section : jsstring) (name : string) : bool :=
  bool_decide (section = JS.lit name).

(** The array the [if]/[else if] chain of [addItem] and [removeItem] picks
    for [section], with the empty row [addItem] pushes onto it. *)
Definition section_array (section : jsstring) (d : MinutesData) : option (nat * row) :=
  if is_section section "participants" then
    Some (participants d, Person {| name := []; position := []; company := [] |})
  else if is_section section "absentees" then Some (absentees d, Line [])
  else if is_section section "agendaItems" then Some (agendaItems d, Line [])
  else if is_section section "agreements" then Some (agreements d, Line [])
  else if is_section section "concerns" then Some (concerns d, Line [])
  else if is_section section "actionItems" then
    Some (actionItems d, Action {| task := []; responsible := []; deadline := [] |})
  else if is_section section "nextSteps" then Some (nextSteps d, Line [])
  else None.

(** [arr.splice(index, 1)] for an index that is not negative. *)
Definition splice1 {A} (index : nat) (l : list A) : list A :=
  take index l ++ drop (S index) l.

(** The updater [addItem(section)] hands to [setMinutesData]:
    [newData = { ...prev }], a [push] onto the array of the section, and
    [newData] returned.  The copy has the fields of [prev]. *)
Definition addItem (section : jsstring) (prev : MinutesData) (h : heap)
    : MinutesData * heap :=
  match section_array section prev with
  | Some (ref, blank) => (prev, alter (fun l => l ++ [blank]) ref h)
  | None => (prev, h)
  end.

(** The updater of [removeItem(section, index)]: the same with
    [splice(index, 1)]. *)
Definition removeItem (section : jsstring) (index : nat) (prev : MinutesData)
    (h : heap) : MinutesData * heap :=
  match section_array section prev with
  | Some (ref, _) => (prev, alter (splice1 index) ref h)
  | None => (prev, h)
  end.

(** The rows of a section as a state object shows them. *)
Definition rows (section : jsstring) (d : MinutesData) (h : heap) : list row :=
  match section_array section d with
  | Some (ref, _) => default [] (h !! ref)
  | None => []
  end.

End Minutes.

Section MoreObservations.
Context {P : Platform}.

(** The texts handed to the embedding service, in order. *)
Fixpoint embeds (evs : list event) : list json :=
  match evs with
  | [] => []
  | Embed input :: evs' => input :: embeds evs'
  | _ :: evs' => embeds evs'
  end.

(** The world after the calls [evs], issued one after the other from the
    world [w] on: each call is answered in the world the call before it
    left.  The constructor and the disk do not touch it. *)
Definition replay (evs : list event) (w : world) : world :=
  fold_left
    (fun w' ev =>
       match ev with
       | Clock _ => snd (date_now w')
       | Embed input => snd (embedQuery input w')
       | Query v => snd (index_query v w')
       | Upsert batch => snd (index_upsert batch w')
       | Generate docs query => snd (generate docs query w')
       | Construct | ReadFile _ | Unlink _ => w'
       end)
    evs w.

(** The status codes the handlers answer with. *)
Definition answered (r : response) : Prop :=
  status r = 200%nat \/ status r = 400%nat \/ status r = 500%nat.

End MoreObservations.

(* ===================================================================== *)
(** ** A second environment, for the start-up paths *)
(* ===================================================================== *)

Module Fixture.

(** Every provider answers; the environment says whether the key is set,
    whether the index handle can be had, and what the index holds ([stock]
    is what a query returns).  The world is the clock. *)
Definition platform (key : bool) (handle : option jserror) (stock : list pmatch)
    : Platform :=
  {| world := N;
     vector := jsstring;
     raise := fun f =>
       {| message := match f with
                     | Raised msg => msg
                     | NoSuchFile p => JS.lit "ENOENT: no such file or directory, " ++ p
                     | _ => JS.lit "TypeError"
                     end;
          stack := [] |};
     development := false;
     open_api_key := key;
     db_path := JS.lit "data/fake_db.txt";
     pinecone_handle := handle;
     model_setup := None;
     date_now := fun w => (w, w + 1);
     embedQuery := fun q w => (inr (match q with JStr s => s | _ => [] end), w);
     index_query := fun _ w => (inr stock, w);
     index_upsert := fun _ w => (inr tt, w);
     generate := fun _ _ w => (inr (JS.lit "ok"), w) |}.

(** A match whose metadata holds a text and its source. *)
Definition stored (content src : jsstring) : pmatch :=
  {| metadata := Some [(JS.lit "pageContent", JStr content);
                       (JS.lit "source", JStr src)] |}.

End Fixture.

(* ===================================================================== *)
(** ** The keyword tests of the client, on strings *)
(* ===================================================================== *)

Module Buckets.

(** [s.includes(k1) || s.includes(k2) || ...] for a string [s]. *)
Definition mentions (kws : list jsstring) (s : jsstring) : bool :=
  existsb (fun kw => JS.includes kw s) kws.

(** The keywords of the first test of the [forEach], and of the second. *)
Definition question_words : list jsstring :=
  [Text.kw_question; Text.kw_listen; Text.kw_hearing].

Definition next_words : list jsstring :=
  [Text.kw_next; Text.kw_step; Text.kw_advance].

End Buckets.

(* ===================================================================== *)
(** * Properties *)
(* ===================================================================== *)

(** ** The string primitives on the examples of the specification *)

Example split_paragraphs :
  JS.split (JS.match_sep JS.blank_line)
    (JS.lit "A" ++ [10; 10] ++ JS.lit "B" ++ [10; 10])
  = [JS.lit "A"; JS.lit "B"; []].
Proof. reflexivity. Qed.

Example split_triple_newline :
  JS.split (JS.match_sep JS.blank_line) (JS.lit "a" ++ [10; 10; 10] ++ JS.lit "b")
  = [JS.lit "a"; 10 :: JS.lit "b"].
Proof. reflexivity. Qed.

Example split_numbered :
  JS.split JS.match_marker (JS.lit "1. foo" ++ [10] ++ JS.lit "12.  bar 3.x")
  = [[]; JS.lit "foo" ++ [10]; JS.lit "bar 3.x"].
Proof. reflexivity. Qed.

Example decimal_examples :
  JS.decimal 0 = JS.lit "0" /\ JS.decimal 1700000000000 = JS.lit "1700000000000".
Proof. split; reflexivity. Qed.

Example truthy_examples :
  Json.truthy None = false /\ Json.truthy (Some (JStr [])) = false /\
  Json.truthy (Some (JArr [])) = true /\
  Json.truthy (Some (JNum {| is_zero := true; digits := JS.lit "0" |})) = false.
Proof. repeat split. Qed.

Example to_string_array :
  Json.to_string (fun _ => {| message := []; stack := [] |})
    (JArr [JStr (JS.lit "a"); JNull; JBool true]) = inr (JS.lit "a,,true").
Proof. reflexivity. Qed.

(** ** The monad *)

Section MonadFacts.
Context {P : Platform}.

Lemma bind_inr {A B} (m : M A) (k : A -> M B) s b s' :
  bind m k s = (inr b, s') ->
  exists a s1, m s = (inr a, s1) /\ k a s1 = (inr b, s').
Proof.
  unfold bind. destruct (m s) as [[e|a] s1]; intros H; [discriminate|].
  exists a, s1. split; [reflexivity|exact H].
Qed.

Lemma bind_step {A B} (m : M A) (k : A -> M B) s a s1 :
  m s = (inr a, s1) -> bind m k s = k a s1.
Proof. intros H. unfold bind. rewrite H. reflexivity. Qed.

Lemma bind_fail {A B} (m : M A) (k : A -> M B) s e s1 :
  m s = (inl e, s1) -> bind m k s = (inl e, s1).
Proof. intros H. unfold bind. rewrite H. reflexivity. Qed.

Lemma advance_refl s : advance s s [].
Proof. unfold advance. rewrite app_nil_r. reflexivity. Qed.

Lemma advance_trans s1 s2 s3 e1 e2 :
  advance s1 s2 e1 -> advance s2 s3 e2 -> advance s1 s3 (e1 ++ e2).
Proof. unfold advance. intros H1 H2. rewrite H2, H1, app_assoc. reflexivity. Qed.

Lemma new_events_advance s s' evs : advance s s' evs -> new_events s s' = evs.
Proof.
  unfold advance, new_events. intros ->. apply drop_app_length.
Qed.

Lemma call_advance {A} ev (f : world -> result A * world) s :
  advance s (snd (call ev f s)) [ev] /\ files (snd (call ev f s)) = files s
  /\ instance (snd (call ev f s)) = instance s.
Proof. unfold call, advance. destruct (f (ext s)); simpl. auto. Qed.

Lemma now_inv s t s' :
  now s = (t, s') ->
  exists n, t = inr n /\ advance s s' [Clock n] /\ files s' = files s
            /\ instance s' = instance s.
Proof.
  unfold now, advance. destruct (date_now (ext s)) as [n w]. intros [= <- <-].
  exists n. simpl. auto.
Qed.

Lemma upserts_app (e1 e2 : list event) : upserts (e1 ++ e2) = upserts e1 ++ upserts e2.
Proof.
  induction e1 as [|ev e1 IH]; simpl; [reflexivity|].
  destruct ev; simpl; rewrite ?IH; reflexivity.
Qed.

Lemma clock_readings_app (e1 e2 : list event) :
  clock_readings (e1 ++ e2) = clock_readings e1 ++ clock_readings e2.
Proof.
  induction e1 as [|ev e1 IH]; simpl; [reflexivity|].
  destruct ev; simpl; rewrite ?IH; reflexivity.
Qed.

End MonadFacts.

(** ** Validation comes first *)

Lemma falsy_truthy (v : option json) : falsy v <-> Json.truthy v = false.
Proof.
  split.
  - intros H. destruct H; simpl; try reflexivity. rewrite H. reflexivity.
  - destruct v as [[| [|] | n | [|c s] | items | fields]|]; simpl;
      try discriminate; intros H; try constructor.
    apply negb_false_iff in H. exact H.
Qed.

(** The log line: it goes through exactly when the question renders, and
    it leaves the state alone either way. *)
Lemma log_question_renders {P : Platform} (v : option json) (shown : jsstring)
    (s : state) :
  Json.template raise v = inr shown -> log_question v s = (inr tt, s).
Proof. intros H. unfold log_question. rewrite H. reflexivity. Qed.

Lemma log_question_throws {P : Platform} (v : option json) (e : jserror) (s : state) :
  Json.template raise v = inl e -> log_question v s = (inl e, s).
Proof. intros H. unfold log_question. rewrite H. reflexivity. Qed.

(** A falsy value has a primitive: the log line cannot throw on it. *)
Lemma falsy_renders {P : Platform} (v : option json) :
  falsy v -> exists shown, Json.template raise v = inr shown.
Proof. intros H. destruct H; simpl; eexists; reflexivity. Qed.

(** C10.  [POST /ask] answers 400 for every falsy [question] (absent, null,
    false, zero or the empty string), in the router of [index.ts] and in the
    one of [app/src/ask.ts]; the state of the process is left as it was: no
    agent is built or asked, no provider is called. *)
Theorem ask_rejects_falsy_question {P : Platform} (req_body : json) (s : state) :
  falsy (Json.prop req_body (JS.lit "question")) ->
  ask_post req_body s
    = (inr {| status := 400;
              body := JObj [(JS.lit "error",
                             JStr (JS.lit "Missing 'question' in request body"))] |}, s)
  /\ App.ask_post req_body s
    = (inr {| status := 400;
              body := JObj [(JS.lit "error",
                             JStr (JS.lit "Missing 'question' in request body"))] |}, s).
Proof.
  intros H. destruct (falsy_renders _ H) as [shown Hr]. apply falsy_truthy in H.
  unfold ask_post, App.ask_post, bind.
  rewrite (log_question_renders _ _ s Hr), H. simpl. split; reflexivity.
Qed.

Lemma ask_rejects_falsy_question_witness :
  fst (@ask_post (Mock.platform true true None 1 (JS.lit "answer"))
         (JObj [(JS.lit "question", JStr [])])
         (Mock.start (Mock.platform true true None 1 (JS.lit "answer")) (1700, 0%nat) ∅))
  = inr (json_error 400 Text.missing_question)
  /\ fst (@App.ask_post (Mock.platform true true None 1 (JS.lit "answer"))
         (JObj [(JS.lit "question", JStr [])])
         (Mock.start (Mock.platform true true None 1 (JS.lit "answer")) (1700, 0%nat) ∅))
  = inr (json_error 400 Text.missing_question).
Proof.
  destruct (@ask_rejects_falsy_question
              (Mock.platform true true None 1 (JS.lit "answer"))
              (JObj [(JS.lit "question", JStr [])])
              (Mock.start (Mock.platform true true None 1 (JS.lit "answer"))
                 (1700, 0%nat) ∅)) as [H1 H2].
  - simpl. apply falsy_empty_string.
  - rewrite H1, H2. split; reflexivity.
Defined.

(** C5.  [POST /coaching] with a [conversation] that is missing, is not an
    array, or is the empty array answers 400 with exactly
    [{"error": "有効な会話データが必要です"}]; the state of the process is left as
    it was, so that no agent, embedding, index or model has been reached. *)
Theorem coaching_rejects_invalid_conversation {P : Platform}
    (req_body : json) (s : state) :
  (Json.prop req_body (JS.lit "conversation") = None
   \/ (forall items, Json.prop req_body (JS.lit "conversation") <> Some (JArr items))
   \/ Json.prop req_body (JS.lit "conversation") = Some (JArr [])) ->
  coaching_post req_body s
    = (inr {| status := 400;
              body := JObj [(JS.lit "error", JStr Text.invalid_conversation)] |}, s).
Proof.
  intros H. unfold coaching_post.
  assert (Hrej : rejected_conversation (Json.prop req_body (JS.lit "conversation")) = true).
  { destruct H as [H | [H | H]].
    - rewrite H. reflexivity.
    - destruct (Json.prop req_body (JS.lit "conversation")) as [v|]; [|reflexivity].
      destruct v; try (unfold rejected_conversation; apply orb_true_r).
      exfalso. exact (H items eq_refl).
    - rewrite H. reflexivity. }
  rewrite Hrej. reflexivity.
Qed.

Lemma coaching_rejects_invalid_conversation_witness :
  fst (@coaching_post (Mock.platform true true None 1 (JS.lit "answer"))
         (JObj [(JS.lit "conversation", JArr [])])
         (Mock.start (Mock.platform true true None 1 (JS.lit "answer")) (1700, 0%nat) ∅))
  = inr (json_error 400 Text.invalid_conversation)
  /\ trace (snd (@coaching_post (Mock.platform true true None 1 (JS.lit "answer"))
         (JObj [(JS.lit "conversation", JArr [])])
         (Mock.start (Mock.platform true true None 1 (JS.lit "answer")) (1700, 0%nat) ∅)))
     = [].
Proof.
  rewrite (@coaching_rejects_invalid_conversation
             (Mock.platform true true None 1 (JS.lit "answer"))
             (JObj [(JS.lit "conversation", JArr [])])).
  - split; reflexivity.
  - right. right. reflexivity.
Defined.

(** Conversely, a non-empty array passes the check. *)
Lemma coaching_accepts_nonempty_array (x : json) (items : list json) :
  rejected_conversation (Some (JArr (x :: items))) = false.
Proof. reflexivity. Qed.

(** ** What a step of a handler leaves alone *)

Section FrameFacts.
Context {P : Platform}.

Lemma tame_ret {A} (a : A) : tame (ret a).
Proof. intros s. split; [reflexivity|]. exists []. apply advance_refl. Qed.

Lemma tame_throw {A} e : tame (@throw P A e).
Proof. intros s. split; [reflexivity|]. exists []. apply advance_refl. Qed.


Lemma tame_check o : tame (check o).
Proof. destruct o; [apply tame_throw | apply tame_ret]. Qed.

Lemma tame_call {A} ev (f : world -> result A * world) : tame (call ev f).
Proof.
  intros s. destruct (call_advance ev f s) as (H1 & H2 & _).
  split; [exact H2|]. exists [ev]. exact H1.
Qed.

Lemma tame_now : tame now.
Proof.
  intros s. destruct (now s) as [t s'] eqn:E.
  destruct (now_inv _ _ _ E) as (n & _ & H1 & H2 & _). simpl.
  split; [exact H2|]. exists [Clock n]. exact H1.
Qed.

Lemma tame_bind {A B} (m : M A) (k : A -> M B) :
  tame m -> (forall a, tame (k a)) -> tame (bind m k).
Proof.
  intros Hm Hk s. unfold bind. specialize (Hm s).
  destruct (m s) as [[e|a] s1]; simpl in *; [exact Hm|].
  destruct Hm as [Hf [e1 He1]]. destruct (Hk a s1) as [Hf2 [e2 He2]].
  split; [congruence|]. exists (e1 ++ e2). eapply advance_trans; eassumption.
Qed.


Lemma tame_build_records prefix label chunks :
  forall i, tame (build_records prefix label i chunks).
Proof.
  induction chunks as [|chunk rest IH]; intros i; simpl; [apply tame_ret|].
  destruct (JS.blank chunk); [apply IH|].
  apply tame_bind; [apply tame_call|]. intros v.
  apply tame_bind; [apply tame_now|]. intros t.
  apply tame_bind.
  - destruct (Json.truthy label); [apply tame_ret|].
    apply tame_bind; [apply tame_now|]. intros t'. apply tame_ret.
  - intros src. apply tame_bind; [apply IH|]. intros recs. apply tame_ret.
Qed.

Lemma tame_upsert_loop records : forall fuel i, tame (upsert_loop fuel i records).
Proof.
  induction fuel as [|fuel IH]; intros i; simpl; [apply tame_ret|].
  destruct (Nat.ltb i (length records)); [|apply tame_ret].
  apply tame_bind; [apply tame_call|]. intros _. apply IH.
Qed.

End FrameFacts.

(** ** The uploaded file *)

(** C9.  [POST /knowledge/upload] with a file that multer stored on disk:
    the handler reads the file and unlinks it at once, before any chunk is
    embedded or upserted.  Whatever the providers answer afterwards, and
    whether the response is the success or the 500, the disk at the end is
    the disk at the start without the temporary file. *)
Theorem upload_deletes_temporary_file {P : Platform}
    (f : upload) (s : state) (content : jsstring) :
  files s !! path f = Some content ->
  files (snd (knowledge_upload_post (Some f) s)) = delete (path f) (files s)
  /\ exists rest,
       new_events s (snd (knowledge_upload_post (Some f) s))
       = ReadFile (path f) :: Unlink (path f) :: rest.
Proof.
  intros Hfile. unfold knowledge_upload_post.
  set (tail := fun text : jsstring =>
    (check pinecone_handle ;;
     records <- build_records (JS.lit "file") (Some (JStr (originalname f))) 0
                  (JS.split (JS.match_sep JS.blank_line) text) ;;
     upsert_batches records ;;
     ret (ok (added_body (length records))))).
  assert (Htail : forall text, tame (tail text)).
  { intros text. unfold tail.
    apply tame_bind; [apply tame_check|]. intros _.
    apply tame_bind; [apply tame_build_records|]. intros records.
    apply tame_bind; [apply tame_upsert_loop|]. intros _. apply tame_ret. }
  set (s2 := {| ext := ext s; files := delete (path f) (files s);
                trace := (trace s ++ [ReadFile (path f)]) ++ [Unlink (path f)];
                instance := instance s |}).
  assert (Hrun : forall h : jserror -> M response,
    (forall e, tame (h e)) ->
    exists r s', try_catch
      (text <- readFileSync (path f) ;; unlinkSync (path f) ;; tail text) h s
      = (r, s') /\ files s' = files s2 /\ exists evs, advance s2 s' evs).
  { intros h Hh. unfold try_catch, bind at 1, readFileSync. rewrite Hfile.
    unfold bind at 1, unlinkSync. simpl. rewrite Hfile. fold s2.
    destruct (Htail content s2) as [Hf [evs Hevs]].
    destruct (tail content s2) as [[e|r] s3] eqn:E; simpl in *.
    - destruct (Hh e s3) as [Hf' [evs' Hevs']].
      destruct (h e s3) as [r' s4] eqn:E'. simpl in *.
      exists r', s4. split; [reflexivity|]. split; [congruence|].
      exists (evs ++ evs'). eapply advance_trans; eassumption.
    - exists (inr r), s3. split; [reflexivity|]. split; [exact Hf|].
      exists evs. exact Hevs. }
  destruct (Hrun (fun error => ret (internal_error error))) as (r & s' & E & Hf & evs & Hevs).
  { intros e. apply tame_ret. }
  unfold tail in E. rewrite E. simpl. split; [exact Hf|].
  exists evs. apply new_events_advance. unfold advance in *.
  rewrite Hevs. unfold s2. simpl. rewrite <- !app_assoc. reflexivity.
Qed.

Lemma upload_deletes_temporary_file_witness :
  files (snd (@knowledge_upload_post (Mock.platform false true None 1 [])
           (Some {| path := JS.lit "uploads/1f"; originalname := JS.lit "notes.txt" |})
           (Mock.start (Mock.platform false true None 1 []) (1700, 0%nat)
              {[ JS.lit "uploads/1f" := JS.lit "A" ]})))
  !! JS.lit "uploads/1f" = None
  /\ match fst (@knowledge_upload_post (Mock.platform false true None 1 [])
           (Some {| path := JS.lit "uploads/1f"; originalname := JS.lit "notes.txt" |})
           (Mock.start (Mock.platform false true None 1 []) (1700, 0%nat)
              {[ JS.lit "uploads/1f" := JS.lit "A" ]})) with
     | inr r => status r = 500%nat
     | inl _ => False
     end.
Proof.
  split.
  - destruct (@upload_deletes_temporary_file (Mock.platform false true None 1 [])
                {| path := JS.lit "uploads/1f"; originalname := JS.lit "notes.txt" |}
                (Mock.start (Mock.platform false true None 1 []) (1700, 0%nat)
                   {[ JS.lit "uploads/1f" := JS.lit "A" ]})
                (JS.lit "A")) as [H _].
    + simpl. apply lookup_singleton_eq.
    + rewrite H. simpl. apply lookup_delete_eq.
  - vm_compute. reflexivity.
Defined.

(** ** The batch loop *)

Section Batches.
Context {P : Platform}.

Lemma slice_take_drop {A} (i n : nat) (l : list A) :
  JS.slice i (i + n) l = take n (drop i l).
Proof.
  unfold JS.slice.
  destruct (Nat.le_gt_cases (length l) i) as [Hge|Hlt].
  - rewrite !Nat.min_r by lia. rewrite Nat.sub_diag. simpl.
    rewrite (drop_ge l i) by lia. rewrite take_nil. reflexivity.
  - rewrite (Nat.min_l i) by lia.
    destruct (Nat.le_gt_cases (i + n) (length l)) as [H1|H1].
    + rewrite Nat.min_l by lia. f_equal. lia.
    + rewrite Nat.min_r by lia.
      rewrite !take_ge; [reflexivity | |]; rewrite length_drop; lia.
Qed.

(** What the loop has done when it stops: the batches it issued are the
    consecutive runs of [BATCH_SIZE] records from index [i] on; it stops by
    its own condition with all of them issued, or at the first batch the
    index refused, with that error. *)
Lemma upsert_loop_spec (records : list (record vector)) :
  forall fuel i s,
    (length records <= i + fuel)%nat ->
    exists issued,
      advance s (snd (upsert_loop fuel i records s)) (List.map Upsert issued)
      /\ (forall j b, issued !! j = Some b ->
            (i + j * BATCH_SIZE < length records)%nat
            /\ b = take BATCH_SIZE (drop (i + j * BATCH_SIZE) records))
      /\ match fst (upsert_loop fuel i records s) with
         | inr _ => concat issued = drop i records
         | inl e => exists earlier b w,
                      issued = earlier ++ [b] /\ fst (index_upsert b w) = inl e
         end.
Proof.
  induction fuel as [|fuel IH]; intros i s Hfuel; simpl.
  - exists []. split; [apply advance_refl|]. split; [intros j b H; discriminate|].
    simpl. rewrite drop_ge by lia. reflexivity.
  - destruct (Nat.ltb_spec i (length records)) as [Hlt|Hge].
    + rewrite slice_take_drop.
      set (batch := take BATCH_SIZE (drop i records)).
      unfold bind, call.
      destruct (index_upsert batch (ext s)) as [[e|[]] w] eqn:E.
      * exists [batch]. simpl. split; [reflexivity|]. split.
        -- intros [|j] b Hj; [|discriminate]. injection Hj as <-.
           simpl. rewrite Nat.add_0_r. split; [exact Hlt|reflexivity].
        -- exists [], batch, (ext s). rewrite E. split; reflexivity.
      * set (s1 := {| ext := w; files := files s;
                      trace := trace s ++ [Upsert batch];
                      instance := instance s |}).
        destruct (IH (i + BATCH_SIZE)%nat s1) as (issued & Hadv & Hidx & Hres);
          [unfold BATCH_SIZE; lia|].
        exists (batch :: issued). split; [|split].
        -- unfold advance in *. rewrite Hadv. unfold s1. simpl.
           rewrite <- app_assoc. reflexivity.
        -- intros [|j] b Hj.
           ++ injection Hj as <-. simpl. rewrite Nat.add_0_r.
              split; [exact Hlt|reflexivity].
           ++ simpl in Hj. destruct (Hidx j b Hj) as [H1 H2].
              replace (i + S j * BATCH_SIZE)%nat
                with (i + BATCH_SIZE + j * BATCH_SIZE)%nat by (unfold BATCH_SIZE; lia).
              split; assumption.
        -- destruct (fst (upsert_loop fuel (i + BATCH_SIZE) records s1)) as [e|u].
           ++ destruct Hres as (earlier & b & w' & -> & Hw).
              exists (batch :: earlier), b, w'. split; [reflexivity|exact Hw].
           ++ simpl. rewrite Hres. unfold batch.
              rewrite <- (take_drop BATCH_SIZE (drop i records)) at 2.
              rewrite drop_drop. reflexivity.
    + exists []. split; [apply advance_refl|]. split; [intros j b H; discriminate|].
      simpl. rewrite drop_ge by lia. reflexivity.
Qed.

(** The fuel [upsert_batches] gives is enough: more fuel changes nothing. *)
Lemma upsert_loop_fuel (records : list (record vector)) :
  forall fuel fuel' i s,
    (length records <= i + fuel)%nat -> (length records <= i + fuel')%nat ->
    upsert_loop fuel i records s = upsert_loop fuel' i records s.
Proof.
  induction fuel as [|fuel IH]; intros fuel' i s H H'.
  - destruct fuel' as [|fuel']; [reflexivity|]. simpl.
    destruct (Nat.ltb_spec i (length records)); [lia|reflexivity].
  - destruct fuel' as [|fuel']; simpl.
    + destruct (Nat.ltb_spec i (length records)); [lia|reflexivity].
    + destruct (Nat.ltb_spec i (length records)); [|reflexivity].
      unfold bind. destruct (call _ _ s) as [[e|u] s1]; [reflexivity|].
      apply IH; unfold BATCH_SIZE; lia.
Qed.

(** The run of the loop, call by call: every upsert but the last one issued
    was granted by the index, in the world the calls before it had left;
    the loop ends normally only when every batch was issued and granted,
    and it throws exactly the refusal of the last batch it issued. *)
Lemma upsert_loop_run (records : list (record vector)) :
  forall fuel i s,
    (length records <= i + fuel)%nat ->
    exists issued,
      advance s (snd (upsert_loop fuel i records s)) (List.map Upsert issued)
      /\ (forall j b, issued !! j = Some b ->
            (i + j * BATCH_SIZE < length records)%nat
            /\ b = take BATCH_SIZE (drop (i + j * BATCH_SIZE) records))
      /\ ext (snd (upsert_loop fuel i records s)) = world_after issued (ext s)
      /\ (forall j b, issued !! j = Some b -> (S j < length issued)%nat ->
            fst (index_upsert b (world_after (take j issued) (ext s))) = inr tt)
      /\ match fst (upsert_loop fuel i records s) with
         | inr _ =>
             concat issued = drop i records
             /\ forall j b, issued !! j = Some b ->
                  fst (index_upsert b (world_after (take j issued) (ext s))) = inr tt
         | inl e =>
             exists earlier b,
               issued = earlier ++ [b]
               /\ fst (index_upsert b (world_after earlier (ext s))) = inl e
         end.
Proof.
  induction fuel as [|fuel IH]; intros i s Hfuel; cbn [upsert_loop].
  - exists []. split; [apply advance_refl|]. split; [intros j b H; discriminate|].
    split; [reflexivity|]. split; [intros j b H; discriminate|].
    cbn. split; [rewrite drop_ge by lia; reflexivity|intros j b H; discriminate].
  - destruct (Nat.ltb_spec i (length records)) as [Hlt|Hge].
    + rewrite slice_take_drop.
      set (batch := take BATCH_SIZE (drop i records)).
      unfold bind, call.
      destruct (index_upsert batch (ext s)) as [[e|[]] w] eqn:E.
      * exists [batch]. cbn [fst snd]. split; [reflexivity|]. split.
        { intros [|j] b Hj; [|discriminate]. injection Hj as <-.
          rewrite Nat.mul_0_l, Nat.add_0_r. split; [exact Hlt|reflexivity]. }
        split; [unfold world_after; cbn [fold_left snd]; rewrite E; reflexivity|]. split.
        { intros j b _ Hj. cbn in Hj. lia. }
        exists [], batch. split; [reflexivity|].
        unfold world_after. cbn [fold_left]. rewrite E. reflexivity.
      * set (s1 := {| ext := w; files := files s;
                      trace := trace s ++ [Upsert batch];
                      instance := instance s |}).
        destruct (IH (i + BATCH_SIZE)%nat s1)
          as (issued & Hadv & Hidx & Hext & Hmid & Hres);
          [unfold BATCH_SIZE; lia|].
        assert (Hw : forall l, world_after (batch :: l) (ext s) = world_after l w).
        { intros l. unfold world_after. cbn [fold_left]. rewrite E. reflexivity. }
        exists (batch :: issued). split; [|split; [|split; [|split]]].
        -- unfold advance in *. rewrite Hadv. unfold s1. cbn [trace List.map].
           rewrite <- app_assoc. reflexivity.
        -- intros [|j] b Hj.
           ++ injection Hj as <-. rewrite Nat.mul_0_l, Nat.add_0_r.
              split; [exact Hlt|reflexivity].
           ++ cbn in Hj. destruct (Hidx j b Hj) as [H1 H2].
              replace (i + S j * BATCH_SIZE)%nat
                with (i + BATCH_SIZE + j * BATCH_SIZE)%nat by (unfold BATCH_SIZE; lia).
              split; assumption.
        -- rewrite Hext, Hw. reflexivity.
        -- intros [|j] b Hj Hlast.
           ++ injection Hj as <-. unfold world_after. cbn [take fold_left].
              rewrite E. reflexivity.
           ++ cbn in Hj. cbn [take]. rewrite Hw.
              apply (Hmid j b Hj). cbn in Hlast. lia.
        -- destruct (fst (upsert_loop fuel (i + BATCH_SIZE) records s1)) as [e|u].
           ++ destruct Hres as (earlier & b & -> & Hb).
              exists (batch :: earlier), b. split; [reflexivity|].
              rewrite Hw. exact Hb.
           ++ destruct Hres as [Hc Hall]. split.
              ** cbn [concat]. rewrite Hc. unfold batch.
                 rewrite <- (take_drop BATCH_SIZE (drop i records)) at 2.
                 rewrite drop_drop. reflexivity.
              ** intros [|j] b Hj.
                 --- injection Hj as <-. unfold world_after. cbn [take fold_left].
                     rewrite E. reflexivity.
                 --- cbn in Hj. cbn [take]. rewrite Hw. exact (Hall j b Hj).
    + exists []. split; [apply advance_refl|]. split; [intros j b H; discriminate|].
      split; [reflexivity|]. split; [intros j b H; discriminate|].
      cbn. split; [rewrite drop_ge by lia; reflexivity|intros j b H; discriminate].
Qed.

End Batches.

(** ** The ingestion handlers, step by step *)

Section Ingestion.
Context {P : Platform}.

(** [POST /knowledge/add] with a non-empty string as [text]: the handle of
    the index, the records, the batches; whatever is thrown on the way
    becomes the 500 that carries its message. *)
Lemma knowledge_add_run (req_body : json) (t : jsstring) (s : state) :
  Json.prop req_body (JS.lit "text") = Some (JStr t) -> t <> [] ->
  knowledge_add_post req_body s =
    match pinecone_handle with
    | Some e => (inr (internal_error e), s)
    | None =>
        match build_records (JS.lit "manual") (Json.prop req_body (JS.lit "source")) 0
                (JS.split (JS.match_sep JS.blank_line) t) s with
        | (inl e, s1) => (inr (internal_error e), s1)
        | (inr records, s1) =>
            match upsert_batches records s1 with
            | (inl e, s2) => (inr (internal_error e), s2)
            | (inr _, s2) => (inr (ok (added_body (length records))), s2)
            end
        end
    end.
Proof.
  intros Ht Hne. unfold knowledge_add_post. rewrite Ht.
  destruct t as [|c t]; [contradiction|]. simpl Json.truthy. simpl negb. cbv iota.
  unfold try_catch, bind, lift, check, split_paragraphs_of.
  destruct pinecone_handle as [e|]; [reflexivity|]. simpl.
  destruct (build_records _ _ _ _ s) as [[e|records] s1]; [reflexivity|].
  destruct (upsert_batches records s1) as [[e|u] s2]; reflexivity.
Qed.

Lemma knowledge_upload_run (f : upload) (content : jsstring) (s : state) :
  files s !! path f = Some content ->
  knowledge_upload_post (Some f) s =
    match pinecone_handle with
    | Some e => (inr (internal_error e), after_unlink f s)
    | None =>
        match build_records (JS.lit "file") (Some (JStr (originalname f))) 0
                (JS.split (JS.match_sep JS.blank_line) content) (after_unlink f s) with
        | (inl e, s1) => (inr (internal_error e), s1)
        | (inr records, s1) =>
            match upsert_batches records s1 with
            | (inl e, s2) => (inr (internal_error e), s2)
            | (inr _, s2) => (inr (ok (added_body (length records))), s2)
            end
        end
    end.
Proof.
  intros Hf. unfold knowledge_upload_post.
  unfold try_catch, bind at 1, readFileSync. rewrite Hf.
  unfold bind at 1, unlinkSync. simpl. rewrite Hf. fold (after_unlink f s).
  unfold bind, check.
  destruct pinecone_handle as [e|]; [reflexivity|]. simpl.
  destruct (build_records _ _ _ _ (after_unlink f s)) as [[e|records] s1]; [reflexivity|].
  destruct (upsert_batches records s1) as [[e|u] s2]; reflexivity.
Qed.

(** The records a successful run of the loop built: one per chunk that is
    not blank, in order; the id of each is made of a clock reading of this
    run and of the index of its chunk; nothing was upserted on the way. *)
Lemma build_records_inv prefix label :
  forall chunks i s recs s',
    build_records prefix label i chunks s = (inr recs, s') ->
    exists evs stamps,
      advance s s' evs
      /\ upserts evs = []
      /\ List.map pageContent recs = List.filter (fun c => negb (JS.blank c)) chunks
      /\ List.map id recs = List.map (stamped prefix) stamps
      /\ Forall (fun st => In (fst st) (clock_readings evs) /\ (i <= snd st)%nat) stamps
      /\ StronglySorted lt (List.map snd stamps).
Proof.
  induction chunks as [|chunk rest IH]; intros i s recs s' H; simpl in H.
  - injection H as <- <-. exists [], []. simpl.
    repeat split; try constructor. apply advance_refl.
  - destruct (JS.blank chunk) eqn:Hb.
    + destruct (IH _ _ _ _ H) as (evs & stamps & Ha & Hu & Hc & Hi & Hs & Hsort).
      exists evs, stamps. simpl. rewrite Hb. simpl.
      repeat split; try assumption.
      eapply Forall_impl; [exact Hs|]. simpl. intros st [? ?]. split; [assumption|lia].
    + apply bind_inr in H as (v & s1 & H1 & H).
      apply bind_inr in H as (t & s2 & H2 & H).
      apply bind_inr in H as (src & s3 & H3 & H).
      apply bind_inr in H as (recs' & s4 & H4 & H).
      injection H as <- <-.
      destruct (IH _ _ _ _ H4) as (evs & stamps & Ha & Hu & Hc & Hi & Hs & Hsort).
      pose proof (call_advance (Embed (JStr chunk)) (embedQuery (JStr chunk)) s) as (A1 & _).
      rewrite H1 in A1. simpl in A1.
      destruct (now_inv _ _ _ H2) as (n & Hn & A2 & _). injection Hn as ->.
      assert (A3 : exists e3, advance s2 s3 e3 /\ upserts e3 = []).
      { destruct (Json.truthy label).
        - injection H3 as <- <-. exists []. split; [apply advance_refl|reflexivity].
        - apply bind_inr in H3 as (t' & s2' & H3 & H3').
          injection H3' as <- <-.
          destruct (now_inv _ _ _ H3) as (n' & _ & A & _).
          exists [Clock n']. split; [exact A|reflexivity]. }
      destruct A3 as (e3 & A3 & Hu3).
      exists ([Embed (JStr chunk)] ++ [Clock n] ++ e3 ++ evs), ((n, i) :: stamps).
      split; [|split; [|split; [|split; [|split]]]].
      * eapply advance_trans; [exact A1|].
        eapply advance_trans; [exact A2|].
        eapply advance_trans; [exact A3|exact Ha].
      * simpl. rewrite upserts_app, Hu3, Hu. reflexivity.
      * simpl. rewrite Hb. simpl. rewrite Hc. reflexivity.
      * simpl. rewrite Hi. reflexivity.
      * constructor.
        -- simpl. split; [left; reflexivity|lia].
        -- eapply Forall_impl; [exact Hs|]. simpl. intros st [Hin Hle].
           split; [|lia]. right. rewrite clock_readings_app.
           apply in_or_app. right. exact Hin.
      * simpl. constructor; [exact Hsort|].
        rewrite Forall_map. eapply Forall_impl; [exact Hs|].
        simpl. intros st [_ Hle]. lia.
Qed.

End Ingestion.

Lemma internal_error_carries_message {P : Platform} (e : jserror) :
  status (internal_error e) = 500%nat
  /\ Json.prop (body (internal_error e)) (JS.lit "message") = Some (JStr (message e)).
Proof.
  unfold internal_error. destruct development; split; reflexivity.
Qed.

(** C7.  The records of an ingestion go to the index in consecutive batches
    of [BATCH_SIZE] = 100, in order, one call after the other: the [j]-th
    call carries the records from position [100 j] on, at most 100 of them.
    Every call but the last one issued was granted by the index, in the
    world the calls before it had left.  The loop ends normally only when
    every batch was issued and granted; then the batches together are the
    whole list.  Otherwise it throws, the call the index refused is the
    last one issued (no later batch is sent, nothing is tried again), and
    what the loop throws is the error the index gave for that batch there;
    [POST /knowledge/add] and [POST /knowledge/upload] then answer 500 with
    the message of that very error. *)
Theorem upserts_go_in_batches {P : Platform}
    (records : list (record vector)) (s : state) :
  (exists issued,
     new_events s (snd (upsert_batches records s)) = List.map Upsert issued
     /\ (forall j b, issued !! j = Some b ->
           b <> [] /\ b = take BATCH_SIZE (drop (j * BATCH_SIZE) records))
     /\ Forall (fun b => (length b <= 100)%nat) issued
     /\ ext (snd (upsert_batches records s)) = world_after issued (ext s)
     /\ (forall j b, issued !! j = Some b -> (S j < length issued)%nat ->
           fst (index_upsert b (world_after (take j issued) (ext s))) = inr tt)
     /\ match fst (upsert_batches records s) with
        | inr _ =>
            concat issued = records
            /\ forall j b, issued !! j = Some b ->
                 fst (index_upsert b (world_after (take j issued) (ext s))) = inr tt
        | inl e =>
            exists earlier b,
              issued = earlier ++ [b]
              /\ fst (index_upsert b (world_after earlier (ext s))) = inl e
        end)
  /\ (forall req_body t s0,
        Json.prop req_body (JS.lit "text") = Some (JStr t) -> t <> [] ->
        pinecone_handle = None ->
        build_records (JS.lit "manual") (Json.prop req_body (JS.lit "source")) 0
          (JS.split (JS.match_sep JS.blank_line) t) s0 = (inr records, s) ->
        knowledge_add_post req_body s0 =
          match upsert_batches records s with
          | (inl e, s2) => (inr (internal_error e), s2)
          | (inr _, s2) => (inr (ok (added_body (length records))), s2)
          end)
  /\ (forall f content s0,
        files s0 !! path f = Some content ->
        pinecone_handle = None ->
        build_records (JS.lit "file") (Some (JStr (originalname f))) 0
          (JS.split (JS.match_sep JS.blank_line) content) (after_unlink f s0)
          = (inr records, s) ->
        knowledge_upload_post (Some f) s0 =
          match upsert_batches records s with
          | (inl e, s2) => (inr (internal_error e), s2)
          | (inr _, s2) => (inr (ok (added_body (length records))), s2)
          end)
  /\ (forall e, status (internal_error e) = 500%nat
                /\ Json.prop (body (internal_error e)) (JS.lit "message")
                   = Some (JStr (message e))).
Proof.
  split; [|split; [|split]].
  - unfold upsert_batches.
    destruct (upsert_loop_run records (length records) 0 s)
      as (issued & Ha & Hidx & Hext & Hmid & Hres); [lia|].
    exists issued. split; [apply new_events_advance; exact Ha|].
    assert (Hcell : forall j b, issued !! j = Some b ->
              b <> [] /\ b = take BATCH_SIZE (drop (j * BATCH_SIZE) records)).
    { intros j b Hj. destruct (Hidx j b Hj) as [Hlt ->].
      rewrite Nat.add_0_l in *. split; [|reflexivity]. intros Hnil.
      assert (Hlen : (0 < length (take BATCH_SIZE (drop (j * BATCH_SIZE) records)))%nat).
      { rewrite length_take, length_drop. unfold BATCH_SIZE in *. lia. }
      rewrite Hnil in Hlen. inversion Hlen. }
    split; [exact Hcell|]. split.
    + apply Forall_lookup. intros j b Hj. destruct (Hcell j b Hj) as [_ ->].
      rewrite length_take. unfold BATCH_SIZE. lia.
    + split; [exact Hext|]. split; [exact Hmid|].
      destruct (fst (upsert_loop (length records) 0 records s)); [exact Hres|].
      destruct Hres as [Hc Hall]. split; [rewrite Hc; reflexivity|exact Hall].
  - intros req_body t s0 Ht Hne Hh Hb.
    rewrite (knowledge_add_run req_body t s0 Ht Hne), Hh, Hb. reflexivity.
  - intros f content s0 Hf Hh Hb.
    rewrite (knowledge_upload_run f content s0 Hf), Hh, Hb. reflexivity.
  - apply internal_error_carries_message.
Qed.

(** 250 paragraphs against an index that serves one upsert and refuses the
    second: two batches are issued, of 100 records each, the third is never
    sent, and the response is the 500 with the message of the refusal. *)
Lemma upserts_go_in_batches_witness :
  fst (@knowledge_add_post (Mock.platform true true (Some 1%nat) 1 [])
         (Mock.add_body (Mock.paragraphs_text 250) (JS.lit "x"))
         (Mock.start (Mock.platform true true (Some 1%nat) 1 []) (1700, 0%nat) ∅))
  = inr (@internal_error (Mock.platform true true (Some 1%nat) 1 []) Mock.failure)
  /\ List.map length
       (@upserts (Mock.platform true true (Some 1%nat) 1 [])
          (trace (snd (@knowledge_add_post (Mock.platform true true (Some 1%nat) 1 [])
             (Mock.add_body (Mock.paragraphs_text 250) (JS.lit "x"))
             (Mock.start (Mock.platform true true (Some 1%nat) 1 []) (1700, 0%nat) ∅)))))
     = [100%nat; 100%nat].
Proof.
  pose (P := Mock.platform true true (Some 1%nat) 1 []).
  pose (s0 := Mock.start P (1700, 0%nat) ∅).
  pose (built := @build_records P (JS.lit "manual") (Some (JStr (JS.lit "x"))) 0
                   (JS.split (JS.match_sep JS.blank_line) (Mock.paragraphs_text 250)) s0).
  destruct (@upserts_go_in_batches P (Mock.value [] (fst built)) (snd built))
    as (_ & Hadd & _ & _).
  fold P. fold s0.
  rewrite (Hadd (Mock.add_body (Mock.paragraphs_text 250) (JS.lit "x"))
             (Mock.paragraphs_text 250) s0).
  - split; vm_compute; reflexivity.
  - reflexivity.
  - discriminate.
  - reflexivity.
  - vm_compute. reflexivity.
Defined.

(** ** Trimming and splitting *)

Section StringFacts.
Import JS.

Lemma trimStart_spec (s : jsstring) :
  exists l, s = l ++ trimStart s /\ Spec.all_space l
            /\ Spec.no_leading_space (trimStart s).
Proof.
  induction s as [|c s IH]; simpl.
  - exists []. repeat split. constructor.
  - destruct (is_space c) eqn:Hc.
    + destruct IH as (l & Hl & Hsp & Hno). exists (c :: l).
      split; [simpl; congruence|]. split; [constructor; assumption|exact Hno].
    + exists []. split; [reflexivity|]. split; [constructor|exact Hc].
Qed.

Lemma all_space_rev (s : jsstring) : Spec.all_space s -> Spec.all_space (rev s).
Proof. unfold Spec.all_space. intros H. apply Forall_rev. exact H. Qed.

Lemma all_space_app (a b : jsstring) :
  Spec.all_space (a ++ b) <-> Spec.all_space a /\ Spec.all_space b.
Proof. unfold Spec.all_space. apply Forall_app. Qed.

(** [trim] gives the text without its leading and trailing white space. *)
Lemma trim_spec (s : jsstring) : Spec.trimmed s (trim s).
Proof.
  unfold trim, trimEnd.
  destruct (trimStart_spec s) as (l & Hl & Hlsp & Hno).
  destruct (trimStart_spec (rev (trimStart s))) as (r & Hr & Hrsp & Hno').
  set (u := trimStart s) in *. set (t := trimStart (rev u)) in *.
  assert (Hu : u = rev t ++ rev r).
  { rewrite <- rev_app_distr, <- Hr, rev_involutive. reflexivity. }
  exists l, (rev r). split; [|split; [|split; [|split]]].
  - rewrite <- Hu. exact Hl.
  - exact Hlsp.
  - apply all_space_rev. exact Hrsp.
  - destruct (rev t) as [|c t'] eqn:Ht; [exact I|]. simpl.
    rewrite Hu in Hno. simpl in Hno. exact Hno.
  - rewrite rev_involutive. exact Hno'.
Qed.

Lemma no_leading_space_all_space (s : jsstring) :
  Spec.no_leading_space s -> Spec.all_space s -> s = [].
Proof.
  destruct s as [|c s]; [reflexivity|]. simpl. intros Hc H.
  inversion H; subst. congruence.
Qed.

(** A text is blank, [!s.trim()], exactly when it is white space only. *)
Lemma blank_all_space (s : jsstring) : blank s = true <-> Spec.all_space s.
Proof.
  unfold blank. destruct (trim_spec s) as (l & r & Hs & Hl & Hr & Hno & Hno').
  split.
  - destruct (trim s); [|discriminate]. intros _. rewrite Hs.
    apply all_space_app. split; [exact Hl|exact Hr].
  - intros H. rewrite Hs in H. apply all_space_app in H as [_ H].
    apply all_space_app in H as [H _].
    rewrite (no_leading_space_all_space _ Hno H). reflexivity.
Qed.

(** The filter of the coaching handler keeps what is not blank. *)
Lemma trim_length_blank (s : jsstring) :
  Nat.ltb 0 (length (trim s)) = negb (blank s).
Proof. unfold blank. destruct (trim s); reflexivity. Qed.

(** Every piece of a split is made of units of the text. *)
Lemma split_go_units (m : matcher) (s : jsstring) :
  forall k seg, In seg (split_go m k s) -> forall c, In c seg -> In c s.
Proof.
  induction s as [|a s IH]; intros k seg Hin c Hc; simpl in Hin.
  - destruct Hin as [<-|[]]. destruct Hc.
  - destruct k as [|k].
    + destruct (m (a :: s)) as [[|j]|].
      * destruct (split_go m 0 s) as [|seg0 segs] eqn:E.
        -- destruct Hin as [<-|[]]. destruct Hc as [<-|[]]. left. reflexivity.
        -- destruct Hin as [<-|Hin].
           ++ destruct Hc as [<-|Hc]; [left; reflexivity|].
              right. apply (IH 0%nat seg0); [rewrite E; left; reflexivity|exact Hc].
           ++ right. apply (IH 0%nat seg); [rewrite E; right; exact Hin|exact Hc].
      * destruct Hin as [<-|Hin]; [destruct Hc|].
        right. exact (IH j seg Hin c Hc).
      * destruct (split_go m 0 s) as [|seg0 segs] eqn:E.
        -- destruct Hin as [<-|[]]. destruct Hc as [<-|[]]. left. reflexivity.
        -- destruct Hin as [<-|Hin].
           ++ destruct Hc as [<-|Hc]; [left; reflexivity|].
              right. apply (IH 0%nat seg0); [rewrite E; left; reflexivity|exact Hc].
           ++ right. apply (IH 0%nat seg); [rewrite E; right; exact Hin|exact Hc].
    + right. exact (IH k seg Hin c Hc).
Qed.

(** A text of white space only has no paragraph. *)
Lemma paragraphs_of_blank (t : jsstring) :
  Spec.all_space t -> Spec.paragraphs t = [].
Proof.
  intros Hsp. unfold Spec.paragraphs, split.
  assert (H : forall seg, In seg (split_go (match_sep blank_line) 0 t) ->
                          negb (blank seg) = false).
  { intros seg Hin. apply negb_false_iff, blank_all_space.
    apply List.Forall_forall. intros c Hc.
    pose proof (proj1 (List.Forall_forall _ _) Hsp) as Hall.
    apply Hall. exact (split_go_units _ _ _ _ Hin c Hc). }
  induction (split_go (match_sep blank_line) 0 t) as [|seg segs IH]; [reflexivity|].
  simpl. rewrite (H seg (or_introl eq_refl)). apply IH.
  intros seg' Hin. apply H. right. exact Hin.
Qed.

End StringFacts.

(** ** Splitting on a separator and joining again *)

Section Roundtrip.
Import JS.

Lemma starts_with_prefix (pre s : jsstring) :
  starts_with pre s = true -> s = pre ++ drop (length pre) s.
Proof.
  revert s. induction pre as [|a pre IH]; intros s H; [reflexivity|].
  destruct s as [|b s]; [discriminate|]. simpl in H.
  apply andb_true_iff in H as [Hab H]. apply N.eqb_eq in Hab as ->.
  simpl. f_equal. exact (IH s H).
Qed.

Lemma split_go_nonempty (m : matcher) (s : jsstring) :
  forall k, split_go m k s <> [].
Proof.
  induction s as [|c s IH]; intros k; simpl; [discriminate|].
  destruct k as [|k]; [|apply IH].
  destruct (m (c :: s)) as [[|j]|]; try discriminate;
    destruct (split_go m 0 s); discriminate.
Qed.

Lemma join_cons (sep x : jsstring) (l : list jsstring) :
  l <> [] -> join sep (x :: l) = x ++ sep ++ join sep l.
Proof. destruct l; [contradiction|reflexivity]. Qed.

(** The pieces of [text.split(sep)], joined by [sep], are the text: the
    split loses and invents nothing. *)
Lemma join_split (sep : jsstring) (s : jsstring) :
  sep <> [] -> join sep (split (match_sep sep) s) = s.
Proof.
  intros Hsep. unfold split.
  assert (H : forall k, join sep (split_go (match_sep sep) k s) = drop k s).
  { induction s as [|c s IH]; intros k.
    - rewrite drop_nil. reflexivity.
    - destruct k as [|k]; [|exact (IH k)].
      rewrite drop_0. simpl split_go. unfold match_sep at 1.
      destruct (starts_with sep (c :: s)) eqn:Es.
      + destruct sep as [|a sep]; [contradiction|]. simpl length. cbv iota.
        rewrite join_cons by apply split_go_nonempty.
        rewrite IH.
        apply starts_with_prefix in Es. simpl in Es. simpl.
        symmetry. exact Es.
      + specialize (IH 0%nat). rewrite drop_0 in IH.
        pose proof (split_go_nonempty (match_sep sep) s 0) as Hne.
        destruct (split_go (match_sep sep) 0 s) as [|seg segs]; [contradiction|].
        destruct segs as [|seg' segs].
        * simpl in *. congruence.
        * rewrite join_cons by discriminate. rewrite join_cons in IH by discriminate.
          rewrite <- IH. reflexivity. }
  rewrite H. apply drop_0.
Qed.

End Roundtrip.

(** ** One record per paragraph *)

Section Paragraphs.
Context {P : Platform}.

Lemma upserts_map_Upsert (issued : list (list (record vector))) :
  upserts (List.map Upsert issued) = issued.
Proof. induction issued as [|b l IH]; simpl; [reflexivity|]. rewrite IH. reflexivity. Qed.

(** Building the records upserts nothing, however it ends. *)
Lemma build_records_quiet prefix label :
  forall chunks i s,
    exists evs, advance s (snd (build_records prefix label i chunks s)) evs
                /\ upserts evs = [].
Proof.
  induction chunks as [|chunk rest IH]; intros i s; simpl.
  - exists []. split; [apply advance_refl|reflexivity].
  - destruct (JS.blank chunk); [apply IH|].
    unfold bind at 1.
    pose proof (call_advance (Embed (JStr chunk)) (embedQuery (JStr chunk)) s) as (A1 & _).
    destruct (call (Embed (JStr chunk)) (embedQuery (JStr chunk)) s) as [[e|v] s1];
      simpl in A1; [exists [Embed (JStr chunk)]; split; [exact A1|reflexivity]|].
    unfold bind at 1. destruct (now s1) as [t s2] eqn:E2.
    destruct (now_inv _ _ _ E2) as (n & -> & A2 & _).
    assert (A3 : exists e3 src s3,
               (if Json.truthy label then ret (default JNull label)
                else t' <- now ;; ret (JStr (record_id prefix t' i))) s2 = (inr src, s3)
               /\ advance s2 s3 e3 /\ upserts e3 = []).
    { destruct (Json.truthy label).
      - exists [], (default JNull label), s2.
        split; [reflexivity|]. split; [apply advance_refl|reflexivity].
      - unfold bind. destruct (now s2) as [t' s3] eqn:E3.
        destruct (now_inv _ _ _ E3) as (n' & -> & A & _).
        exists [Clock n'], (JStr (record_id prefix n' i)), s3.
        split; [reflexivity|]. split; [exact A|reflexivity]. }
    destruct A3 as (e3 & src & s3 & E3 & A3 & U3).
    unfold bind at 1. rewrite E3.
    destruct (IH (S i) s3) as (evs & A4 & U4).
    unfold bind. destruct (build_records prefix label (S i) rest s3) as [[e|recs] s4];
      simpl in *;
      (exists ([Embed (JStr chunk)] ++ [Clock n] ++ e3 ++ evs); split;
       [ eapply advance_trans; [exact A1|];
         eapply advance_trans; [exact A2|];
         eapply advance_trans; [exact A3|exact A4]
       | simpl; rewrite upserts_app, U3, U4; reflexivity ]).
Qed.

(** When the embedding never fails the records are built. *)
Lemma build_records_succeeds prefix label :
  (forall q w, exists v w', embedQuery q w = (inr v, w')) ->
  forall chunks i s, exists recs s',
    build_records prefix label i chunks s = (inr recs, s').
Proof.
  intros Hembed. induction chunks as [|chunk rest IH]; intros i s; simpl.
  - exists [], s. reflexivity.
  - destruct (JS.blank chunk); [apply IH|].
    assert (E1 : exists v s1,
               call (Embed (JStr chunk)) (embedQuery (JStr chunk)) s = (inr v, s1)).
    { unfold call. destruct (Hembed (JStr chunk) (ext s)) as (v & w & ->).
      eexists _, _. reflexivity. }
    destruct E1 as (v & s1 & E1). rewrite (bind_step _ _ _ _ _ E1).
    destruct (now s1) as [t s2] eqn:E2.
    destruct (now_inv _ _ _ E2) as (n & -> & _).
    rewrite (bind_step _ _ _ _ _ E2).
    assert (E3 : exists src s3,
               (if Json.truthy label then ret (default JNull label)
                else t' <- now ;; ret (JStr (record_id prefix t' i))) s2 = (inr src, s3)).
    { destruct (Json.truthy label).
      - eexists _, _. reflexivity.
      - destruct (now s2) as [t' s3] eqn:E3.
        destruct (now_inv _ _ _ E3) as (n' & -> & _).
        rewrite (bind_step _ _ _ _ _ E3). eexists _, _. reflexivity. }
    destruct E3 as (src & s3 & E3). rewrite (bind_step _ _ _ _ _ E3).
    destruct (IH (S i) s3) as (recs & s' & E4).
    rewrite (bind_step _ _ _ _ _ E4). eexists _, _. reflexivity.
Qed.

(** When the index never refuses the loop ends normally. *)
Lemma upsert_loop_succeeds (records : list (record vector)) :
  (forall b w, exists w', index_upsert b w = (inr tt, w')) ->
  forall fuel i s, fst (upsert_loop fuel i records s) = inr tt.
Proof.
  intros Hup. induction fuel as [|fuel IH]; intros i s; simpl; [reflexivity|].
  destruct (Nat.ltb i (length records)); [|reflexivity].
  unfold bind, call.
  destruct (Hup (JS.slice i (i + BATCH_SIZE) records) (ext s)) as (w' & ->).
  apply IH.
Qed.

End Paragraphs.

(** C2.  [POST /knowledge/add] with a string [t] as [text].  A response of
    200 means that exactly one record per paragraph of [t] (per piece
    between blank lines that is not empty after trimming) has been upserted,
    in order, and the body is [success: true] with the message
    ["<count>件のドキュメントが追加されました"] for that count.  A text of white space
    only (the empty text included) leads to no upsert at all.  And the 200 is
    what a non-empty text gets whenever no provider fails. *)
Theorem knowledge_add_one_record_per_paragraph {P : Platform}
    (req_body : json) (t : jsstring) (s s' : state) (resp : response) :
  Json.prop req_body (JS.lit "text") = Some (JStr t) ->
  knowledge_add_post req_body s = (inr resp, s') ->
  (status resp = 200%nat ->
     body resp
     = JObj [(JS.lit "success", JBool true);
             (JS.lit "message",
              JStr (JS.decimal (N.of_nat (length (Spec.paragraphs t)))
                    ++ Text.documents_added))]
     /\ List.map pageContent (concat (upserts (new_events s s'))) = Spec.paragraphs t)
  /\ (Spec.all_space t -> upserts (new_events s s') = [])
  /\ (t <> [] -> pinecone_handle = None ->
      (forall q w, exists v w', embedQuery q w = (inr v, w')) ->
      (forall b w, exists w', index_upsert b w = (inr tt, w')) ->
      status resp = 200%nat).
Proof.
  intros Ht Hrun.
  destruct t as [|c t0].
  { unfold knowledge_add_post in Hrun. rewrite Ht in Hrun. simpl in Hrun.
    injection Hrun as <- <-. split; [|split].
    - simpl. discriminate.
    - intros _. unfold new_events. rewrite drop_all. reflexivity.
    - intros H. contradiction. }
  set (t := c :: t0) in *.
  rewrite (knowledge_add_run req_body t s Ht) in Hrun by discriminate.
  destruct pinecone_handle as [e|] eqn:Hh.
  { injection Hrun as <- <-. split; [|split].
    - simpl. discriminate.
    - intros _. unfold new_events. rewrite drop_all. reflexivity.
    - intros _ H. discriminate. }
  set (label := Json.prop req_body (JS.lit "source")) in *.
  set (chunks := JS.split (JS.match_sep JS.blank_line) t) in *.
  destruct (build_records_quiet (JS.lit "manual") label chunks 0 s) as (evs & Ha & Hq).
  destruct (build_records (JS.lit "manual") label 0 chunks s) as [[e|records] s1] eqn:Hb.
  { injection Hrun as <- <-. simpl in Ha. split; [|split].
    - simpl. discriminate.
    - intros _. rewrite (new_events_advance _ _ _ Ha). exact Hq.
    - intros _ _ Hembed _.
      destruct (build_records_succeeds (JS.lit "manual") label Hembed chunks 0 s)
        as (r & s0 & E). rewrite E in Hb. discriminate. }
  simpl in Ha.
  destruct (build_records_inv _ _ _ _ _ _ _ Hb) as (_ & _ & _ & _ & Hc & _).
  change (List.map pageContent records = Spec.paragraphs t) in Hc.
  destruct (upsert_loop_spec records (length records) 0 s1) as (issued & Ha2 & _ & Hres);
    [lia|].
  fold (upsert_batches records) in Ha2, Hres.
  assert (Hev : upserts (new_events s (snd (upsert_batches records s1))) = issued).
  { rewrite (new_events_advance _ _ _ (advance_trans _ _ _ _ _ Ha Ha2)).
    rewrite upserts_app, Hq, upserts_map_Upsert. reflexivity. }
  destruct (upsert_batches records s1) as [[e|u] s2] eqn:Hu;
    injection Hrun as <- <-; simpl in Hev, Hres; rewrite Hev.
  - split; [|split].
    + simpl. discriminate.
    + intros Hsp. rewrite (paragraphs_of_blank t Hsp) in Hc.
      destruct records; [|discriminate].
      unfold upsert_batches in Hu. simpl in Hu. discriminate.
    + intros _ _ _ Hup.
      pose proof (upsert_loop_succeeds records Hup (length records) 0 s1) as E.
      fold (upsert_batches records) in E. rewrite Hu in E. discriminate.
  - split; [|split].
    + intros _. rewrite Hres, drop_0. split; [|exact Hc].
      unfold ok, added_body. simpl. rewrite <- Hc, length_map. reflexivity.
    + intros Hsp. rewrite (paragraphs_of_blank t Hsp) in Hc.
      destruct records; [|discriminate].
      unfold upsert_batches in Hu. simpl in Hu. injection Hu as _ <-.
      destruct issued as [|b issued]; [reflexivity|]. exfalso.
      unfold advance in Ha2. simpl in Ha2.
      apply (f_equal length) in Ha2. rewrite length_app in Ha2. simpl in Ha2. lia.
    + reflexivity.
Qed.

(** The scenario of the specification: ["A\n\nB\n\n"] gives two records and
    ["2件のドキュメントが追加されました"]. *)
Lemma knowledge_add_one_record_per_paragraph_witness :
  status (Mock.value (json_error 0 [])
            (fst (@knowledge_add_post (Mock.platform true true None 1 [])
                    (Mock.add_body (Mock.scenario_text) (JS.lit "x"))
                    (Mock.start (Mock.platform true true None 1 []) (1700, 0%nat) ∅))))
  = 200%nat
  /\ body (Mock.value (json_error 0 [])
            (fst (@knowledge_add_post (Mock.platform true true None 1 [])
                    (Mock.add_body (Mock.scenario_text) (JS.lit "x"))
                    (Mock.start (Mock.platform true true None 1 []) (1700, 0%nat) ∅))))
     = JObj [(JS.lit "success", JBool true);
             (JS.lit "message", JStr (JS.lit "2" ++ Text.documents_added))]
  /\ List.map pageContent
       (concat (@upserts (Mock.platform true true None 1 [])
          (trace (snd (@knowledge_add_post (Mock.platform true true None 1 [])
                    (Mock.add_body (Mock.scenario_text) (JS.lit "x"))
                    (Mock.start (Mock.platform true true None 1 []) (1700, 0%nat) ∅))))))
     = [JS.lit "A"; JS.lit "B"].
Proof.
  pose (P := Mock.platform true true None 1 []).
  pose (s0 := Mock.start P (1700, 0%nat) ∅).
  pose (run := @knowledge_add_post P (Mock.add_body (Mock.scenario_text) (JS.lit "x")) s0).
  destruct (@knowledge_add_one_record_per_paragraph P
              (Mock.add_body (Mock.scenario_text) (JS.lit "x"))
              (Mock.scenario_text) s0 (snd run)
              (Mock.value (json_error 0 []) (fst run)))
    as (Hok & _ & Hgo).
  - reflexivity.
  - vm_compute. reflexivity.
  - assert (H200 : status (Mock.value (json_error 0 []) (fst run)) = 200%nat).
    { apply Hgo.
      - discriminate.
      - reflexivity.
      - intros q w. eexists _, _. reflexivity.
      - intros b w. eexists. reflexivity. }
    destruct (Hok H200) as [Hbody Hrecs].
    split; [exact H200|]. split.
    + fold P. fold s0. fold run. rewrite Hbody. vm_compute. reflexivity.
    + vm_compute. reflexivity.
Defined.

(** ** Record ids *)

Section Ids.
Import JS.

Lemma lit_inj (a b : string) : lit a = lit b -> a = b.
Proof.
  unfold lit. intros H.
  rewrite <- (string_of_list_ascii_of_string a), <- (string_of_list_ascii_of_string b).
  f_equal. revert H.
  generalize (list_ascii_of_string a) (list_ascii_of_string b).
  induction l as [|x l IH]; intros [|y l'] H; simpl in H; try discriminate; [reflexivity|].
  injection H as Hxy Hl. f_equal; [|apply IH; exact Hl].
  rewrite <- (ascii_N_embedding x), <- (ascii_N_embedding y), Hxy. reflexivity.
Qed.

Lemma decimal_inj (n n' : N) : decimal n = decimal n' -> n = n'.
Proof.
  unfold decimal. intros H. apply lit_inj in H.
  apply DecimalN.Unsigned.to_uint_inj.
  assert (Hnn : forall m, N.to_uint m <> Decimal.Nil).
  { intros [|p]; [discriminate|apply DecimalPos.Unsigned.to_uint_nonnil]. }
  pose proof (NilZero.usu _ (Hnn n)) as E1.
  pose proof (NilZero.usu _ (Hnn n')) as E2.
  rewrite H in E1. rewrite E1 in E2. injection E2 as E2. exact E2.
Qed.

Lemma nilempty_digits (d : Decimal.uint) :
  Spec.all_digits (lit (NilEmpty.string_of_uint d)).
Proof.
  unfold Spec.all_digits. induction d; simpl; constructor;
    first [reflexivity | assumption].
Qed.

Lemma decimal_digits (n : N) : Spec.all_digits (decimal n).
Proof.
  unfold decimal, NilZero.string_of_uint.
  destruct (N.to_uint n) eqn:E; try (rewrite <- E; apply nilempty_digits).
  repeat constructor.
Qed.

Lemma digits_no_dash (s : jsstring) : Spec.all_digits s -> ~ In 45 s.
Proof.
  intros H Hin. unfold Spec.all_digits in H.
  apply (proj1 (List.Forall_forall _ _) H) in Hin. discriminate.
Qed.

Lemma cut_at_first {A} (x : A) (a a' b b' : list A) :
  a ++ x :: b = a' ++ x :: b' -> ~ In x a -> ~ In x a' -> a = a' /\ b = b'.
Proof.
  revert a'. induction a as [|y a IH]; intros [|y' a'] H Ha Ha'; simpl in *.
  - injection H as ->. split; reflexivity.
  - injection H as <- _. exfalso. apply Ha'. left. reflexivity.
  - injection H as -> _. exfalso. apply Ha. left. reflexivity.
  - injection H as <- H. destruct (IH a' H) as [-> ->]; [tauto|tauto|].
    split; reflexivity.
Qed.

(** An id tells the clock reading and the position it was made of. *)
Lemma record_id_inj (prefix : jsstring) (t t' : N) (i i' : nat) :
  record_id prefix t i = record_id prefix t' i' -> t = t' /\ i = i'.
Proof.
  unfold record_id. intros H.
  apply app_inv_head in H. change (lit "-") with [45] in H. simpl in H.
  injection H as H.
  apply cut_at_first in H as [Ht Hi];
    try (apply digits_no_dash, decimal_digits).
  split; [exact (decimal_inj _ _ Ht)|].
  apply decimal_inj in Hi. lia.
Qed.

Lemma sorted_stamps_NoDup (prefix : jsstring) (stamps : list (N * nat)) :
  StronglySorted lt (List.map snd stamps) ->
  List.NoDup (List.map (stamped prefix) stamps).
Proof.
  induction stamps as [|st stamps IH]; simpl; intros H; [constructor|].
  inversion H as [|? ? Hs Hall]; subst.
  constructor; [|apply IH; exact Hs].
  intros Hin. apply List.in_map_iff in Hin as (st' & Heq & Hin).
  apply record_id_inj in Heq as [_ Heq].
  rewrite List.Forall_forall in Hall.
  specialize (Hall (snd st')). 
  assert (Hlt : (snd st < snd st')%nat).
  { apply Hall. apply List.in_map. exact Hin. }
  lia.
Qed.

End Ids.

Section UpsertedIds.
Context {P : Platform}.

(** However the loop ends, what it has upserted is a prefix of the records
    from index [i] on. *)
Lemma upsert_loop_prefix (records : list (record vector)) :
  forall fuel i s, exists issued k,
    advance s (snd (upsert_loop fuel i records s)) (List.map Upsert issued)
    /\ concat issued = take k (drop i records).
Proof.
  induction fuel as [|fuel IH]; intros i s; simpl.
  - exists [], 0%nat. split; [apply advance_refl|reflexivity].
  - destruct (Nat.ltb i (length records)).
    + rewrite slice_take_drop. set (batch := take BATCH_SIZE (drop i records)).
      unfold bind.
      pose proof (call_advance (Upsert batch) (index_upsert batch) s) as (A1 & _).
      destruct (call (Upsert batch) (index_upsert batch) s) as [[e|u] s1]; simpl in A1.
      * exists [batch], BATCH_SIZE. split; [exact A1|]. simpl. apply app_nil_r.
      * destruct (IH (i + BATCH_SIZE)%nat s1) as (issued & k & A2 & Hc).
        exists (batch :: issued), (BATCH_SIZE + k)%nat. split.
        -- exact (advance_trans _ _ _ _ _ A1 A2).
        -- simpl. rewrite Hc. unfold batch.
           rewrite <- (drop_drop records), take_take_drop. reflexivity.
    + exists [], 0%nat. split; [apply advance_refl|reflexivity].
Qed.

Lemma sorted_take (l : list nat) (k : nat) :
  StronglySorted lt l -> StronglySorted lt (take k l).
Proof.
  revert k. induction l as [|x l IH]; intros [|k] H; simpl; try constructor.
  - apply IH. inversion H; assumption.
  - inversion H; subst. apply Forall_take. assumption.
Qed.

(** The ids [POST /knowledge/add] has upserted: ["manual"], a clock reading
    of this very request, and the index of the chunk, the indices
    increasing. *)
Lemma knowledge_add_ids (req_body : json) (t : jsstring) (s s' : state)
    (resp : response) :
  Json.prop req_body (JS.lit "text") = Some (JStr t) ->
  knowledge_add_post req_body s = (inr resp, s') ->
  exists stamps,
    List.map id (concat (upserts (new_events s s')))
    = List.map (stamped (JS.lit "manual")) stamps
    /\ Forall (fun st => In (fst st) (clock_readings (new_events s s'))) stamps
    /\ StronglySorted lt (List.map snd stamps).
Proof.
  intros Ht Hrun.
  assert (Hnone : upserts (new_events s s') = [] ->
    exists stamps,
      List.map id (concat (upserts (new_events s s')))
      = List.map (stamped (JS.lit "manual")) stamps
      /\ Forall (fun st => In (fst st) (clock_readings (new_events s s'))) stamps
      /\ StronglySorted lt (List.map snd stamps)).
  { intros ->. exists []. repeat split; constructor. }
  destruct t as [|c t0].
  { unfold knowledge_add_post in Hrun. rewrite Ht in Hrun. simpl in Hrun.
    injection Hrun as <- <-. apply Hnone. unfold new_events.
    rewrite drop_all. reflexivity. }
  rewrite (knowledge_add_run req_body (c :: t0) s Ht) in Hrun by discriminate.
  destruct pinecone_handle as [e|].
  { injection Hrun as <- <-. apply Hnone. unfold new_events.
    rewrite drop_all. reflexivity. }
  set (label := Json.prop req_body (JS.lit "source")) in *.
  set (chunks := JS.split (JS.match_sep JS.blank_line) (c :: t0)) in *.
  destruct (build_records_quiet (JS.lit "manual") label chunks 0 s) as (evs0 & Ha0 & Hq0).
  destruct (build_records (JS.lit "manual") label 0 chunks s) as [[e|records] s1] eqn:Hb.
  { injection Hrun as <- <-. apply Hnone. simpl in Ha0.
    rewrite (new_events_advance _ _ _ Ha0). exact Hq0. }
  clear Hnone Ha0 Hq0 evs0.
  destruct (build_records_inv _ _ _ _ _ _ _ Hb)
    as (evs & stamps & Ha & Hq & _ & Hid & Hst & Hsort).
  destruct (upsert_loop_prefix records (length records) 0 s1) as (issued & k & Ha2 & Hpre).
  fold (upsert_batches records) in Ha2.
  assert (Hs2 : s' = snd (upsert_batches records s1)).
  { destruct (upsert_batches records s1) as [[e|u] s2]; injection Hrun as _ <-; reflexivity. }
  rewrite <- Hs2 in Ha2.
  pose proof (new_events_advance _ _ _ (advance_trans _ _ _ _ _ Ha Ha2)) as Hev.
  rewrite Hev, upserts_app, Hq, upserts_map_Upsert. simpl.
  rewrite Hpre, drop_0.
  exists (take k stamps). split; [|split].
  - rewrite <- !firstn_map, Hid. reflexivity.
  - apply Forall_take. eapply Forall_impl; [exact Hst|].
    simpl. intros st [Hin _]. rewrite clock_readings_app.
    apply in_or_app. left. exact Hin.
  - rewrite <- firstn_map. apply sorted_take. exact Hsort.
Qed.

End UpsertedIds.

Section Positions.
Context {P : Platform}.

Lemma kept_positions_cons (c : jsstring) (chunks : list jsstring) :
  Spec.kept_positions (c :: chunks)
  = (if JS.blank c then [] else [0%nat]) ++ List.map S (Spec.kept_positions chunks).
Proof.
  unfold Spec.kept_positions. cbn [length seq List.filter lookup list_lookup].
  rewrite <- seq_shift.
  assert (H : forall l : list nat,
    List.filter (fun i => match (c :: chunks) !! i with
                          | Some c0 => negb (JS.blank c0)
                          | None => false
                          end) (List.map S l)
    = List.map S (List.filter (fun i => match chunks !! i with
                                        | Some c0 => negb (JS.blank c0)
                                        | None => false
                                        end) l)).
  { induction l as [|j l IH]; [reflexivity|]. cbn [List.map List.filter].
    change ((c :: chunks) !! S j) with (chunks !! j).
    destruct (chunks !! j) as [c0|]; [destruct (negb (JS.blank c0))|]; cbn [List.map];
      rewrite IH; reflexivity. }
  rewrite H. destruct (JS.blank c); reflexivity.
Qed.

(** The chunks at the kept positions are the chunks that are not blank. *)
Lemma kept_positions_chunks (chunks : list jsstring) :
  List.map (fun i => chunks !! i) (Spec.kept_positions chunks)
  = List.map Some (List.filter (fun c => negb (JS.blank c)) chunks).
Proof.
  induction chunks as [|c chunks IH]; [reflexivity|].
  rewrite kept_positions_cons, List.map_app, List.map_map.
  cbn [List.filter]. change (fun x => (c :: chunks) !! S x) with (fun x => chunks !! x).
  rewrite IH. destruct (JS.blank c); reflexivity.
Qed.

(** The index in the id of a record is the position of its chunk among all
    the chunks, blank ones counted. *)
Lemma build_records_positions prefix label :
  forall chunks i s recs s',
    build_records prefix label i chunks s = (inr recs, s') ->
    exists stamps,
      List.map id recs = List.map (stamped prefix) stamps
      /\ List.map snd stamps = List.map (Nat.add i) (Spec.kept_positions chunks).
Proof.
  induction chunks as [|chunk rest IH]; intros i s recs s' H; simpl in H.
  - injection H as <- <-. exists []. split; reflexivity.
  - rewrite kept_positions_cons, List.map_app, List.map_map.
    destruct (JS.blank chunk) eqn:Hb.
    + destruct (IH _ _ _ _ H) as (stamps & Hid & Hpos).
      exists stamps. split; [exact Hid|]. rewrite Hpos. cbn [List.map app].
      apply List.map_ext. intros j. lia.
    + apply bind_inr in H as (v & sa & _ & H).
      apply bind_inr in H as (t & sb & _ & H).
      apply bind_inr in H as (src & sc & _ & H).
      apply bind_inr in H as (recs' & sd & H4 & H).
      injection H as <- <-.
      destruct (IH _ _ _ _ H4) as (stamps & Hid & Hpos).
      exists ((t, i) :: stamps). cbn [List.map app id snd]. split.
      * rewrite Hid. reflexivity.
      * rewrite Hpos. rewrite Nat.add_0_r. f_equal.
        apply List.map_ext. intros j. lia.
Qed.

Lemma stamped_map_inj (prefix : jsstring) (a b : list (N * nat)) :
  List.map (stamped prefix) a = List.map (stamped prefix) b -> a = b.
Proof.
  revert b. induction a as [|x a IH]; intros [|y b] H; try discriminate; [reflexivity|].
  cbn [List.map] in H. injection H as E Hab.
  unfold stamped in E. apply record_id_inj in E as [E1 E2].
  rewrite (IH b); [|exact Hab]. f_equal.
  destruct x, y. cbn [fst snd] in *. congruence.
Qed.

(** The records [POST /knowledge/add] has upserted, id by id: the stamps are
    a clock reading of this request and the position of the chunk; the
    positions are those of the chunks that are not blank, in order, a
    prefix of them when an upsert failed and all of them on a 200. *)
Lemma knowledge_add_stamps (req_body : json) (t : jsstring) (s s' : state)
    (resp : response) :
  Json.prop req_body (JS.lit "text") = Some (JStr t) ->
  knowledge_add_post req_body s = (inr resp, s') ->
  exists stamps k,
    List.map id (concat (upserts (new_events s s')))
    = List.map (stamped (JS.lit "manual")) stamps
    /\ Forall (fun st => In (fst st) (clock_readings (new_events s s'))) stamps
    /\ List.map snd stamps
       = take k (Spec.kept_positions (JS.split (JS.match_sep JS.blank_line) t))
    /\ List.map (fun st => JS.split (JS.match_sep JS.blank_line) t !! snd st) stamps
       = List.map (fun r => Some (pageContent r)) (concat (upserts (new_events s s')))
    /\ (status resp = 200%nat ->
        List.map snd stamps
        = Spec.kept_positions (JS.split (JS.match_sep JS.blank_line) t)).
Proof.
  intros Ht Hrun.
  set (chunks := JS.split (JS.match_sep JS.blank_line) t).
  assert (Hnone : upserts (new_events s s') = [] -> status resp <> 200%nat ->
    exists stamps k,
      List.map id (concat (upserts (new_events s s')))
      = List.map (stamped (JS.lit "manual")) stamps
      /\ Forall (fun st => In (fst st) (clock_readings (new_events s s'))) stamps
      /\ List.map snd stamps = take k (Spec.kept_positions chunks)
      /\ List.map (fun st => chunks !! snd st) stamps
         = List.map (fun r => Some (pageContent r)) (concat (upserts (new_events s s')))
      /\ (status resp = 200%nat -> List.map snd stamps = Spec.kept_positions chunks)).
  { intros -> Hst. exists [], 0%nat. repeat split; try constructor.
    intros H. contradiction. }
  destruct t as [|c t0].
  { unfold knowledge_add_post in Hrun. rewrite Ht in Hrun. simpl in Hrun.
    injection Hrun as <- <-. apply Hnone; [|discriminate].
    unfold new_events. rewrite drop_all. reflexivity. }
  rewrite (knowledge_add_run req_body (c :: t0) s Ht) in Hrun by discriminate.
  destruct pinecone_handle as [e|].
  { injection Hrun as <- <-. apply Hnone.
    - unfold new_events. rewrite drop_all. reflexivity.
    - destruct (internal_error_carries_message e) as [-> _]. discriminate. }
  set (label := Json.prop req_body (JS.lit "source")) in *.
  fold chunks in Hrun.
  destruct (build_records_quiet (JS.lit "manual") label chunks 0 s) as (evs0 & Ha0 & Hq0).
  destruct (build_records (JS.lit "manual") label 0 chunks s) as [[e|records] s1] eqn:Hb.
  { injection Hrun as <- <-. apply Hnone.
    - simpl in Ha0. rewrite (new_events_advance _ _ _ Ha0). exact Hq0.
    - destruct (internal_error_carries_message e) as [-> _]. discriminate. }
  clear Hnone Ha0 Hq0 evs0.
  destruct (build_records_inv _ _ _ _ _ _ _ Hb)
    as (evs & stamps & Ha & Hq & Hpc & Hid & Hst & Hsort).
  destruct (build_records_positions _ _ _ _ _ _ _ Hb) as (stamps' & Hid' & Hpos).
  assert (stamps' = stamps) as ->.
  { apply (stamped_map_inj (JS.lit "manual")). congruence. }
  assert (Hpos0 : List.map snd stamps = Spec.kept_positions chunks).
  { rewrite Hpos. rewrite <- (List.map_id (Spec.kept_positions chunks)) at 2.
    apply List.map_ext. intros j. reflexivity. }
  destruct (upsert_loop_prefix records (length records) 0 s1) as (issued & k & Ha2 & Hpre).
  fold (upsert_batches records) in Ha2.
  destruct (upsert_loop_spec records (length records) 0 s1)
    as (issued' & Ha2' & _ & Hres); [lia|].
  fold (upsert_batches records) in Ha2', Hres.
  assert (issued' = issued) as ->.
  { unfold advance in Ha2, Ha2'. rewrite Ha2 in Ha2'. apply app_inv_head in Ha2'.
    clear -Ha2'. revert issued' Ha2'.
    induction issued as [|b l IH]; intros [|b' l'] H; try discriminate; [reflexivity|].
    cbn in H. injection H as -> H. f_equal. exact (IH _ H). }
  assert (Hs2 : s' = snd (upsert_batches records s1)).
  { destruct (upsert_batches records s1) as [[e|u] s2]; injection Hrun as _ <-; reflexivity. }
  rewrite <- Hs2 in Ha2.
  pose proof (new_events_advance _ _ _ (advance_trans _ _ _ _ _ Ha Ha2)) as Hev.
  rewrite Hev, upserts_app, Hq, upserts_map_Upsert. cbn [app].
  rewrite Hpre, drop_0.
  exists (take k stamps), k. split; [|split; [|split; [|split]]].
  - rewrite <- !firstn_map, Hid. reflexivity.
  - apply Forall_take. eapply Forall_impl; [exact Hst|].
    simpl. intros st [Hin _]. rewrite clock_readings_app.
    apply in_or_app. left. exact Hin.
  - rewrite <- firstn_map, Hpos0. reflexivity.
  - rewrite <- !firstn_map. f_equal.
    rewrite <- (List.map_map snd (fun i => chunks !! i)), Hpos0, kept_positions_chunks.
    rewrite <- Hpc, List.map_map. reflexivity.
  - intros H200.
    destruct (upsert_batches records s1) as [[e|u] s2] eqn:Hu.
    + injection Hrun as <- _.
      destruct (internal_error_carries_message e) as [H500 _]. congruence.
    + cbn [fst] in Hres. rewrite drop_0 in Hres. rewrite Hres in Hpre.
      rewrite <- firstn_map, Hpos0.
      assert (Hk : (length records <= k)%nat).
      { apply (f_equal length) in Hpre. rewrite length_take in Hpre. lia. }
      apply take_ge. rewrite <- Hpos0, length_map.
      rewrite <- (length_map id), Hid, length_map in Hk. exact Hk.
Qed.

End Positions.

(** C6, as stated, fails.  Two ingestions of the text ["A"], labelled ["x"]
    and ["y"], one after the other while [Date.now()] stays at 1700: both records get the id
    ["manual-1700-0"], so the second upsert overwrites the first.  The label
    is kept in the metadata only. *)
Lemma ingestion_ids_collide_within_one_millisecond :
  List.map (fun r => (id r, source r))
    (concat (@upserts (Mock.platform true true None 0 [])
       (trace (snd
          (@knowledge_add_post (Mock.platform true true None 0 [])
             (Mock.add_body (JS.lit "A") (JS.lit "y"))
             (snd (@knowledge_add_post (Mock.platform true true None 0 [])
                     (Mock.add_body (JS.lit "A") (JS.lit "x"))
                     (Mock.start (Mock.platform true true None 0 [])
                        (1700, 0%nat) ∅))))))))
  = [(JS.lit "manual-1700-0", JStr (JS.lit "x"));
     (JS.lit "manual-1700-0", JStr (JS.lit "y"))].
Proof. vm_compute. reflexivity. Qed.

(** C6, amended.  The ids [POST /knowledge/add] upserts are
    ["manual-<Date.now()>-<index of the chunk>"]; the source label is no
    part of them.  Within one ingestion no two ids are equal.  An id of one
    ingestion equals an id of another only if [Date.now()] gave one and the
    same value to both: two ingestions whose clock readings differ never
    collide, whatever their texts and labels.  The last part states the form
    of the ids record by record: the upserted records carry, in order, the
    ids made of a clock reading of the request and of the position of the
    record's chunk among all the chunks of the text, the blank ones counted;
    these positions are the positions of the chunks that are not blank, in
    order, all of them when the response is a 200 and the first [k] of them
    when an upsert failed; and the chunk at the position in a record's id is
    the content of that record. *)
Theorem ingestion_ids_collide_only_on_equal_clock {P : Platform}
    (req1 req2 : json) (t1 t2 : jsstring) (s1 s1' s2 s2' : state)
    (resp1 resp2 : response) :
  Json.prop req1 (JS.lit "text") = Some (JStr t1) ->
  Json.prop req2 (JS.lit "text") = Some (JStr t2) ->
  knowledge_add_post req1 s1 = (inr resp1, s1') ->
  knowledge_add_post req2 s2 = (inr resp2, s2') ->
  List.NoDup (List.map id (concat (upserts (new_events s1 s1'))))
  /\ List.NoDup (List.map id (concat (upserts (new_events s2 s2'))))
  /\ (forall x,
        In x (List.map id (concat (upserts (new_events s1 s1')))) ->
        In x (List.map id (concat (upserts (new_events s2 s2')))) ->
        exists t, In t (clock_readings (new_events s1 s1'))
                  /\ In t (clock_readings (new_events s2 s2')))
  /\ (forall x,
        In x (List.map id (concat (upserts (new_events s1 s1')))) ->
        exists t i,
          In t (clock_readings (new_events s1 s1'))
          /\ x = JS.lit "manual" ++ JS.lit "-" ++ JS.decimal t ++ JS.lit "-"
                 ++ JS.decimal (N.of_nat i))
  /\ (exists (stamps : list (N * nat)) (k : nat),
        List.map id (concat (upserts (new_events s1 s1')))
        = List.map (fun st => JS.lit "manual" ++ JS.lit "-" ++ JS.decimal (fst st)
                              ++ JS.lit "-" ++ JS.decimal (N.of_nat (snd st))) stamps
        /\ Forall (fun st => In (fst st) (clock_readings (new_events s1 s1'))) stamps
        /\ List.map snd stamps
           = take k (Spec.kept_positions (JS.split (JS.match_sep JS.blank_line) t1))
        /\ List.map (fun st => JS.split (JS.match_sep JS.blank_line) t1 !! snd st) stamps
           = List.map (fun r => Some (pageContent r))
               (concat (upserts (new_events s1 s1')))
        /\ (status resp1 = 200%nat ->
            List.map snd stamps
            = Spec.kept_positions (JS.split (JS.match_sep JS.blank_line) t1))).
Proof.
  intros Ht1 Ht2 Hrun1 Hrun2.
  split; [|split; [|split; [|split]]];
    [| | | |exact (knowledge_add_stamps _ _ _ _ _ Ht1 Hrun1)].
  all: destruct (knowledge_add_ids _ _ _ _ _ Ht1 Hrun1) as (st1 & Hid1 & Hc1 & Hs1).
  all: destruct (knowledge_add_ids _ _ _ _ _ Ht2 Hrun2) as (st2 & Hid2 & Hc2 & Hs2).
  all: rewrite ?Hid1, ?Hid2.
  1: apply sorted_stamps_NoDup; exact Hs1.
  1: apply sorted_stamps_NoDup; exact Hs2.
  - intros x Hx1 Hx2.
    apply List.in_map_iff in Hx1 as (a & <- & Ha).
    apply List.in_map_iff in Hx2 as (b & Heq & Hb).
    apply record_id_inj in Heq as [Heq _].
    exists (fst a). split.
    + exact (proj1 (List.Forall_forall _ _) Hc1 a Ha).
    + rewrite <- Heq. exact (proj1 (List.Forall_forall _ _) Hc2 b Hb).
  - intros x Hx. apply List.in_map_iff in Hx as (a & <- & Ha).
    exists (fst a), (snd a). split; [|reflexivity].
    exact (proj1 (List.Forall_forall _ _) Hc1 a Ha).
Qed.

(** A text that opens with a blank line, so that its first chunk is blank,
    ingested twice, labelled ["x"] and then ["y"], on a clock that moves on
    by one millisecond at each reading: no id occurs twice, and the indices
    in the ids are 1 and 2, the blank chunk counted. *)
Lemma ingestion_ids_collide_only_on_equal_clock_witness :
  List.NoDup
    (List.map id
       (concat (@upserts (Mock.platform true true None 1 [])
          (@new_events (Mock.platform true true None 1 [])
             (Mock.start (Mock.platform true true None 1 []) (1700, 0%nat) ∅)
             (snd (@knowledge_add_post (Mock.platform true true None 1 [])
                (Mock.add_body Mock.indented_text (JS.lit "x"))
                (Mock.start (Mock.platform true true None 1 []) (1700, 0%nat) ∅)))))))
  /\ List.map id
       (concat (@upserts (Mock.platform true true None 1 [])
          (trace (snd
             (@knowledge_add_post (Mock.platform true true None 1 [])
                (Mock.add_body Mock.indented_text (JS.lit "y"))
                (snd (@knowledge_add_post (Mock.platform true true None 1 [])
                   (Mock.add_body Mock.indented_text (JS.lit "x"))
                   (Mock.start (Mock.platform true true None 1 [])
                      (1700, 0%nat) ∅))))))))
     = [JS.lit "manual-1700-1"; JS.lit "manual-1701-2";
        JS.lit "manual-1702-1"; JS.lit "manual-1703-2"].
Proof.
  pose (P := Mock.platform true true None 1 []).
  pose (s0 := Mock.start P (1700, 0%nat) ∅).
  pose (run1 := @knowledge_add_post P (Mock.add_body Mock.indented_text (JS.lit "x")) s0).
  pose (run2 := @knowledge_add_post P (Mock.add_body Mock.indented_text (JS.lit "y"))
                  (snd run1)).
  destruct (@ingestion_ids_collide_only_on_equal_clock P
              (Mock.add_body Mock.indented_text (JS.lit "x"))
              (Mock.add_body Mock.indented_text (JS.lit "y"))
              Mock.indented_text Mock.indented_text
              s0 (snd run1) (snd run1) (snd run2)
              (Mock.value (json_error 0 []) (fst run1))
              (Mock.value (json_error 0 []) (fst run2)))
    as (Hnd & _).
  - reflexivity.
  - reflexivity.
  - vm_compute. reflexivity.
  - vm_compute. reflexivity.
  - split; [exact Hnd|vm_compute; reflexivity].
Defined.

(** ** The coaching handler, step by step *)

Section Coaching.
Context {P : Platform}.

Lemma getInstance_total (s : state) :
  exists a s1, getInstance s = (inr a, s1).
Proof.
  unfold getInstance. destruct (instance s) as [a|]; eexists _, _; reflexivity.
Qed.

(** [POST /coaching] with a non-empty array whose messages render: one call
    to [ask] with the prompt around the rendered transcript; its answer is
    parsed into the suggestions, its failure becomes the 500. *)
Lemma coaching_run (req_body : json) (x : json) (items : list json)
    (lines : list jsstring) (s : state) (a : agent) (s1 : state) :
  Json.prop req_body (JS.lit "conversation") = Some (JArr (x :: items)) ->
  map_result render_message (x :: items) = inr lines ->
  getInstance s = (inr a, s1) ->
  coaching_post req_body s =
    match ask a (JStr (coaching_prompt (JS.join JS.blank_line lines))) s1 with
    | (inr answer, s2) => (inr (ok (suggestions_body (parse_suggestions answer))), s2)
    | (inl e, s2) => (inr (internal_error e), s2)
    end.
Proof.
  intros Hc Hl Hg. unfold coaching_post. rewrite Hc.
  change (rejected_conversation (Some (JArr (x :: items)))) with false. cbv iota.
  unfold array_items. rewrite Hl.
  unfold try_catch, bind at 1, lift. unfold bind at 1. rewrite Hg.
  unfold bind.
  destruct (ask a _ s1) as [[e|answer] s2]; reflexivity.
Qed.

(** The messages of the specification render as its lines. *)
Lemma render_messages (conversation : list Spec.message) :
  map_result render_message (List.map Spec.to_json conversation)
  = inr (List.map Spec.line conversation).
Proof.
  induction conversation as [|m l IH]; [reflexivity|].
  cbn [List.map map_result]. rewrite IH.
  destruct m as [sp tx]. reflexivity.
Qed.

End Coaching.

(** ** Bucketing loses nothing *)

Section Bucketing.
Context {P : Platform}.
Import Client.

Lemma slice_from_drop {A} (n : nat) (l : list A) : JS.slice_from n l = drop n l.
Proof.
  unfold JS.slice_from, JS.slice. rewrite Nat.min_id.
  destruct (Nat.le_gt_cases n (length l)) as [H|H].
  - rewrite Nat.min_l by lia. apply take_ge. rewrite length_drop. lia.
  - rewrite Nat.min_r by lia. rewrite Nat.sub_diag, drop_all.
    rewrite drop_ge by lia. reflexivity.
Qed.

(** The three slices of the positional split are the list, cut in three. *)
Lemma thirds_partition {A} (third : nat) (l : list A) :
  JS.slice 0 third l ++ JS.slice third (third * 2) l ++ JS.slice_from (third * 2) l = l.
Proof.
  rewrite slice_from_drop.
  replace (third * 2)%nat with (third + third)%nat by lia.
  rewrite (slice_take_drop third third l).
  change (JS.slice 0 third l) with (JS.slice 0 (0 + third) l).
  rewrite (slice_take_drop 0 third l), drop_0.
  rewrite app_assoc, take_take_drop. apply take_drop.
Qed.

Lemma includes_any_string (kws : list jsstring) (x : jsstring) :
  exists b, includes_any kws (JStr x) = inr b.
Proof.
  induction kws as [|kw kws IH]; simpl; [eexists; reflexivity|].
  destruct (JS.includes kw x); [eexists; reflexivity|exact IH].
Qed.

(** The keyword pass puts every string into exactly one of the lists. *)
Lemma for_each_strings (ss : list jsstring) :
  forall r, exists r',
    for_each (List.map JStr ss) r = inr r'
    /\ Permutation (questions r' ++ nextSteps r' ++ tips r')
                   ((questions r ++ nextSteps r ++ tips r) ++ List.map JStr ss).
Proof.
  induction ss as [|x ss IH]; intros r; simpl.
  - exists r. split; [reflexivity|]. rewrite app_nil_r. reflexivity.
  - unfold push_suggestion.
    destruct (includes_any_string [Text.kw_question; Text.kw_listen; Text.kw_hearing] x)
      as [[|] ->].
    + match goal with |- context [for_each _ ?r0] => destruct (IH r0) as (r' & -> & Hp) end.
      exists r'. split; [reflexivity|]. rewrite Hp. simpl.
      rewrite (Permutation_app_comm (questions r) [JStr x]). simpl.
      rewrite <- Permutation_middle, <- !app_assoc. reflexivity.
    + destruct (includes_any_string [Text.kw_next; Text.kw_step; Text.kw_advance] x)
        as [[|] ->].
      * match goal with |- context [for_each _ ?r0] => destruct (IH r0) as (r' & -> & Hp) end.
        exists r'. split; [reflexivity|]. rewrite Hp. simpl.
        rewrite (Permutation_app_comm (nextSteps r) [JStr x]). simpl.
        rewrite <- !app_assoc. simpl. rewrite <- !Permutation_middle.
        rewrite <- !app_assoc. reflexivity.
      * match goal with |- context [for_each _ ?r0] => destruct (IH r0) as (r' & -> & Hp) end.
        exists r'. split; [reflexivity|]. rewrite Hp. simpl.
        rewrite <- !app_assoc. reflexivity.
Qed.

(** [categorize] on strings: it does not throw, and its three lists hold
    the strings it was given, each once. *)
Lemma categorize_strings (ss : list jsstring) :
  exists set,
    categorize (List.map JStr ss) = inr set
    /\ Permutation (questions set ++ nextSteps set ++ tips set) (List.map JStr ss).
Proof.
  unfold categorize.
  destruct (for_each_strings ss empty_set) as (r & -> & Hp). simpl in Hp.
  destruct (Nat.eqb (length (questions r)) 0).
  - eexists. split; [reflexivity|]. simpl. rewrite thirds_partition. reflexivity.
  - exists r. split; [reflexivity|exact Hp].
Qed.

End Bucketing.

Lemma prop_single (k : jsstring) (v : json) : Json.prop (JObj [(k, v)]) k = Some v.
Proof.
  simpl. unfold Json.key_eqb. rewrite bool_decide_eq_true_2; reflexivity.
Qed.

Lemma parse_suggestions_length (answer : jsstring) :
  length (parse_suggestions answer)
  = length (List.filter (fun seg => negb (JS.blank seg)) (JS.split JS.match_marker answer)).
Proof.
  unfold parse_suggestions. rewrite length_map. f_equal.
  apply List.filter_ext. intros seg. apply trim_length_blank.
Qed.

(** C3.  A conversation of at least one message whose messages render, and
    any text [answer] the model returns for it: the three lists
    [getCoachingSuggestions] makes of the response hold, between them,
    exactly the suggestions of the backend, each once; their combined length
    is the number of pieces of [answer], cut at the numeric markers, that
    are not blank.  This holds on the keyword path and on the positional
    fallback alike. *)
Theorem categorization_keeps_every_suggestion {P : Platform}
    (x : json) (items : list json) (lines : list jsstring)
    (s s1 s2 : state) (a : agent) (answer : jsstring) :
  map_result render_message (x :: items) = inr lines ->
  getInstance s = (inr a, s1) ->
  ask a (JStr (coaching_prompt (JS.join JS.blank_line lines))) s1 = (inr answer, s2) ->
  exists set,
    Client.getCoachingSuggestions (x :: items) s = (inr set, s2)
    /\ (length (Client.questions set) + length (Client.nextSteps set)
        + length (Client.tips set))%nat
       = length (List.filter (fun seg => negb (JS.blank seg))
                   (JS.split JS.match_marker answer))
    /\ Permutation
         (Client.questions set ++ Client.nextSteps set ++ Client.tips set)
         (List.map JStr (parse_suggestions answer)).
Proof.
  intros Hl Hg Ha.
  destruct (categorize_strings (parse_suggestions answer)) as (set & Hcat & Hp).
  exists set. split; [|split].
  - unfold Client.getCoachingSuggestions.
    rewrite (coaching_run _ x items lines s a s1 (prop_single _ _) Hl Hg), Ha.
    unfold Client.read_response, ok, suggestions_body.
    cbn [status body Client.response_ok]. simpl Nat.leb. cbn [andb].
    rewrite prop_single, Hcat. reflexivity.
  - rewrite <- parse_suggestions_length.
    apply Permutation_length in Hp.
    rewrite !length_app, length_map in Hp. lia.
  - exact Hp.
Qed.

(** One message, and the answer ["intro 1. a 2. b 3. c"], which holds none
    of the keywords: the fallback splits the four suggestions 2, 2, 0. *)
Lemma categorization_keeps_every_suggestion_witness :
  match fst (@Client.getCoachingSuggestions
               (Mock.platform true true None 1 (JS.lit "intro 1. a 2. b 3. c"))
               [Mock.message_object (JS.lit "user") (JS.lit "hi")]
               (Mock.start (Mock.platform true true None 1 (JS.lit "intro 1. a 2. b 3. c"))
                  (1700, 0%nat) ∅)) with
  | inr set =>
      (length (Client.questions set) + length (Client.nextSteps set)
       + length (Client.tips set))%nat = 4%nat
  | inl _ => False
  end.
Proof.
  pose (P := Mock.platform true true None 1 (JS.lit "intro 1. a 2. b 3. c")).
  pose (s0 := Mock.start P (1700, 0%nat) ∅).
  pose (prompt := JStr (coaching_prompt (JS.join JS.blank_line [JS.lit "user: hi"]))).
  pose (a := {| chainPromise := inr (@PineconeChain P) |}).
  destruct (@categorization_keeps_every_suggestion P
              (Mock.message_object (JS.lit "user") (JS.lit "hi")) []
              [JS.lit "user: hi"] s0
              (snd (@getInstance P s0))
              (snd (@ask P a prompt (snd (@getInstance P s0))))
              a (JS.lit "intro 1. a 2. b 3. c"))
    as (set & Hrun & Hlen & _).
  - reflexivity.
  - reflexivity.
  - vm_compute. reflexivity.
  - fold P. fold s0. rewrite Hrun. simpl fst. cbv beta iota.
    rewrite Hlen. vm_compute. reflexivity.
Defined.

(** ** Retrieval degrades, the answer stays *)

Section Retrieval.
Context {P : Platform}.

(** The retriever never throws. *)
Lemma getRelevantDocuments_never_throws (query : json) (s : state) :
  exists docs s', getRelevantDocuments query s = (inr docs, s').
Proof.
  unfold getRelevantDocuments, try_catch.
  destruct (bind _ _ s) as [[e|docs] s']; eexists _, _; reflexivity.
Qed.

Lemma getRelevantDocuments_degraded (query : json) (s : state) (wf : world) :
  no_grounding query (ext s) wf ->
  exists s', getRelevantDocuments query s = (inr [], s') /\ ext s' = wf
             /\ instance s' = instance s.
Proof.
  intros H. unfold getRelevantDocuments, try_catch, bind, call, lift, ret.
  destruct H as [e He | v w e He Hq | v w He Hq]; rewrite He; simpl.
  - eexists. split; [reflexivity|]. split; reflexivity.
  - rewrite Hq. simpl. eexists. split; [reflexivity|]. split; reflexivity.
  - rewrite Hq. simpl. eexists. split; [reflexivity|]. split; reflexivity.
Qed.

Lemma getInstance_ready (s : state) :
  agent_ready s ->
  exists a s1, getInstance s = (inr a, s1)
               /\ chainPromise a = inr PineconeChain /\ ext s1 = ext s.
Proof.
  unfold agent_ready, getInstance. destruct (instance s) as [a|]; intros H.
  - exists a, s. repeat split. exact H.
  - simpl. eexists _, _. split; [reflexivity|]. split; [exact H|reflexivity].
Qed.

Lemma ask_degraded (a : agent) (query : json) (s : state) (wf : world) :
  chainPromise a = inr PineconeChain ->
  no_grounding query (ext s) wf ->
  exists s', ext s' = wf
             /\ ask a query s = call (Generate [] query) (generate [] query) s'.
Proof.
  intros Ha H.
  destruct (getRelevantDocuments_degraded query s wf H) as (s' & E & Hw & _).
  exists s'. split; [exact Hw|].
  unfold ask. rewrite Ha. unfold bind at 1, lift. unfold chain_call.
  rewrite (bind_step _ _ _ _ _ E). reflexivity.
Qed.

(** C4.  When the embedding call or the nearest-neighbour query fails (or
    the index has no match), [getRelevantDocuments] returns the empty array
    and throws nothing.  [ask] then calls the model over no documents, and
    its outcome is the outcome of that generation: if the model answers [t],
    [ask] returns [t], and [POST /ask], for a question that its log line
    can render (every string is one), responds 200 with [{answer: t}]. *)
Theorem retriever_failure_degrades (query : json) (s : state) (wf : world) :
  no_grounding query (ext s) wf ->
  (exists s', getRelevantDocuments query s = (inr [], s') /\ ext s' = wf)
  /\ (forall a, chainPromise a = inr PineconeChain ->
        fst (ask a query s) = fst (generate [] query wf))
  /\ (forall req_body shown t w',
        Json.prop req_body (JS.lit "question") = Some query ->
        Json.to_string raise query = inr shown ->
        Json.truthy (Some query) = true ->
        agent_ready s ->
        generate [] query wf = (inr t, w') ->
        fst (ask_post req_body s)
        = inr {| status := 200; body := JObj [(JS.lit "answer", JStr t)] |}).
Proof.
  intros H. split; [|split].
  - destruct (getRelevantDocuments_degraded query s wf H) as (s' & E & Hw & _).
    exists s'. split; assumption.
  - intros a Ha. destruct (ask_degraded a query s wf Ha H) as (s' & Hw & ->).
    unfold call. rewrite Hw. destruct (generate [] query wf). reflexivity.
  - intros req_body shown t w' Hq Hshown Ht Hready Hgen.
    unfold ask_post. rewrite Hq.
    rewrite (bind_step _ _ _ _ _ (log_question_renders (Some query) shown s Hshown)).
    rewrite Ht. cbn [negb].
    destruct (getInstance_ready s Hready) as (a & s1 & Hg & Ha & Hext).
    rewrite <- Hext in H.
    destruct (ask_degraded a query s1 wf Ha H) as (s' & Hw & Hask).
    unfold try_catch. rewrite (bind_step _ _ _ _ _ Hg).
    change (default JNull (Some query)) with query.
    unfold bind. rewrite Hask. unfold call.
    rewrite Hw, Hgen. reflexivity.
Qed.

End Retrieval.

(** The embedding service is down; the model answers ["ungrounded"]. *)
Lemma retriever_failure_degrades_witness :
  fst (@getRelevantDocuments (Mock.platform false true None 1 (JS.lit "ungrounded"))
         (JStr (JS.lit "q"))
         (Mock.start (Mock.platform false true None 1 (JS.lit "ungrounded"))
            (1700, 0%nat) ∅))
  = inr []
  /\ fst (@ask_post (Mock.platform false true None 1 (JS.lit "ungrounded"))
         (JObj [(JS.lit "question", JStr (JS.lit "q"))])
         (Mock.start (Mock.platform false true None 1 (JS.lit "ungrounded"))
            (1700, 0%nat) ∅))
     = inr {| status := 200;
              body := JObj [(JS.lit "answer", JStr (JS.lit "ungrounded"))] |}.
Proof.
  destruct (@retriever_failure_degrades
              (Mock.platform false true None 1 (JS.lit "ungrounded"))
              (JStr (JS.lit "q"))
              (Mock.start (Mock.platform false true None 1 (JS.lit "ungrounded"))
                 (1700, 0%nat) ∅)
              (1700, 0%nat))
    as ((s' & Hdocs & _) & _ & Hpost).
  - apply embedding_failed with (e := Mock.failure). reflexivity.
  - split.
    + rewrite Hdocs. reflexivity.
    + apply (Hpost _ (JS.lit "q") (JS.lit "ungrounded") (1700, 0%nat)); reflexivity.
Defined.

(** ** Cutting at the numeric markers *)

Section Markers.
Import JS.

Lemma span_app_all (p : N -> bool) (a b : jsstring) :
  Forall (fun c => p c = true) a -> span p (a ++ b) = a ++ span p b.
Proof.
  induction a as [|c a IH]; intros H; [reflexivity|].
  inversion H as [|? ? Hc Ha]; subst. simpl. rewrite Hc, (IH Ha). reflexivity.
Qed.

Lemma span_all (p : N -> bool) (s : jsstring) : Forall (fun c => p c = true) (span p s).
Proof.
  induction s as [|c s IH]; simpl; [constructor|].
  destruct (p c) eqn:Hc; constructor; assumption.
Qed.

Lemma span_prefix (p : N -> bool) (s : jsstring) :
  s = span p s ++ drop (length (span p s)) s.
Proof.
  induction s as [|c s IH]; simpl; [reflexivity|].
  destruct (p c); simpl; [f_equal; exact IH|reflexivity].
Qed.

Lemma span_stops (p : N -> bool) (s : jsstring) :
  match drop (length (span p s)) s with
  | c :: _ => p c = false
  | [] => True
  end.
Proof.
  induction s as [|c s IH]; simpl; [exact I|].
  destruct (p c) eqn:Hc; simpl; [exact IH|exact Hc].
Qed.

Lemma span_space_stops (s : jsstring) :
  Spec.no_leading_space (drop (length (span is_space s)) s).
Proof. exact (span_stops is_space s). Qed.

(** What [match_marker] finds is a marker, with all the white space behind
    its dot; it is never empty. *)
Lemma match_marker_sound (s : jsstring) (k : nat) :
  match_marker s = Some k ->
  exists m rest, s = m ++ rest /\ Spec.is_marker m /\ length m = k
                 /\ Spec.no_leading_space rest /\ (0 < k)%nat.
Proof.
  unfold match_marker.
  pose proof (span_prefix is_digit s) as Hs.
  pose proof (span_all is_digit s) as Hd.
  destruct (span is_digit s) as [|d ds] eqn:Ed; [discriminate|].
  destruct (drop (length (d :: ds)) s) as [|c r] eqn:Er; [discriminate|].
  destruct (N.eq_dec c 46) as [->|Hne].
  2:{ destruct c as [|p]; [discriminate|].
      do 6 (destruct p as [p|p|]; try discriminate). congruence. }
  pose proof (span_prefix is_space r) as Hr.
  pose proof (span_all is_space r) as Hw.
  pose proof (span_space_stops r) as Hstop.
  destruct (span is_space r) as [|w ws] eqn:Ew; [discriminate|].
  intros [= <-].
  exists ((d :: ds) ++ [46] ++ (w :: ws)), (drop (length (w :: ws)) r).
  split; [|split; [|split; [|split]]].
  - rewrite Hs at 1. rewrite <- !app_assoc. f_equal. simpl. f_equal. exact Hr.
  - exists (d :: ds), (w :: ws). repeat split; try discriminate; assumption.
  - rewrite !length_app. simpl. lia.
  - exact Hstop.
  - simpl. lia.
Qed.

(** Where a marker starts, [match_marker] finds one. *)
Lemma match_marker_complete (s : jsstring) :
  Spec.marker_starts s -> exists k, match_marker s = Some (S k).
Proof.
  intros (m & rest & (ds & ws & -> & Hds & Hd & Hws & Hw) & ->).
  unfold match_marker. rewrite <- !app_assoc.
  rewrite (span_app_all is_digit ds _ Hd). simpl span. rewrite app_nil_r.
  destruct ds as [|d ds]; [contradiction|].
  rewrite drop_app_length. cbn [app].
  rewrite (span_app_all is_space ws _ Hw).
  destruct ws as [|w ws]; [contradiction|].
  simpl. eexists. reflexivity.
Qed.

(** On a marker followed by no white space, [match_marker] finds that very
    marker. *)
Lemma match_marker_exact (m rest : jsstring) :
  Spec.is_marker m -> Spec.no_leading_space rest ->
  match_marker (m ++ rest) = Some (length m).
Proof.
  intros (ds & ws & -> & Hds & Hd & Hws & Hw) Hrest.
  unfold match_marker. rewrite <- !app_assoc.
  rewrite (span_app_all is_digit ds _ Hd). simpl span. rewrite app_nil_r.
  destruct ds as [|d ds]; [contradiction|].
  rewrite drop_app_length. cbn [app].
  rewrite (span_app_all is_space ws _ Hw).
  assert (Hsp : span is_space rest = []).
  { destruct rest as [|c rest]; [reflexivity|]. simpl in *. rewrite Hrest. reflexivity. }
  rewrite Hsp, app_nil_r.
  destruct ws as [|w ws]; [contradiction|].
  simpl. rewrite !length_app. simpl. f_equal. lia.
Qed.

Lemma split_go_skip (m : matcher) (s : jsstring) :
  forall k, split_go m k s = split_go m 0 (drop k s).
Proof.
  induction s as [|c s IH]; intros [|k]; simpl; try reflexivity. apply IH.
Qed.

End Markers.

Section Segments.
Import JS.

Lemma marker_nonempty (m : jsstring) : Spec.is_marker m -> m <> [].
Proof.
  intros (ds & ws & -> & Hds & _). destruct ds; [contradiction|discriminate].
Qed.

Lemma no_marker_in_empty : ~ Spec.marker_starts [].
Proof.
  intros (m & rest & Hm & H). apply marker_nonempty in Hm.
  destruct m; [contradiction|discriminate].
Qed.

Lemma match_marker_none (s : jsstring) :
  match_marker s = None -> ~ Spec.marker_starts s.
Proof.
  intros H Hm. apply match_marker_complete in Hm as [k Hk]. congruence.
Qed.

(** The split of the code cuts the text as the specification says. *)
Lemma split_go_segments (s : jsstring) :
  forall k, Spec.segments (drop k s) (split_go match_marker k s).
Proof.
  induction s as [|c s IH]; intros k.
  - rewrite drop_nil. simpl. apply Spec.segments_last.
    intros pre suf H. symmetry in H. apply app_eq_nil in H as [_ ->].
    exact no_marker_in_empty.
  - destruct k as [|k]; [|exact (IH k)].
    rewrite drop_0. simpl.
    destruct (match_marker (c :: s)) as [[|j]|] eqn:Em.
    + apply match_marker_sound in Em as (_ & _ & _ & _ & _ & _ & H). lia.
    + pose proof (match_marker_sound _ _ Em) as (m & rest & Hs & Hm & Hlen & Hrest & _).
      rewrite split_go_skip.
      assert (Hd : drop j s = rest).
      { change (drop j s) with (drop (S j) (c :: s)).
        rewrite Hs, <- Hlen. apply drop_app_length. }
      rewrite Hd, Hs. change (m ++ rest) with ([] ++ m ++ rest).
      apply Spec.segments_cut; try assumption.
      * intros pre suf H Hne. symmetry in H. apply app_eq_nil in H as [_ ->].
        contradiction.
      * rewrite <- Hd, <- split_go_skip. apply IH.
    + specialize (IH 0%nat). rewrite drop_0 in IH.
      pose proof (match_marker_none _ Em) as Hno.
      inversion IH as [s0 Hlast Hs0 Hsegs | seg m rest segs Hm Hrest Hseg Htail Hs0 Hsegs].
      * apply Spec.segments_last. intros [|c' pre] suf H.
        -- simpl in H. subst suf. exact Hno.
        -- injection H as _ H. exact (Hlast pre suf H).
      * change (c :: seg ++ m ++ rest) with ((c :: seg) ++ m ++ rest).
        apply Spec.segments_cut; try assumption.
        intros [|c' pre] suf H Hne.
        -- simpl in H. subst suf. simpl. rewrite Hs0. exact Hno.
        -- injection H as _ H. exact (Hseg pre suf H Hne).
Qed.

(** And the specification's cut is the split of the code, no other. *)
Lemma segments_split (s : jsstring) (segs : list jsstring) :
  Spec.segments s segs -> segs = split match_marker s.
Proof.
  unfold split. induction 1 as [s Hlast | seg m rest segs Hm Hrest Hseg Htail IH].
  - induction s as [|c s IHs]; [reflexivity|]. simpl.
    destruct (match_marker (c :: s)) as [[|j]|] eqn:Em.
    + apply match_marker_sound in Em as (_ & _ & _ & _ & _ & _ & H). lia.
    + exfalso. apply (Hlast [] (c :: s) eq_refl).
      apply match_marker_sound in Em as (m & rest & Hs & Hm & _).
      exists m, rest. split; assumption.
    + rewrite <- IHs; [reflexivity|].
      intros pre suf H. apply (Hlast (c :: pre) suf). simpl. congruence.
  - induction seg as [|c seg IHseg].
    + simpl app.
      pose proof (match_marker_exact m rest Hm Hrest) as Em.
      pose proof (marker_nonempty m Hm) as Hne.
      destruct m as [|c m]; [contradiction|].
      simpl app. simpl split_go. simpl app in Em. rewrite Em. simpl length.
      f_equal. rewrite split_go_skip, drop_app_length. exact IH.
    + simpl app. simpl split_go.
      destruct (match_marker (c :: seg ++ m ++ rest)) as [[|j]|] eqn:Em.
      * apply match_marker_sound in Em as (_ & _ & _ & _ & _ & _ & H). lia.
      * exfalso. apply (Hseg [] (c :: seg) eq_refl); [discriminate|].
        apply match_marker_sound in Em as (m' & rest' & Hs & Hm' & _).
        exists m', rest'. split; assumption.
      * rewrite <- IHseg; [reflexivity|].
        intros pre suf H Hne. apply (Hseg (c :: pre) suf); [|exact Hne].
        simpl. congruence.
Qed.

Lemma trimStart_id (s : jsstring) : Spec.no_leading_space s -> trimStart s = s.
Proof. destruct s as [|c s]; simpl; [reflexivity|]. intros ->. reflexivity. Qed.

Lemma trimStart_all_space (l s : jsstring) :
  Spec.all_space l -> trimStart (l ++ s) = trimStart s.
Proof.
  induction l as [|c l IH]; intros H; [reflexivity|].
  inversion H as [|? ? Hc Hl]; subst. simpl. rewrite Hc. exact (IH Hl).
Qed.

(** The specification's trimmed text is [trim] of the code. *)
Lemma trimmed_trim (s t : jsstring) : Spec.trimmed s t -> t = trim s.
Proof.
  intros (l & r & -> & Hl & Hr & Hno & Hno').
  unfold trim, trimEnd. rewrite (trimStart_all_space l _ Hl).
  destruct t as [|c t].
  - simpl app.
    assert (E : trimStart r = []).
    { rewrite <- (app_nil_r r), (trimStart_all_space r [] Hr). reflexivity. }
    rewrite E. reflexivity.
  - rewrite (trimStart_id ((c :: t) ++ r)) by exact Hno.
    rewrite rev_app_distr, (trimStart_all_space (rev r) _ (all_space_rev r Hr)).
    rewrite (trimStart_id _ Hno'), rev_involutive. reflexivity.
Qed.

(** Keeping and trimming, in the code and in the specification. *)
Lemma kept_filter_trim (segs out : list jsstring) :
  Spec.kept segs out <->
  out = List.map trim (List.filter (fun item => Nat.ltb 0 (length (trim item))) segs).
Proof.
  split.
  - induction 1 as [|seg segs out Hsp _ IH | seg t segs out Hsp Ht _ IH]; simpl.
    + reflexivity.
    + rewrite trim_length_blank, (proj2 (blank_all_space seg) Hsp). exact IH.
    + rewrite trim_length_blank.
      destruct (blank seg) eqn:Hb; [apply blank_all_space in Hb; contradiction|].
      simpl. rewrite IH, (trimmed_trim _ _ Ht). reflexivity.
  - intros ->. induction segs as [|seg segs IH]; simpl; [constructor|].
    rewrite trim_length_blank. destruct (blank seg) eqn:Hb; simpl.
    + apply Spec.kept_drop; [apply blank_all_space; exact Hb|exact IH].
    + apply Spec.kept_keep; [|apply trim_spec|exact IH].
      intros H. apply blank_all_space in H. congruence.
Qed.

(** The suggestions of the specification are those the handler parses. *)
Lemma suggestions_of_parse (answer : jsstring) (suggestions : list jsstring) :
  Spec.suggestions_of answer suggestions <-> suggestions = parse_suggestions answer.
Proof.
  unfold Spec.suggestions_of, parse_suggestions. split.
  - intros (segs & Hseg & Hk). apply segments_split in Hseg as ->.
    apply kept_filter_trim. exact Hk.
  - intros ->. exists (split match_marker answer). split.
    + pose proof (split_go_segments answer 0) as H. rewrite drop_0 in H. exact H.
    + apply kept_filter_trim. reflexivity.
Qed.

End Segments.

Section Rendering.
Context {P : Platform}.

Lemma json_elements_ind (Q : json -> Prop) :
  Q JNull -> (forall b, Q (JBool b)) -> (forall n, Q (JNum n)) ->
  (forall t, Q (JStr t)) ->
  (forall items, Forall Q items -> Q (JArr items)) ->
  (forall fields, Q (JObj fields)) ->
  forall v, Q v.
Proof.
  intros Hn Hb Hnum Hs Ha Ho. fix IH 1.
  intros [| b | n | t | items | fields];
    [exact Hn|apply Hb|apply Hnum|apply Hs| |apply Ho].
  apply Ha. revert items. fix IHl 1.
  intros [|x l]; constructor; [apply IH|apply IHl].
Qed.

Lemma to_string_error : forall (v : json) (e : jserror),
  Json.to_string raise v = inl e -> e = raise NotPrimitive.
Proof.
  induction v as [| [|] | n | t | items IH | fields] using json_elements_ind;
    intros e H; simpl in H; try discriminate.
  - revert e H. induction IH as [|x l Hx _ IHl]; intros e H; [discriminate|].
    destruct (match x with JNull => inr [] | _ => Json.to_string raise x end)
      as [ex|sx] eqn:Ex.
    + injection H as <-. destruct x; try discriminate; exact (Hx _ Ex).
    + destruct l as [|y l']; [discriminate|].
      match type of H with
      | match ?g with _ => _ end = _ => remember g as r eqn:Er in H
      end.
      destruct r as [er|rest]; [|discriminate].
      injection H as <-. symmetry in Er. exact (IHl _ Er).
  - destruct (Json.lookup_field (JS.lit "toString") fields); [|discriminate].
    injection H as <-. reflexivity.
Qed.

Lemma field_text_template (v : option json) (t : jsstring) :
  Spec.field_text v t <-> Json.template raise v = inr t.
Proof.
  unfold Spec.field_text. destruct v as [[| | | u | |]|]; try reflexivity.
  simpl. split; [intros ->; reflexivity|intros H; injection H as <-; reflexivity].
Qed.

(** The line of the specification is the line the handler renders. *)
Lemma line_of_render (msg : json) (l : jsstring) :
  Spec.line_of msg l <-> render_message msg = inr l.
Proof.
  unfold Spec.line_of. split.
  - intros (Hn & sp & tx & Hsp & Htx & ->).
    apply field_text_template in Hsp, Htx.
    destruct msg; try (exfalso; apply Hn; reflexivity);
      unfold render_message; rewrite Hsp, Htx; reflexivity.
  - intros H.
    assert (Hn : msg <> JNull) by (intros ->; discriminate).
    split; [exact Hn|].
    assert (H' : match Json.template raise (Json.prop msg (JS.lit "speaker")) with
                 | inl e => inl e
                 | inr speaker =>
                     match Json.template raise (Json.prop msg (JS.lit "text")) with
                     | inl e => inl e
                     | inr text => inr (speaker ++ JS.lit ": " ++ text)
                     end
                 end = inr l).
    { destruct msg; try exact H. exfalso. apply Hn. reflexivity. }
    destruct (Json.template raise (Json.prop msg (JS.lit "speaker"))) as [e|sp] eqn:Esp;
      [discriminate|].
    destruct (Json.template raise (Json.prop msg (JS.lit "text"))) as [e|tx] eqn:Etx;
      [discriminate|].
    injection H' as <-. exists sp, tx.
    split; [apply field_text_template; exact Esp|].
    split; [apply field_text_template; exact Etx|reflexivity].
Qed.

Lemma lines_of_render (items : list json) (lines : list jsstring) :
  Forall2 Spec.line_of items lines <-> map_result render_message items = inr lines.
Proof.
  revert lines. induction items as [|x items IH]; intros lines; split.
  - intros H. inversion H. reflexivity.
  - intros H. injection H as <-. constructor.
  - intros H. inversion H as [|? l ? ls Hx Hrest]; subst.
    cbn [map_result]. rewrite (proj1 (line_of_render _ _) Hx).
    rewrite (proj1 (IH _) Hrest). reflexivity.
  - cbn [map_result]. intros H.
    destruct (render_message x) as [e|l] eqn:Ex; [discriminate|].
    destruct (map_result render_message items) as [e|ls] eqn:Er; [discriminate|].
    injection H as <-. constructor.
    + apply line_of_render. exact Ex.
    + apply IH. reflexivity.
Qed.

(** The only errors of the rendering: a property of [null], and a field
    that cannot be printed. *)
Lemma render_message_error (msg : json) (e : jserror) :
  render_message msg = inl e ->
  e = raise (NullProperty (JS.lit "speaker")) \/ e = raise NotPrimitive.
Proof.
  intros H.
  assert (Ht : forall v e', Json.template raise v = inl e' -> e' = raise NotPrimitive).
  { intros [v|] e' H'; [exact (to_string_error _ _ H')|discriminate]. }
  destruct msg; [injection H as <-; left; reflexivity| | | | |];
    right; unfold render_message in H;
    (destruct (Json.template raise (Json.prop _ (JS.lit "speaker"))) as [e1|sp] eqn:E1;
     [injection H as <-; exact (Ht _ _ E1)|]);
    (destruct (Json.template raise (Json.prop _ (JS.lit "text"))) as [e2|tx] eqn:E2;
     [injection H as <-; exact (Ht _ _ E2)|discriminate]).
Qed.

Lemma map_render_error (items : list json) (e : jserror) :
  map_result render_message items = inl e ->
  e = raise (NullProperty (JS.lit "speaker")) \/ e = raise NotPrimitive.
Proof.
  induction items as [|x items IH]; [discriminate|]. cbn [map_result].
  destruct (render_message x) as [ex|l] eqn:Ex.
  - intros H. injection H as <-. exact (render_message_error _ _ Ex).
  - destruct (map_result render_message items) as [er|ls]; [|discriminate].
    intros H. injection H as <-. apply IH. reflexivity.
Qed.

(** The text of the specification is the text [join] builds. *)
Lemma joined_join (sep : jsstring) (lines : list jsstring) (t : jsstring) :
  Spec.joined sep lines t <-> t = JS.join sep lines.
Proof.
  split.
  - induction 1 as [|l|l l' ls t _ IH]; [reflexivity|reflexivity|].
    rewrite IH. reflexivity.
  - intros ->. induction lines as [|l [|l' ls] IH]; [constructor|constructor|].
    change (JS.join sep (l :: l' :: ls)) with (l ++ sep ++ JS.join sep (l' :: ls)).
    constructor. exact IH.
Qed.

(** [POST /coaching] when an element of the array does not render: the 500
    with the error of the rendering, before the agent is asked for. *)
Lemma coaching_unrendered (req_body : json) (x : json) (items : list json)
    (e : jserror) (s : state) :
  Json.prop req_body (JS.lit "conversation") = Some (JArr (x :: items)) ->
  map_result render_message (x :: items) = inl e ->
  coaching_post req_body s = (inr (internal_error e), s).
Proof.
  intros Hc Hl. unfold coaching_post. rewrite Hc.
  change (rejected_conversation (Some (JArr (x :: items)))) with false. cbv iota.
  unfold array_items. rewrite Hl. reflexivity.
Qed.

End Rendering.

(** C8.  [POST /coaching] with a non-empty array, whatever its elements.
    Whenever the elements have their lines ["{speaker}: {text}"] (a string
    field as it is, any other field as JavaScript prints it, further fields
    such as [timestamp] ignored) and [transcript] is these lines with a
    blank line between each two, the handler asks the agent once, with the
    prompt around that transcript.  When the agent answers, the response is
    200 and its [suggestions] are the suggestions the specification derives
    from that one answer: the pieces between the numeric markers, those that
    are blank discarded, the others trimmed, in their order; no other list
    fits that description.  When the agent throws, the response is the 500.
    Either the elements have such lines and such a transcript, or one of
    them has none (it is [null], or a field of it cannot be printed): then
    the response is the 500 with that [TypeError] and nothing else has
    happened.  A message with a string [speaker] and a string [text] always
    has the line made of the two. *)
Theorem coaching_renders_and_parses {P : Platform}
    (req_body : json) (x : json) (items : list json)
    (s s1 : state) (a : agent) :
  Json.prop req_body (JS.lit "conversation") = Some (JArr (x :: items)) ->
  getInstance s = (inr a, s1) ->
  (forall (lines : list jsstring) (transcript : jsstring),
      Forall2 Spec.line_of (x :: items) lines ->
      Spec.joined JS.blank_line lines transcript ->
      match ask a (JStr (Text.prompt_head ++ transcript ++ Text.prompt_tail)) s1 with
      | (inr answer, s2) =>
          exists suggestions,
            coaching_post req_body s
            = (inr {| status := 200;
                      body := JObj [(JS.lit "suggestions",
                                     JArr (List.map JStr suggestions))] |}, s2)
            /\ forall l, Spec.suggestions_of answer l <-> l = suggestions
      | (inl e, s2) => coaching_post req_body s = (inr (internal_error e), s2)
      end)
  /\ ((exists (lines : list jsstring) (transcript : jsstring),
         Forall2 Spec.line_of (x :: items) lines
         /\ Spec.joined JS.blank_line lines transcript)
      \/ ((forall lines, ~ Forall2 Spec.line_of (x :: items) lines)
          /\ exists f,
               (f = NullProperty (JS.lit "speaker") \/ f = NotPrimitive)
               /\ coaching_post req_body s = (inr (internal_error (raise f)), s)))
  /\ (forall (fields : list (jsstring * json)) (sp tx : jsstring),
        Json.lookup_field (JS.lit "speaker") fields = Some (JStr sp) ->
        Json.lookup_field (JS.lit "text") fields = Some (JStr tx) ->
        forall l, Spec.line_of (JObj fields) l <-> l = sp ++ JS.lit ": " ++ tx).
Proof.
  intros Hc Hg. split; [|split].
  - intros lines transcript Hl Hj.
    apply lines_of_render in Hl. apply joined_join in Hj. subst transcript.
    pose proof (coaching_run req_body x items lines s a s1 Hc Hl Hg) as Hrun.
    unfold coaching_prompt in Hrun.
    destruct (ask a _ s1) as [[e|answer] s2]; [exact Hrun|].
    exists (parse_suggestions answer). split; [exact Hrun|].
    intros l. apply suggestions_of_parse.
  - destruct (map_result render_message (x :: items)) as [e|lines] eqn:El.
    + right. split.
      * intros lines Hl. apply lines_of_render in Hl. congruence.
      * destruct (map_render_error _ _ El) as [-> | ->]; eexists;
          (split; [|exact (coaching_unrendered req_body x items _ s Hc El)]);
          [left|right]; reflexivity.
    + left. exists lines, (JS.join JS.blank_line lines). split.
      * apply lines_of_render. exact El.
      * apply joined_join. reflexivity.
  - intros fields sp tx Hsp Htx l. unfold Spec.line_of.
    cbn [Json.prop]. rewrite Hsp, Htx. cbn [Spec.field_text]. split.
    + intros (_ & sp' & tx' & -> & -> & ->). reflexivity.
    + intros ->. split; [discriminate|]. exists sp, tx. repeat split.
Qed.

(** Two messages, one with a [timestamp] and one whose [text] is the number
    5, put to a model that answers with the prompt it is given: the last
    suggestion is the prompt from its third item on, and the transcript
    ["user: hi\n\nai: 5"] stands in it. *)
Lemma coaching_renders_and_parses_witness :
  exists first second third,
    fst (@coaching_post Mock.echo
           (JObj [(JS.lit "conversation",
                   JArr [JObj [(JS.lit "speaker", JStr (JS.lit "user"));
                               (JS.lit "text", JStr (JS.lit "hi"));
                               (JS.lit "timestamp",
                                JNum {| is_zero := false; digits := JS.lit "1700" |})];
                         JObj [(JS.lit "text",
                                JNum {| is_zero := false; digits := JS.lit "5" |});
                               (JS.lit "speaker", JStr (JS.lit "ai"))]])])
           (Mock.start Mock.echo (1700, 0%nat) ∅))
    = inr {| status := 200;
             body := JObj [(JS.lit "suggestions",
                            JArr [JStr first; JStr second; JStr third;
                                  JStr (drop 116 Text.prompt_head
                                        ++ JS.lit "user: hi" ++ JS.blank_line
                                        ++ JS.lit "ai: 5"
                                        ++ take 40 Text.prompt_tail)])] |}.
Proof.
  pose (P := Mock.echo).
  pose (s0 := Mock.start P (1700, 0%nat) ∅).
  pose (a := {| chainPromise := inr (@PineconeChain P) |}).
  pose (m1 := [(JS.lit "speaker", JStr (JS.lit "user"));
               (JS.lit "text", JStr (JS.lit "hi"));
               (JS.lit "timestamp",
                JNum {| is_zero := false; digits := JS.lit "1700" |})]).
  pose (m2 := JObj [(JS.lit "text",
                     JNum {| is_zero := false; digits := JS.lit "5" |});
                    (JS.lit "speaker", JStr (JS.lit "ai"))]).
  destruct (@coaching_renders_and_parses P
              (JObj [(JS.lit "conversation", JArr [JObj m1; m2])])
              (JObj m1) [m2] s0 (snd (@getInstance P s0)) a eq_refl eq_refl)
    as (H & _ & Hline).
  specialize (H [JS.lit "user: hi"; JS.lit "ai: 5"]
                (JS.lit "user: hi" ++ JS.blank_line ++ JS.lit "ai: 5")).
  assert (Hl : Forall2 (@Spec.line_of P) [JObj m1; m2]
                 [JS.lit "user: hi"; JS.lit "ai: 5"]).
  { constructor; [|constructor; [|constructor]].
    - apply (Hline m1 (JS.lit "user") (JS.lit "hi") eq_refl eq_refl). reflexivity.
    - split; [discriminate|]. exists (JS.lit "ai"), (JS.lit "5").
      split; [reflexivity|]. split; reflexivity. }
  specialize (H Hl (Spec.joined_next _ _ _ _ _ (Spec.joined_last _ _))).
  destruct (@ask P a _ (snd (@getInstance P s0))) as [[e|answer] s2] eqn:E.
  - vm_compute in E. discriminate.
  - destruct H as (suggestions & Hrun & Hspec).
    fold P. fold m1. fold m2. fold s0.
    assert (Ea : answer = Text.prompt_head ++ JS.lit "user: hi" ++ JS.blank_line
                          ++ JS.lit "ai: 5" ++ Text.prompt_tail).
    { vm_compute in E. injection E as <- _. reflexivity. }
    pose proof (proj1 (Hspec (parse_suggestions answer))
                  (proj2 (suggestions_of_parse answer _) eq_refl)) as Hs.
    rewrite Hrun. cbn [fst]. rewrite <- Hs, Ea.
    eexists _, _, _. vm_compute. reflexivity.
Defined.

(** ** One pipeline, or one per request *)

Section Pipelines.
Context {P : Platform}.
Import Lifecycle.

Lemma single_pipeline_boot : single_pipeline boot.
Proof. left. repeat split. Qed.

Lemma awaits_chain_integrated (r : route) (req_body : json) :
  awaits_chain Integrated r req_body = true.
Proof. destruct r; reflexivity. Qed.

Lemma single_pipeline_step (s : proc) (l : label) :
  single_pipeline s -> single_pipeline (step Integrated s l).
Proof.
  intros Hinv. destruct l as [r req_body | h o | request]; simpl.
  - destruct (reaches_agent Integrated r req_body).
    + rewrite awaits_chain_integrated. unfold getInstance.
      destruct Hinv as [(Hi & Hp & Ha & Hr) | (Hi & p & Hp & Ha & Hr)]; rewrite Hi.
      * simpl. rewrite Hp, Ha, Hr. right. split; [reflexivity|].
        exists None. split; [reflexivity|]. split.
        -- intros req h [H|[]]. injection H as _ <-. reflexivity.
        -- intros req h o [].
      * simpl. right. split; [exact Hi|]. exists p. split; [exact Hp|]. split.
        -- intros req h Hin. apply in_app_or in Hin as [Hin|[H|[]]].
           ++ exact (Ha req h Hin).
           ++ injection H as _ <-. reflexivity.
        -- exact Hr.
    + destruct Hinv as [(Hi & Hp & Ha & Hr) | (Hi & p & Hp & Ha & Hr)].
      * left. simpl. repeat split; assumption.
      * right. simpl. split; [exact Hi|]. exists p. repeat split; try assumption;
          eapply Hr; eassumption.
  - destruct Hinv as [(Hi & Hp & Ha & Hr) | (Hi & p & Hp & Ha & Hr)].
    + rewrite Hp. rewrite lookup_nil. left. repeat split; assumption.
    + rewrite Hp. destruct h as [|h]; simpl.
      * destruct p as [o'|].
        -- right. split; [exact Hi|]. exists (Some o'). repeat split; try assumption;
             eapply Hr; eassumption.
        -- right. simpl. split; [exact Hi|]. exists (Some o). split; [rewrite ?Hp; reflexivity|].
           split; [exact Ha|]. intros req h' o' Hin.
           destruct (Hr req h' o' Hin) as [_ Hfalse]. discriminate.
      * right. split; [exact Hi|]. exists p. repeat split; try assumption;
          eapply Hr; eassumption.
  - destruct (lookup_request request (awaiting s)) as [h|] eqn:El; [|exact Hinv].
    destruct (promises s !! h) as [[o|]|] eqn:Ep; try exact Hinv.
    destruct Hinv as [(Hi & Hp & Ha & Hr) | (Hi & p & Hp & Ha & Hr)].
    + rewrite Hp in Ep. rewrite lookup_nil in Ep. discriminate.
    + right. simpl. split; [exact Hi|]. exists p. split; [exact Hp|]. split.
      * intros req h' Hin. apply List.filter_In in Hin as [Hin _]. exact (Ha req h' Hin).
      * intros req h' o' Hin. apply in_app_or in Hin as [Hin|[H|[]]].
        -- exact (Hr req h' o' Hin).
        -- injection H as <- <- <-.
           unfold lookup_request in El.
           destruct (List.find _ (awaiting s)) as [[rq hh]|] eqn:Ef; [|discriminate].
           simpl in El. injection El as ->.
           apply List.find_some in Ef as [Hin _].
           pose proof (Ha _ _ Hin) as ->.
           rewrite Hp in Ep. simpl in Ep. injection Ep as ->. split; reflexivity.
Qed.

(** In the integrated server the pipeline is built at most once, whatever
    requests arrive and however their pieces interleave; every request that
    reached [ask] awaits the promise of that one construction. *)
Lemma integrated_single_pipeline (labels : list label) :
  single_pipeline (run Integrated labels)
  /\ (constructions (run Integrated labels) <= 1)%nat.
Proof.
  assert (H : forall s, single_pipeline s ->
                        single_pipeline (fold_left (step Integrated) labels s)).
  { induction labels as [|l labels IH]; intros s Hs; simpl; [exact Hs|].
    apply IH, single_pipeline_step, Hs. }
  specialize (H boot single_pipeline_boot). split; [exact H|].
  unfold constructions. fold (run Integrated labels) in H.
  destruct H as [(_ & -> & _) | (_ & p & -> & _)]; simpl; lia.
Qed.

Lemma integrated_step_constructions (s : proc) (l : label) :
  single_pipeline s ->
  constructions (step Integrated s l)
  = match l with
    | Post r req_body =>
        if reaches_agent Integrated r req_body then 1%nat else constructions s
    | _ => constructions s
    end.
Proof.
  intros Hinv. unfold constructions.
  destruct l as [r req_body | h o | request]; simpl.
  - destruct (reaches_agent Integrated r req_body); [|reflexivity].
    rewrite awaits_chain_integrated. unfold getInstance.
    destruct Hinv as [(Hi & Hp & _) | (Hi & p & Hp & _)]; rewrite Hi; simpl;
      rewrite Hp; reflexivity.
  - destruct (promises s !! h) as [[o'|]|]; simpl; rewrite ?length_insert; reflexivity.
  - destruct (lookup_request request (awaiting s)) as [h|]; [|reflexivity].
    destruct (promises s !! h) as [[o|]|]; reflexivity.
Qed.

(** In the integrated server the pipeline is built exactly once as soon as
    one request has asked for the agent, and never before. *)
Lemma integrated_constructions (labels : list label) :
  constructions (run Integrated labels)
  = if Nat.eqb (accepted_posts Integrated labels) 0 then 0%nat else 1%nat.
Proof.
  assert (H : forall s, single_pipeline s ->
    constructions (fold_left (step Integrated) labels s)
    = if Nat.eqb (accepted_posts Integrated labels) 0 then constructions s
      else 1%nat).
  { induction labels as [|l labels IH]; intros s Hs; simpl; [reflexivity|].
    rewrite (IH _ (single_pipeline_step s l Hs)).
    rewrite (integrated_step_constructions s l Hs).
    destruct l as [r req_body | h o | request]; simpl; try reflexivity.
    destruct (reaches_agent Integrated r req_body); simpl.
    - destruct (Nat.eqb (accepted_posts Integrated labels) 0); reflexivity.
    - reflexivity. }
  exact (H boot single_pipeline_boot).
Qed.

(** The stand-alone router builds a pipeline for each request it accepts. *)
Lemma standalone_step_constructions (s : proc) (l : label) :
  constructions (step StandAlone s l)
  = (constructions s
     + match l with
       | Post r req_body => if reaches_agent StandAlone r req_body then 1 else 0
       | _ => 0
       end)%nat.
Proof.
  unfold constructions. destruct l as [r req_body | h o | request]; simpl.
  - destruct (reaches_agent StandAlone r req_body); simpl.
    + destruct (awaits_chain StandAlone r req_body); simpl;
        rewrite length_app; reflexivity.
    + lia.
  - destruct (promises s !! h) as [[o'|]|]; simpl; rewrite ?length_insert; lia.
  - destruct (lookup_request request (awaiting s)) as [h|]; [|lia].
    destruct (promises s !! h) as [[o|]|]; simpl; lia.
Qed.

End Pipelines.

Lemma standalone_constructions {P : Platform} (labels : list Lifecycle.label) :
  Lifecycle.constructions (Lifecycle.run Lifecycle.StandAlone labels)
  = accepted_posts Lifecycle.StandAlone labels.
Proof.
  assert (H : forall s,
    Lifecycle.constructions (fold_left (Lifecycle.step Lifecycle.StandAlone) labels s)
    = (Lifecycle.constructions s + accepted_posts Lifecycle.StandAlone labels)%nat).
  { induction labels as [|l labels IH]; intros s; simpl; [lia|].
    rewrite IH, standalone_step_constructions.
    destruct l as [r req_body | h o | request]; simpl; lia. }
  exact (H Lifecycle.boot).
Qed.

(** C1, on the code.  Two [POST /ask] with a question arrive before anything
    has settled.  Behind [SalesCoachAgent.getInstance()] (the routers of
    [index.ts]) one pipeline is built and both requests await its promise.
    Behind [new SalesCoachAgent()] (the router of [app/src/ask.ts]) two
    pipelines are built and each request awaits its own; served one after
    the other the two requests run the constructor twice as well. *)
Theorem standalone_router_builds_a_pipeline_per_request :
  Lifecycle.constructions
    (@Lifecycle.run (Mock.platform true true None 1 (JS.lit "answer"))
       Lifecycle.Integrated
       [Lifecycle.Post Lifecycle.Ask (question_body (JS.lit "a"));
        Lifecycle.Post Lifecycle.Ask (question_body (JS.lit "b"))]) = 1%nat
  /\ Lifecycle.awaiting
       (@Lifecycle.run (Mock.platform true true None 1 (JS.lit "answer"))
          Lifecycle.Integrated
          [Lifecycle.Post Lifecycle.Ask (question_body (JS.lit "a"));
           Lifecycle.Post Lifecycle.Ask (question_body (JS.lit "b"))])
     = [(0%nat, 0%nat); (1%nat, 0%nat)]
  /\ Lifecycle.constructions
       (@Lifecycle.run (Mock.platform true true None 1 (JS.lit "answer"))
          Lifecycle.StandAlone
          [Lifecycle.Post Lifecycle.Ask (question_body (JS.lit "a"));
           Lifecycle.Post Lifecycle.Ask (question_body (JS.lit "b"))]) = 2%nat
  /\ Lifecycle.awaiting
       (@Lifecycle.run (Mock.platform true true None 1 (JS.lit "answer"))
          Lifecycle.StandAlone
          [Lifecycle.Post Lifecycle.Ask (question_body (JS.lit "a"));
           Lifecycle.Post Lifecycle.Ask (question_body (JS.lit "b"))])
     = [(0%nat, 0%nat); (1%nat, 1%nat)]
  /\ @constructed (Mock.platform true true None 1 (JS.lit "answer"))
       (trace (snd (@ask_post (Mock.platform true true None 1 (JS.lit "answer"))
          (question_body (JS.lit "b"))
          (snd (@ask_post (Mock.platform true true None 1 (JS.lit "answer"))
             (question_body (JS.lit "a"))
             (Mock.start (Mock.platform true true None 1 (JS.lit "answer"))
                (1700, 0%nat) {[ JS.lit "data/fake_db.txt" := JS.lit "seed" ]}))))))
     = 1%nat
  /\ @constructed (Mock.platform true true None 1 (JS.lit "answer"))
       (trace (snd (@App.ask_post (Mock.platform true true None 1 (JS.lit "answer"))
          (question_body (JS.lit "b"))
          (snd (@App.ask_post (Mock.platform true true None 1 (JS.lit "answer"))
             (question_body (JS.lit "a"))
             (Mock.start (Mock.platform true true None 1 (JS.lit "answer"))
                (1700, 0%nat) {[ JS.lit "data/fake_db.txt" := JS.lit "seed" ]}))))))
     = 2%nat.
Proof. repeat split; vm_compute; reflexivity. Qed.

(* ===================================================================== *)
(** * Further properties of the code *)
(* ===================================================================== *)

(** ** Every request is answered *)

Section Answers.
Context {P : Platform}.

Lemma try_catch_answers (m : M response) (s : state) :
  (forall r s', m s = (inr r, s') -> status r = 200%nat) ->
  exists r s',
    try_catch m (fun error => ret (internal_error error)) s = (inr r, s')
    /\ answered r.
Proof.
  intros H. unfold try_catch. destruct (m s) as [[e|r] s'] eqn:E.
  - eexists _, _. split; [reflexivity|]. right. right. reflexivity.
  - exists r, s'. split; [reflexivity|]. left. exact (H r s' eq_refl).
Qed.

Lemma json_error_400_answered (msg : jsstring) : answered (json_error 400 msg).
Proof. right. left. reflexivity. Qed.

(** X1.  Whatever the body, whatever the state of the process and whatever the
    providers do, the handlers of [/coaching], [/knowledge/add] and
    [/knowledge/upload] produce a response, and its status is 200, 400 or
    500: no exception leaves them.  The handler of [/ask] does the same
    exactly when its log line can render the question; when it cannot, the
    handler throws there, before the check and outside the [try]: nothing
    is answered and the state is as it was. *)
Theorem handlers_answer_unless_the_log_line_throws (req_body : json)
    (file : option upload) (s : state) :
  match Json.template raise (Json.prop req_body (JS.lit "question")) with
  | inr _ => exists r s', ask_post req_body s = (inr r, s') /\ answered r
  | inl e => ask_post req_body s = (inl e, s)
  end
  /\ (exists r s', coaching_post req_body s = (inr r, s') /\ answered r)
  /\ (exists r s', knowledge_add_post req_body s = (inr r, s') /\ answered r)
  /\ (exists r s', knowledge_upload_post file s = (inr r, s') /\ answered r).
Proof.
  split; [|split; [|split]].
  - unfold ask_post.
    destruct (Json.template raise (Json.prop req_body (JS.lit "question")))
      as [e|shown] eqn:Hlog.
    { rewrite (bind_fail _ _ _ _ _ (log_question_throws _ e s Hlog)). reflexivity. }
    rewrite (bind_step _ _ _ _ _ (log_question_renders _ shown s Hlog)).
    destruct (negb _).
    + eexists _, _. split; [reflexivity|apply json_error_400_answered].
    + apply try_catch_answers. intros r s' H.
      apply bind_inr in H as (a & s1 & _ & H).
      apply bind_inr in H as (answer & s2 & _ & H).
      injection H as <- _. reflexivity.
  - unfold coaching_post. destruct (rejected_conversation _).
    + eexists _, _. split; [reflexivity|apply json_error_400_answered].
    + apply try_catch_answers. intros r s' H.
      apply bind_inr in H as (lines & s1 & _ & H).
      apply bind_inr in H as (a & s2 & _ & H).
      apply bind_inr in H as (answer & s3 & _ & H).
      injection H as <- _. reflexivity.
  - unfold knowledge_add_post. destruct (negb _).
    + eexists _, _. split; [reflexivity|apply json_error_400_answered].
    + apply try_catch_answers. intros r s' H.
      apply bind_inr in H as (chunks & s1 & _ & H).
      apply bind_inr in H as (u & s2 & _ & H).
      apply bind_inr in H as (records & s3 & _ & H).
      apply bind_inr in H as (u' & s4 & _ & H).
      injection H as <- _. reflexivity.
  - unfold knowledge_upload_post. destruct file as [f|].
    + apply try_catch_answers. intros r s' H.
      apply bind_inr in H as (text & s1 & _ & H).
      apply bind_inr in H as (u0 & s2 & _ & H).
      apply bind_inr in H as (u & s3 & _ & H).
      apply bind_inr in H as (records & s4 & _ & H).
      apply bind_inr in H as (u' & s5 & _ & H).
      injection H as <- _. reflexivity.
    + eexists _, _. split; [reflexivity|apply json_error_400_answered].
Qed.

End Answers.

(** ** Nothing is upserted before everything is embedded *)

Section AllOrNothing.
Context {P : Platform}.

Lemma embeds_app (e1 e2 : list event) : embeds (e1 ++ e2) = embeds e1 ++ embeds e2.
Proof.
  induction e1 as [|ev e1 IH]; simpl; [reflexivity|].
  destruct ev; simpl; rewrite ?IH; reflexivity.
Qed.

Lemma embeds_map_Upsert (issued : list (list (record vector))) :
  embeds (List.map Upsert issued) = [].
Proof. induction issued as [|b l IH]; simpl; [reflexivity|exact IH]. Qed.

(** A successful run of the record loop has embedded the chunks that are not
    blank, those and no others, in order. *)
Lemma build_records_embeds prefix label :
  forall chunks i s recs s',
    build_records prefix label i chunks s = (inr recs, s') ->
    exists evs,
      advance s s' evs
      /\ upserts evs = []
      /\ embeds evs
         = List.map JStr (List.filter (fun c => negb (JS.blank c)) chunks).
Proof.
  induction chunks as [|chunk rest IH]; intros i s recs s' H; simpl in H.
  - injection H as <- <-. exists []. split; [apply advance_refl|]. split; reflexivity.
  - destruct (JS.blank chunk) eqn:Hb.
    + destruct (IH _ _ _ _ H) as (evs & Ha & Hu & He).
      exists evs. simpl. rewrite Hb. simpl. repeat split; assumption.
    + apply bind_inr in H as (v & s1 & H1 & H).
      apply bind_inr in H as (t & s2 & H2 & H).
      apply bind_inr in H as (src & s3 & H3 & H).
      apply bind_inr in H as (recs' & s4 & H4 & H).
      injection H as <- <-.
      destruct (IH _ _ _ _ H4) as (evs & Ha & Hu & He).
      pose proof (call_advance (Embed (JStr chunk)) (embedQuery (JStr chunk)) s) as (A1 & _).
      rewrite H1 in A1. simpl in A1.
      destruct (now_inv _ _ _ H2) as (n & Hn & A2 & _).
      assert (A3 : exists e3, advance s2 s3 e3 /\ upserts e3 = [] /\ embeds e3 = []).
      { destruct (Json.truthy label).
        - injection H3 as <- <-. exists []. split; [apply advance_refl|]. split; reflexivity.
        - apply bind_inr in H3 as (t' & s2' & H3 & H3').
          injection H3' as <- <-.
          destruct (now_inv _ _ _ H3) as (n' & _ & A & _).
          exists [Clock n']. split; [exact A|]. split; reflexivity. }
      destruct A3 as (e3 & A3 & Hu3 & He3).
      exists ([Embed (JStr chunk)] ++ [Clock n] ++ e3 ++ evs).
      split; [|split].
      * eapply advance_trans; [exact A1|].
        eapply advance_trans; [exact A2|].
        eapply advance_trans; [exact A3|exact Ha].
      * simpl. rewrite upserts_app, Hu3, Hu. reflexivity.
      * simpl. rewrite embeds_app, He3, He, Hb. reflexivity.
Qed.

Lemma replay_app (e1 e2 : list event) (w : world) :
  replay (e1 ++ e2) w = replay e2 (replay e1 w).
Proof. unfold replay. apply fold_left_app. Qed.

Lemma replay_upserts (issued : list (list (record vector))) (w : world) :
  replay (List.map Upsert issued) w = world_after issued w.
Proof.
  revert w. induction issued as [|b l IH]; intros w; [reflexivity|].
  cbn [List.map]. unfold replay, world_after in *. cbn [fold_left]. apply IH.
Qed.

(** An [Embed] among events that begin with calls of another kind lies
    behind these. *)
Lemma embed_after_quiet (q pre post l : list event) (c : json) :
  embeds q = [] ->
  pre ++ Embed c :: post = q ++ l ->
  exists pre', pre = q ++ pre' /\ l = pre' ++ Embed c :: post.
Proof.
  revert pre. induction q as [|y q IH]; intros pre Hq H.
  - exists pre. split; [reflexivity|]. symmetry. exact H.
  - destruct pre as [|p pre].
    + cbn [app] in H. injection H as <- _. discriminate.
    + cbn [app] in H. injection H as -> H.
      assert (Hq' : embeds q = []) by (destruct y; [| |discriminate| | | | |]; exact Hq).
      destruct (IH pre Hq' H) as (pre' & -> & ->).
      exists pre'. split; reflexivity.
Qed.

(** An [Embed] among events that end with calls of another kind lies
    before these. *)
Lemma embed_before_quiet (pre post l q : list event) (c : json) :
  embeds q = [] ->
  pre ++ Embed c :: post = l ++ q ->
  exists post', l = pre ++ Embed c :: post' /\ post = post' ++ q.
Proof.
  intros Hq. revert l. induction pre as [|p pre IH]; intros l H.
  - destruct l as [|y l].
    + cbn [app] in H. rewrite <- H in Hq. discriminate.
    + cbn [app] in H. injection H as <- ->. exists l. split; reflexivity.
  - destruct l as [|y l].
    + cbn [app] in H. rewrite <- H in Hq.
      change (p :: pre ++ Embed c :: post) with ((p :: pre) ++ Embed c :: post) in Hq.
      rewrite embeds_app in Hq. apply app_eq_nil in Hq as [_ Hq]. discriminate.
    + cbn [app] in H. injection H as <- H.
      destruct (IH l H) as (post' & -> & ->). exists post'. split; reflexivity.
Qed.

(** The record loop, call by call.  Its world is the one its calls leave.
    An embedding that fails is the last call of the loop, and the loop
    throws what the embedding threw; the loop throws nothing else. *)
Lemma build_records_replay prefix label :
  forall chunks i s,
    exists evs,
      advance s (snd (build_records prefix label i chunks s)) evs
      /\ ext (snd (build_records prefix label i chunks s)) = replay evs (ext s)
      /\ (forall pre c post e,
            evs = pre ++ Embed c :: post ->
            fst (embedQuery c (replay pre (ext s))) = inl e ->
            post = [] /\ fst (build_records prefix label i chunks s) = inl e)
      /\ (forall e,
            fst (build_records prefix label i chunks s) = inl e ->
            exists pre c,
              evs = pre ++ [Embed c]
              /\ fst (embedQuery c (replay pre (ext s))) = inl e).
Proof.
  induction chunks as [|chunk rest IH]; intros i s.
  - exists []. cbn [build_records].
    split; [apply advance_refl|]. split; [reflexivity|]. split.
    + intros pre c post e H. destruct pre; discriminate.
    + intros e H. discriminate.
  - destruct (JS.blank chunk) eqn:Hb; [cbn [build_records]; rewrite Hb; apply IH|].
    remember (build_records prefix label i (chunk :: rest) s) as run eqn:Hrun.
    cbn [build_records] in Hrun. rewrite Hb in Hrun.
    unfold bind at 1, call in Hrun.
    destruct (embedQuery (JStr chunk) (ext s)) as [[e0|v] w1] eqn:E1.
    + subst run. exists [Embed (JStr chunk)]. cbn [fst snd ext trace].
      split; [reflexivity|]. split; [cbn; rewrite E1; reflexivity|]. split.
      * intros pre c post e H He.
        destruct pre as [|p pre]; [|destruct pre; discriminate].
        cbn [app] in H. injection H as <- <-. cbn in He. rewrite E1 in He.
        cbn [fst] in He. injection He as <-. split; reflexivity.
      * intros e H. injection H as <-. exists [], (JStr chunk).
        split; [reflexivity|]. cbn. rewrite E1. reflexivity.
    + unfold bind at 1, now in Hrun. cbn [ext files trace instance] in Hrun.
      destruct (date_now w1) as [t w2] eqn:E2.
      set (sb := {| ext := w2; files := files s;
                    trace := (trace s ++ [Embed (JStr chunk)]) ++ [Clock t];
                    instance := instance s |}) in Hrun.
      assert (Hsrc : exists src sc q,
                (if Json.truthy label then ret (default JNull label)
                 else t' <- now ;; ret (JStr (record_id prefix t' i))) sb = (inr src, sc)
                /\ advance sb sc q /\ embeds q = []
                /\ ext sc = replay q w2).
      { destruct (Json.truthy label).
        - exists (default JNull label), sb, []. split; [reflexivity|].
          split; [apply advance_refl|]. split; reflexivity.
        - unfold bind, now, ret. cbn [ext files trace instance sb].
          destruct (date_now w2) as [t' w3] eqn:E3.
          eexists _, _, [Clock t']. split; [reflexivity|].
          split; [reflexivity|]. split; [reflexivity|].
          cbn. rewrite E3. reflexivity. }
      destruct Hsrc as (src & sc & q & Hsrc & Aq & Hq & Hw).
      rewrite (bind_step _ _ _ _ _ Hsrc) in Hrun.
      destruct (IH (S i) sc) as (evs & Ha & Hext & Hfail & Hthrown).
      unfold bind at 1 in Hrun.
      assert (Hpre : replay ([Embed (JStr chunk)] ++ [Clock t] ++ q) (ext s) = ext sc).
      { rewrite !replay_app. cbn. rewrite E1. cbn. rewrite E2. cbn.
        symmetry. exact Hw. }
      assert (Hsplit : forall pre c post e',
                [Embed (JStr chunk)] ++ [Clock t] ++ q ++ evs = pre ++ Embed c :: post ->
                fst (embedQuery c (replay pre (ext s))) = inl e' ->
                post = [] /\ fst (build_records prefix label (S i) rest sc) = inl e').
      { intros pre c post e' H He.
        destruct pre as [|p pre].
        { cbn [app] in H. injection H as <- _. cbn in He. rewrite E1 in He.
          discriminate. }
        cbn [app] in H. injection H as <- H. symmetry in H.
        destruct (embed_after_quiet (Clock t :: q) pre post evs c Hq H)
          as (pre' & -> & Hevs).
        change (Embed (JStr chunk) :: (Clock t :: q) ++ pre')
          with (([Embed (JStr chunk)] ++ [Clock t] ++ q) ++ pre') in He.
        rewrite replay_app, Hpre in He.
        exact (Hfail _ _ _ _ Hevs He). }
      exists ([Embed (JStr chunk)] ++ [Clock t] ++ q ++ evs).
      destruct (build_records prefix label (S i) rest sc) as [[e|recs] sd];
        subst run; unfold ret; cbn [fst snd] in *.
      all: split;
        [unfold advance in *; rewrite Ha, Aq; cbn [sb trace];
         rewrite <- !app_assoc; reflexivity|].
      all: split;
        [rewrite Hext, <- Hpre, <- !replay_app, <- !app_assoc; reflexivity|].
      all: split.
      * exact Hsplit.
      * intros e' H. injection H as <-.
        destruct (Hthrown e eq_refl) as (pre & c & -> & He).
        exists (([Embed (JStr chunk)] ++ [Clock t] ++ q) ++ pre), c.
        split; [rewrite <- !app_assoc; reflexivity|].
        rewrite replay_app, Hpre. exact He.
      * intros pre c post e' H He.
        destruct (Hsplit _ _ _ _ H He) as [_ Hr]. discriminate.
      * intros e' H. discriminate.
Qed.

(** X2.  [POST /knowledge/add] embeds first and upserts afterwards: if a request
    has upserted anything at all, then before its first upsert it had
    embedded every paragraph of the text, in order.  A failing embedding
    leaves the index untouched: when a call to the embedding service of
    this request fails, in the world the calls before it have left, it is
    the last call of the request, nothing has been upserted, and the
    response is the 500 with what the embedding threw; no text is ingested
    in part because of it.  The world at the end of the request is the one
    its calls have left. *)
Theorem embedding_precedes_upserting (req_body : json)
    (t : jsstring) (s s' : state) (r : response) :
  Json.prop req_body (JS.lit "text") = Some (JStr t) ->
  knowledge_add_post req_body s = (inr r, s') ->
  (upserts (new_events s s') <> [] ->
   exists pre issued,
     new_events s s' = pre ++ List.map Upsert issued
     /\ upserts pre = []
     /\ embeds pre = List.map JStr (Spec.paragraphs t))
  /\ (forall pre c post e,
        new_events s s' = pre ++ Embed c :: post ->
        fst (embedQuery c (replay pre (ext s))) = inl e ->
        post = []
        /\ upserts (new_events s s') = []
        /\ r = internal_error e)
  /\ ext s' = replay (new_events s s') (ext s).
Proof.
  intros Ht Hrun.
  assert (Hnone : s' = s ->
    (upserts (new_events s s') <> [] ->
     exists pre issued,
       new_events s s' = pre ++ List.map Upsert issued
       /\ upserts pre = []
       /\ embeds pre = List.map JStr (Spec.paragraphs t))
    /\ (forall pre c post e,
          new_events s s' = pre ++ Embed c :: post ->
          fst (embedQuery c (replay pre (ext s))) = inl e ->
          post = [] /\ upserts (new_events s s') = [] /\ r = internal_error e)
    /\ ext s' = replay (new_events s s') (ext s)).
  { intros ->. unfold new_events. rewrite drop_all. split; [|split].
    - intros H. exfalso. apply H. reflexivity.
    - intros pre c post e H. destruct pre; discriminate.
    - reflexivity. }
  destruct t as [|c0 t0].
  { unfold knowledge_add_post in Hrun. rewrite Ht in Hrun. simpl in Hrun.
    injection Hrun as <- <-. apply Hnone. reflexivity. }
  rewrite (knowledge_add_run req_body (c0 :: t0) s Ht) in Hrun by discriminate.
  destruct pinecone_handle as [e|].
  { injection Hrun as <- <-. apply Hnone. reflexivity. }
  clear Hnone.
  set (label := Json.prop req_body (JS.lit "source")) in *.
  set (chunks := JS.split (JS.match_sep JS.blank_line) (c0 :: t0)) in *.
  destruct (build_records_quiet (JS.lit "manual") label chunks 0 s) as (evs0 & Ha0 & Hq0).
  destruct (build_records_replay (JS.lit "manual") label chunks 0 s)
    as (evs & Ha & Hext & Hfail & _).
  assert (evs0 = evs) as ->.
  { unfold advance in Ha0, Ha. rewrite Ha0 in Ha. exact (app_inv_head _ _ _ Ha). }
  destruct (build_records (JS.lit "manual") label 0 chunks s) as [[e|records] s1] eqn:Hb;
    cbn [fst snd] in *.
  { injection Hrun as <- <-. rewrite (new_events_advance _ _ _ Ha).
    split; [|split].
    - intros H. exfalso. exact (H Hq0).
    - intros pre c post e' H He. destruct (Hfail _ _ _ _ H He) as [Hpost Hr].
      injection Hr as <-. repeat split; [exact Hpost|exact Hq0].
    - exact Hext. }
  destruct (build_records_embeds _ _ _ _ _ _ _ Hb) as (evs' & Ha' & Hu & He).
  assert (evs' = evs) as ->.
  { unfold advance in Ha', Ha. rewrite Ha' in Ha. exact (app_inv_head _ _ _ Ha). }
  destruct (upsert_loop_run records (length records) 0 s1)
    as (issued & Ha2 & _ & Hext2 & _); [lia|].
  fold (upsert_batches records) in Ha2, Hext2.
  assert (Hs2 : s' = snd (upsert_batches records s1)).
  { destruct (upsert_batches records s1) as [[e|u] s2]; injection Hrun as _ <-; reflexivity. }
  rewrite <- Hs2 in Ha2, Hext2.
  rewrite (new_events_advance _ _ _ (advance_trans _ _ _ _ _ Ha Ha2)).
  split; [|split].
  - intros _. exists evs, issued. split; [reflexivity|]. split; [exact Hu|exact He].
  - intros pre c post e H Hc. symmetry in H.
    destruct (embed_before_quiet pre post evs (List.map Upsert issued) c
                (embeds_map_Upsert issued) H) as (post' & Hevs & _).
    destruct (Hfail _ _ _ _ Hevs Hc) as [_ Hr]. discriminate.
  - rewrite replay_app, replay_upserts, <- Hext. exact Hext2.
Qed.

End AllOrNothing.

(** Two paragraphs on a platform whose embedding service fails: the one
    call of the request is the embedding of the first paragraph, nothing is
    upserted, and the response is the 500 with the failure. *)
Lemma embedding_precedes_upserting_witness :
  new_events (Mock.start (Mock.platform false true None 1 []) (1700, 0%nat) ∅)
    (snd (@knowledge_add_post (Mock.platform false true None 1 [])
            (Mock.add_body Mock.scenario_text (JS.lit "x"))
            (Mock.start (Mock.platform false true None 1 []) (1700, 0%nat) ∅)))
  = [@Embed (Mock.platform false true None 1 []) (JStr (JS.lit "A"))]
  /\ @upserts (Mock.platform false true None 1 [])
       (new_events (Mock.start (Mock.platform false true None 1 []) (1700, 0%nat) ∅)
          (snd (@knowledge_add_post (Mock.platform false true None 1 [])
                  (Mock.add_body Mock.scenario_text (JS.lit "x"))
                  (Mock.start (Mock.platform false true None 1 []) (1700, 0%nat) ∅))))
     = []
  /\ fst (@knowledge_add_post (Mock.platform false true None 1 [])
            (Mock.add_body Mock.scenario_text (JS.lit "x"))
            (Mock.start (Mock.platform false true None 1 []) (1700, 0%nat) ∅))
     = inr (@internal_error (Mock.platform false true None 1 []) Mock.failure).
Proof.
  pose (P := Mock.platform false true None 1 []).
  pose (s0 := Mock.start P (1700, 0%nat) ∅).
  pose (run := @knowledge_add_post P (Mock.add_body Mock.scenario_text (JS.lit "x")) s0).
  destruct (@embedding_precedes_upserting P
              (Mock.add_body Mock.scenario_text (JS.lit "x"))
              Mock.scenario_text s0 (snd run)
              (Mock.value (json_error 0 []) (fst run)))
    as (_ & Hfail & _).
  - reflexivity.
  - vm_compute. reflexivity.
  - destruct (Hfail [] (JStr (JS.lit "A")) [] Mock.failure) as (_ & Hu & Hr).
    + vm_compute. reflexivity.
    + vm_compute. reflexivity.
    + split; [vm_compute; reflexivity|]. split; [exact Hu|].
      fold P. fold s0. fold run. 
      destruct (fst run) as [e|r] eqn:E; [vm_compute in E; discriminate|].
      cbn [Mock.value] in Hr. rewrite Hr. reflexivity.
Defined.

(** ** A failed initialisation stays *)

Section FailedStart.
Context {P : Platform}.

(** X3.  When [initChain] fails, every [POST /ask] with a question that the
    log line of the handler can render (every string is one) is answered
    500 with the error of the initialisation; the failed agent is kept as
    the instance, and the handler calls neither OpenAI nor Pinecone (the
    seeding task of the constructor runs on its own and is not part of the
    request).  The state the request leaves satisfies what the theorem asks
    of the state it starts in, so this holds of the first request and of all
    after it. *)
Theorem failed_initialisation_fails_every_ask (req_body : json) (s : state)
    (e : jserror) (shown : jsstring) :
  initChain = inl e ->
  Json.template raise (Json.prop req_body (JS.lit "question")) = inr shown ->
  Json.truthy (Json.prop req_body (JS.lit "question")) = true ->
  (forall a, instance s = Some a -> chainPromise a = initChain) ->
  exists s',
    ask_post req_body s = (inr (internal_error e), s')
    /\ instance s' = Some {| chainPromise := inl e |}
    /\ ext s' = ext s
    /\ Forall (fun ev => is_provider_call ev = false) (new_events s s').
Proof.
  intros Hinit Hshown Hq Hinv. unfold ask_post.
  rewrite (bind_step _ _ _ _ _ (log_question_renders _ shown s Hshown)).
  rewrite Hq. cbn [negb].
  unfold try_catch, bind, getInstance, new_SalesCoachAgent.
  destruct (instance s) as [a|] eqn:Hi.
  - specialize (Hinv a eq_refl). rewrite Hinit in Hinv.
    destruct a as [cp]. simpl in Hinv. subst cp.
    unfold ask, bind, lift. simpl.
    exists s. repeat split; try assumption.
    unfold new_events. rewrite drop_all. constructor.
  - rewrite Hinit. unfold ask, bind, lift. simpl.
    eexists. repeat split.
    unfold new_events. simpl. rewrite drop_app_length.
    repeat constructor.
Qed.

End FailedStart.

Lemma failed_initialisation_fails_every_ask_witness :
  exists s',
    @ask_post (Fixture.platform true (Some Mock.failure) [])
      (JObj [(JS.lit "question", JStr (JS.lit "hello"))])
      (Mock.start (Fixture.platform true (Some Mock.failure) []) 0 ∅)
    = (inr (@internal_error (Fixture.platform true (Some Mock.failure) []) Mock.failure), s')
    /\ instance s' = Some {| chainPromise := inl Mock.failure |}
    /\ ext s' = 0
    /\ Forall (fun ev => @is_provider_call (Fixture.platform true (Some Mock.failure) []) ev
                         = false)
         (new_events (Mock.start (Fixture.platform true (Some Mock.failure) []) 0 ∅) s').
Proof.
  apply (@failed_initialisation_fails_every_ask
           (Fixture.platform true (Some Mock.failure) [])
           (JObj [(JS.lit "question", JStr (JS.lit "hello"))])
           (Mock.start (Fixture.platform true (Some Mock.failure) []) 0 ∅)
           Mock.failure (JS.lit "hello")).
  - reflexivity.
  - reflexivity.
  - reflexivity.
  - intros a H. discriminate H.
Defined.

(** ** The in-memory server: what a failed start costs *)

Section MemoryStart.
Context {P : Platform}.
Variable dbPath : jsstring.

(** The [ask] of the in-memory agent is the [ask] above for a question its
    log line can render, and the error of the rendering otherwise. *)
Lemma memory_ask_rendered (a : agent) (question : json) (shown : jsstring)
    (s : state) :
  Json.to_string raise question = inr shown ->
  Memory.ask a question s = ask a question s.
Proof.
  intros H. unfold Memory.ask.
  rewrite (bind_step _ _ _ _ _ (log_question_renders (Some question) shown s H)).
  reflexivity.
Qed.

Lemma memory_ask_unrendered (a : agent) (question : json) (e : jserror) (s : state) :
  Json.to_string raise question = inl e ->
  Memory.ask a question s = (inl e, s).
Proof.
  intros H. unfold Memory.ask.
  rewrite (bind_fail _ _ _ _ _ (log_question_throws (Some question) e s H)).
  reflexivity.
Qed.

(** An agent is there: the request constructs nothing and does not read
    the seed file. *)
Lemma memory_ask_with_instance (req_body : json) (s : state) (a : agent) :
  instance s = Some a ->
  Json.truthy (Json.prop req_body (JS.lit "question")) = true ->
  Memory.ask_post dbPath req_body s
  = match Memory.ask a (default JNull (Json.prop req_body (JS.lit "question"))) s with
    | (inr answer, s') => (inr (ok (JObj [(JS.lit "answer", JStr answer)])), s')
    | (inl e, s') => (inr (internal_error e), s')
    end.
Proof.
  intros Hi Hq. unfold Memory.ask_post. rewrite Hq. cbn [negb].
  unfold try_catch, bind at 1, Memory.getInstance. rewrite Hi.
  unfold bind. destruct (Memory.ask a _ s) as [[e|answer] s']; reflexivity.
Qed.

(** A request that finds the agent with a failed promise. *)
Lemma memory_ask_failed_instance (req_body : json) (question : json)
    (s : state) (e : jserror) :
  instance s = Some {| chainPromise := inl e |} ->
  Json.prop req_body (JS.lit "question") = Some question ->
  Json.truthy (Some question) = true ->
  Memory.ask_post dbPath req_body s
  = (inr (internal_error match Json.to_string raise question with
                         | inr _ => e
                         | inl e' => e'
                         end), s).
Proof.
  intros Hi Hp Hq.
  rewrite (memory_ask_with_instance req_body s _ Hi) by (rewrite Hp; exact Hq).
  rewrite Hp. change (default JNull (Some question)) with question.
  destruct (Json.to_string raise question) as [e'|shown] eqn:Hs.
  - rewrite (memory_ask_unrendered _ _ _ _ Hs). reflexivity.
  - rewrite (memory_ask_rendered _ _ _ _ Hs). reflexivity.
Qed.

(** The first request of a process whose [initChain] fails at once, without
    a call. *)
Lemma memory_first_ask_failed_start (req_body : json) (question : json)
    (s : state) (e : jserror) :
  instance s = None ->
  Memory.initChain dbPath (record_event Construct s)
  = (inl e, record_event Construct s) ->
  Json.prop req_body (JS.lit "question") = Some question ->
  Json.truthy (Some question) = true ->
  exists s',
    Memory.ask_post dbPath req_body s
    = (inr (internal_error match Json.to_string raise question with
                           | inr _ => e
                           | inl e' => e'
                           end), s')
    /\ new_events s s' = [Construct]
    /\ files s' = files s
    /\ ext s' = ext s
    /\ instance s' = Some {| chainPromise := inl e |}.
Proof.
  intros Hi Hinit Hp Hq.
  unfold Memory.ask_post. rewrite Hp, Hq. cbn [negb].
  change (default JNull (Some question)) with question.
  unfold try_catch, bind at 1, bind at 1, Memory.getInstance,
    Memory.new_SalesCoachAgent.
  rewrite Hi, Hinit. cbn [record_event ext files trace instance].
  set (s1 := {| ext := ext s; files := files s; trace := trace s ++ [Construct];
                instance := Some {| chainPromise := inl e |} |}).
  exists s1.
  assert (Hev : new_events s s1 = [Construct]).
  { unfold new_events, s1. simpl. rewrite drop_app_length. reflexivity. }
  destruct (Json.to_string raise question) as [e'|shown] eqn:Hs.
  - rewrite (memory_ask_unrendered _ _ _ _ Hs). cbn.
    repeat split; try reflexivity. exact Hev.
  - rewrite (memory_ask_rendered _ _ _ _ Hs). unfold ask, bind, lift. cbn.
    repeat split; try reflexivity. exact Hev.
Qed.

(** X4.  Without [OPEN_API_KEY] the first [POST /ask] of the in-memory server
    constructs the agent; the seed file is neither looked for nor read and
    nothing is embedded.  For a question that the log line of [ask] can
    render (every string is one) the answer is 500 with the message
    ["OPEN_API_KEY is not set in environment variables."], an [Error]
    keeping the message it is made with.  The failed agent stays: a later
    request finds it, constructs nothing, and gets the same answer with no
    call at all.  A question that cannot be rendered gets the 500 of the
    rendering instead, first or later. *)
Theorem memory_server_without_key (req_body : json) (question : json)
    (shown : jsstring) (s : state) :
  (forall msg, message (raise (Raised msg)) = msg) ->
  open_api_key = false ->
  instance s = None ->
  Json.prop req_body (JS.lit "question") = Some question ->
  Json.to_string raise question = inr shown ->
  Json.truthy (Some question) = true ->
  exists r s',
    Memory.ask_post dbPath req_body s = (inr r, s')
    /\ status r = 500%nat
    /\ Json.prop (body r) (JS.lit "message") = Some (JStr Memory.key_missing)
    /\ new_events s s' = [Construct]
    /\ files s' = files s
    /\ (forall req_body' question' shown',
          Json.prop req_body' (JS.lit "question") = Some question' ->
          Json.to_string raise question' = inr shown' ->
          Json.truthy (Some question') = true ->
          Memory.ask_post dbPath req_body' s' = (inr r, s'))
    /\ (forall req_body' question' e',
          Json.prop req_body' (JS.lit "question") = Some question' ->
          Json.to_string raise question' = inl e' ->
          Json.truthy (Some question') = true ->
          Memory.ask_post dbPath req_body' s' = (inr (internal_error e'), s')
          /\ fst (Memory.ask_post dbPath req_body' s) = inr (internal_error e')).
Proof.
  intros Hmsg Hkey Hi Hp Hshown Hq.
  set (e := raise (Raised Memory.key_missing)).
  assert (Hinit : Memory.initChain dbPath (record_event Construct s)
                  = (inl e, record_event Construct s)).
  { unfold Memory.initChain. rewrite Hkey. reflexivity. }
  destruct (memory_first_ask_failed_start req_body question s e Hi Hinit Hp Hq)
    as (s' & Hrun & Hev & Hf & _ & Hinst).
  rewrite Hshown in Hrun.
  exists (internal_error e), s'. split; [exact Hrun|].
  destruct (internal_error_carries_message e) as [Hst Hm].
  split; [exact Hst|]. split; [rewrite Hm; unfold e; rewrite Hmsg; reflexivity|].
  split; [exact Hev|]. split; [exact Hf|]. split.
  - intros req_body' question' shown' Hp' Hs' Hq'.
    rewrite (memory_ask_failed_instance req_body' question' s' e Hinst Hp' Hq'), Hs'.
    reflexivity.
  - intros req_body' question' e' Hp' Hs' Hq'. split.
    + rewrite (memory_ask_failed_instance req_body' question' s' e Hinst Hp' Hq'), Hs'.
      reflexivity.
    + destruct (memory_first_ask_failed_start req_body' question' s e Hi Hinit Hp' Hq')
        as (s2 & Hrun2 & _).
      rewrite Hs' in Hrun2. rewrite Hrun2. reflexivity.
Qed.

(** X5.  With the key set and the seed file missing, the first [POST /ask]
    constructs the agent and nothing is read or embedded; for a question
    that the log line of [ask] can render the answer is 500 with the
    message [File not found: <path>], an [Error] keeping the message it is
    made with.  The failure is kept with the instance: whatever the disk
    holds later, the next requests of that kind get the same answer. *)
Theorem memory_server_without_seed_file (req_body : json) (question : json)
    (shown : jsstring) (s : state) :
  (forall msg, message (raise (Raised msg)) = msg) ->
  open_api_key = true ->
  files s !! dbPath = None ->
  instance s = None ->
  Json.prop req_body (JS.lit "question") = Some question ->
  Json.to_string raise question = inr shown ->
  Json.truthy (Some question) = true ->
  exists r s',
    Memory.ask_post dbPath req_body s = (inr r, s')
    /\ status r = 500%nat
    /\ Json.prop (body r) (JS.lit "message")
       = Some (JStr (JS.lit "File not found: " ++ dbPath))
    /\ new_events s s' = [Construct]
    /\ forall req_body' question' shown' disk,
         Json.prop req_body' (JS.lit "question") = Some question' ->
         Json.to_string raise question' = inr shown' ->
         Json.truthy (Some question') = true ->
         fst (Memory.ask_post dbPath req_body'
                {| ext := ext s'; files := disk; trace := trace s';
                   instance := instance s' |})
         = inr r.
Proof.
  intros Hmsg Hkey Hfile Hi Hp Hshown Hq.
  set (e := raise (Raised (Memory.file_not_found dbPath))).
  assert (Hinit : Memory.initChain dbPath (record_event Construct s)
                  = (inl e, record_event Construct s)).
  { unfold Memory.initChain. rewrite Hkey. cbn [record_event files].
    rewrite Hfile. reflexivity. }
  destruct (memory_first_ask_failed_start req_body question s e Hi Hinit Hp Hq)
    as (s' & Hrun & Hev & _ & _ & Hinst).
  rewrite Hshown in Hrun.
  exists (internal_error e), s'. split; [exact Hrun|].
  destruct (internal_error_carries_message e) as [Hst Hm].
  split; [exact Hst|].
  split; [rewrite Hm; unfold e; rewrite Hmsg; reflexivity|].
  split; [exact Hev|].
  intros req_body' question' shown' disk Hp' Hs' Hq'.
  rewrite (memory_ask_failed_instance req_body' question'
             {| ext := ext s'; files := disk; trace := trace s';
                instance := instance s' |} e Hinst Hp' Hq'), Hs'.
  reflexivity.
Qed.

(** The calls of a request that finds the in-memory agent with its chain. *)
Lemma memory_ask_events (req_body : json) (question : json) (shown : jsstring)
    (s : state) (seed : vector * Document) :
  instance s = Some {| chainPromise := inr (MemoryChain seed) |} ->
  Json.prop req_body (JS.lit "question") = Some question ->
  Json.to_string raise question = inr shown ->
  Json.truthy (Some question) = true ->
  new_events s (snd (Memory.ask_post dbPath req_body s))
  = [Embed question] ++
    match fst (embedQuery question (ext s)) with
    | inr _ => [Generate [snd seed] question]
    | inl _ => []
    end
  /\ instance (snd (Memory.ask_post dbPath req_body s)) = instance s.
Proof.
  intros Hi Hp Hs Hq.
  rewrite (memory_ask_with_instance req_body s _ Hi) by (rewrite Hp; exact Hq).
  rewrite Hp. change (default JNull (Some question)) with question.
  rewrite (memory_ask_rendered _ _ _ _ Hs).
  unfold ask, bind, lift, chain_call, bind, call. simpl.
  destruct (embedQuery question (ext s)) as [[e|v] w]; simpl.
  - unfold new_events. simpl. rewrite drop_app_length. split; reflexivity.
  - destruct (generate [snd seed] question w) as [[e|t] w']; simpl;
      unfold new_events; simpl; rewrite <- app_assoc, drop_app_length;
      split; reflexivity.
Qed.

(** X6.  The in-memory server reads and embeds its seed file once.  With the key
    set, the file there and its embedding granted, the first [POST /ask]
    constructs the agent, reads the file and embeds its content; if the log
    line of [ask] can render the question (every string is one), the
    question is embedded next.  The agent the request leaves holds the
    embedded seed, and a later request of that kind embeds its question and
    generates over that one seed document without constructing or reading
    anything.  A question that cannot be rendered is never embedded: the
    first request stops after the seed, a later one makes no call. *)
Theorem memory_server_reads_seed_once (req_body : json) (question : json)
    (s : state) (content : jsstring) (v : vector) (w : world) :
  open_api_key = true ->
  model_setup = None ->
  files s !! dbPath = Some content ->
  instance s = None ->
  embedQuery (JStr content) (ext s) = (inr v, w) ->
  Json.prop req_body (JS.lit "question") = Some question ->
  Json.truthy (Some question) = true ->
  let seed := (v, {| doc_content := content; doc_source := [] |}) in
  let s' := snd (Memory.ask_post dbPath req_body s) in
  match Json.to_string raise question with
  | inr _ =>
      take 4 (new_events s s')
      = [Construct; ReadFile dbPath; Embed (JStr content); Embed question]
  | inl e =>
      new_events s s' = [Construct; ReadFile dbPath; Embed (JStr content)]
      /\ fst (Memory.ask_post dbPath req_body s) = inr (internal_error e)
  end
  /\ instance s' = Some {| chainPromise := inr (MemoryChain seed) |}
  /\ (forall req_body' question' shown',
        Json.prop req_body' (JS.lit "question") = Some question' ->
        Json.to_string raise question' = inr shown' ->
        Json.truthy (Some question') = true ->
        new_events s' (snd (Memory.ask_post dbPath req_body' s'))
        = [Embed question'] ++
          match fst (embedQuery question' (ext s')) with
          | inr _ => [Generate [snd seed] question']
          | inl _ => []
          end)
  /\ (forall req_body' question' e',
        Json.prop req_body' (JS.lit "question") = Some question' ->
        Json.to_string raise question' = inl e' ->
        Json.truthy (Some question') = true ->
        Memory.ask_post dbPath req_body' s' = (inr (internal_error e'), s')).
Proof.
  intros Hkey Hmodel Hfile Hi Hembed Hp Hq seed s'.
  assert (Hinit :
    Memory.initChain dbPath (record_event Construct s)
    = (inr (MemoryChain seed),
       {| ext := w; files := files s;
          trace := ((trace s ++ [Construct]) ++ [ReadFile dbPath])
                   ++ [Embed (JStr content)];
          instance := instance s |})).
  { unfold Memory.initChain. rewrite Hkey. cbn [record_event files]. rewrite Hfile.
    unfold bind, readFileSync. cbn [files record_event]. rewrite Hfile.
    unfold call. cbn [ext record_event]. rewrite Hembed, Hmodel. reflexivity. }
  assert (Hfirst :
    match Json.to_string raise question with
    | inr _ =>
        take 4 (new_events s s')
        = [Construct; ReadFile dbPath; Embed (JStr content); Embed question]
    | inl e =>
        new_events s s' = [Construct; ReadFile dbPath; Embed (JStr content)]
        /\ fst (Memory.ask_post dbPath req_body s) = inr (internal_error e)
    end
    /\ instance s' = Some {| chainPromise := inr (MemoryChain seed) |}).
  { subst s'. remember (Memory.ask_post dbPath req_body s) as run eqn:Hrun.
    unfold Memory.ask_post in Hrun. rewrite Hp, Hq in Hrun. cbn [negb] in Hrun.
    change (default JNull (Some question)) with question in Hrun.
    unfold try_catch, bind at 1, bind at 1, Memory.getInstance,
      Memory.new_SalesCoachAgent in Hrun.
    rewrite Hi, Hinit in Hrun. cbn [ext files trace instance] in Hrun.
    destruct (Json.to_string raise question) as [e|shown] eqn:Hs.
    - rewrite (memory_ask_unrendered _ _ _ _ Hs) in Hrun. subst run. cbn.
      unfold new_events. cbn. rewrite <- !app_assoc, drop_app_length.
      repeat split.
    - rewrite (memory_ask_rendered _ _ _ _ Hs) in Hrun.
      unfold ask, lift, chain_call, bind, call in Hrun.
      cbn [chainPromise ext files trace instance] in Hrun.
      destruct (embedQuery question w) as [[e|v'] w1]; cbn in Hrun.
      + subst run. cbn. unfold new_events. cbn.
        rewrite <- !app_assoc, drop_app_length. split; reflexivity.
      + destruct (generate _ question w1) as [[e|t] w2]; cbn in Hrun; subst run; cbn;
          unfold new_events; cbn; rewrite <- !app_assoc, drop_app_length;
          split; reflexivity. }
  destruct Hfirst as [Hev Hinst].
  split; [exact Hev|]. split; [exact Hinst|]. split.
  - intros req_body' question' shown' Hp' Hs' Hq'.
    exact (proj1 (memory_ask_events req_body' question' shown' s' seed Hinst Hp' Hs' Hq')).
  - intros req_body' question' e' Hp' Hs' Hq'.
    rewrite (memory_ask_with_instance req_body' s' _ Hinst) by (rewrite Hp'; exact Hq').
    rewrite Hp'. change (default JNull (Some question')) with question'.
    rewrite (memory_ask_unrendered _ _ _ _ Hs'). reflexivity.
Qed.

End MemoryStart.

Lemma memory_server_without_key_witness :
  exists r s',
    @Memory.ask_post (Fixture.platform false None []) (JS.lit "data/test_knowledge.txt")
      (JObj [(JS.lit "question", JStr (JS.lit "hello"))])
      (Mock.start (Fixture.platform false None []) 0 ∅)
    = (inr r, s')
    /\ status r = 500%nat
    /\ Json.prop (body r) (JS.lit "message") = Some (JStr Memory.key_missing)
    /\ new_events (Mock.start (Fixture.platform false None []) 0 ∅) s' = [Construct].
Proof.
  destruct (@memory_server_without_key (Fixture.platform false None [])
              (JS.lit "data/test_knowledge.txt")
              (JObj [(JS.lit "question", JStr (JS.lit "hello"))])
              (JStr (JS.lit "hello")) (JS.lit "hello")
              (Mock.start (Fixture.platform false None []) 0 ∅))
    as (r & s' & Hrun & Hst & Hm & Hev & _).
  - intros msg. reflexivity.
  - reflexivity.
  - reflexivity.
  - reflexivity.
  - reflexivity.
  - reflexivity.
  - exists r, s'. repeat split; assumption.
Defined.

Lemma memory_server_without_seed_file_witness :
  exists r s',
    @Memory.ask_post (Fixture.platform true None []) (JS.lit "data/test_knowledge.txt")
      (JObj [(JS.lit "question", JStr (JS.lit "hello"))])
      (Mock.start (Fixture.platform true None []) 0 ∅)
    = (inr r, s')
    /\ status r = 500%nat
    /\ Json.prop (body r) (JS.lit "message")
       = Some (JStr (JS.lit "File not found: data/test_knowledge.txt"))
    /\ new_events (Mock.start (Fixture.platform true None []) 0 ∅) s' = [Construct].
Proof.
  destruct (@memory_server_without_seed_file (Fixture.platform true None [])
              (JS.lit "data/test_knowledge.txt")
              (JObj [(JS.lit "question", JStr (JS.lit "hello"))])
              (JStr (JS.lit "hello")) (JS.lit "hello")
              (Mock.start (Fixture.platform true None []) 0 ∅))
    as (r & s' & Hrun & Hst & Hm & Hev & _).
  - intros msg. reflexivity.
  - reflexivity.
  - reflexivity.
  - reflexivity.
  - reflexivity.
  - reflexivity.
  - reflexivity.
  - exists r, s'. repeat split; assumption.
Defined.

Lemma memory_server_reads_seed_once_witness :
  take 4
    (new_events
       (Mock.start (Fixture.platform true None []) 0
          {[ JS.lit "data/test_knowledge.txt" := JS.lit "seed" ]})
       (snd (@Memory.ask_post (Fixture.platform true None [])
               (JS.lit "data/test_knowledge.txt")
               (JObj [(JS.lit "question", JStr (JS.lit "hello"))])
               (Mock.start (Fixture.platform true None []) 0
                  {[ JS.lit "data/test_knowledge.txt" := JS.lit "seed" ]}))))
  = [Construct; ReadFile (JS.lit "data/test_knowledge.txt");
     Embed (JStr (JS.lit "seed")); Embed (JStr (JS.lit "hello"))].
Proof.
  apply (@memory_server_reads_seed_once (Fixture.platform true None [])
           (JS.lit "data/test_knowledge.txt")
           (JObj [(JS.lit "question", JStr (JS.lit "hello"))])
           (JStr (JS.lit "hello"))
           (Mock.start (Fixture.platform true None []) 0
              {[ JS.lit "data/test_knowledge.txt" := JS.lit "seed" ]})
           (JS.lit "seed") (JS.lit "seed") 0).
  - reflexivity.
  - reflexivity.
  - vm_compute. reflexivity.
  - reflexivity.
  - reflexivity.
  - reflexivity.
  - reflexivity.
Defined.

(** ** Seeding the index at start-up *)

Section Seeding.
Context {P : Platform}.

Lemma clock_readings_map_Upsert (issued : list (list (record vector))) :
  clock_readings (List.map Upsert issued) = [].
Proof. induction issued as [|b l IH]; simpl; [reflexivity|exact IH]. Qed.

(** The loop over the seed texts embeds every text, in order, blank or not,
    never reads the clock, and numbers the records from [i]. *)
Lemma default_records_inv :
  forall texts i s recs s',
    Knowledge.default_records i texts s = (inr recs, s') ->
    exists evs,
      advance s s' evs
      /\ upserts evs = []
      /\ clock_readings evs = []
      /\ embeds evs = List.map JStr texts
      /\ List.map id recs = List.map Knowledge.default_id (seq i (length texts))
      /\ List.map pageContent recs = texts
      /\ List.map source recs
         = List.map (fun k => JStr (Knowledge.default_id k)) (seq i (length texts)).
Proof.
  induction texts as [|text rest IH]; intros i s recs s' H; simpl in H.
  - injection H as <- <-. exists []. split; [apply advance_refl|]. repeat split.
  - apply bind_inr in H as (v & s1 & H1 & H).
    apply bind_inr in H as (recs' & s2 & H2 & H).
    injection H as <- <-.
    destruct (IH _ _ _ _ H2) as (evs & Ha & Hu & Hc & He & Hid & Hpc & Hsrc).
    pose proof (call_advance (Embed (JStr text)) (embedQuery (JStr text)) s) as (A1 & _).
    rewrite H1 in A1. simpl in A1.
    exists ([Embed (JStr text)] ++ evs). split; [|repeat split].
    + eapply advance_trans; eassumption.
    + exact Hu.
    + exact Hc.
    + simpl. rewrite He. reflexivity.
    + simpl. rewrite Hid. reflexivity.
    + simpl. rewrite Hpc. reflexivity.
    + simpl. rewrite Hsrc. reflexivity.
Qed.

Lemma default_records_quiet :
  forall texts i s,
    exists evs, advance s (snd (Knowledge.default_records i texts s)) evs
                /\ upserts evs = [].
Proof.
  induction texts as [|text rest IH]; intros i s; simpl.
  - exists []. split; [apply advance_refl|reflexivity].
  - unfold bind at 1.
    pose proof (call_advance (Embed (JStr text)) (embedQuery (JStr text)) s) as (A1 & _).
    destruct (call (Embed (JStr text)) (embedQuery (JStr text)) s) as [[e|v] s1]; simpl in *.
    + exists [Embed (JStr text)]. split; [exact A1|reflexivity].
    + unfold bind. destruct (IH (S i) s1) as (evs & Ha & Hu).
      destruct (Knowledge.default_records (S i) rest s1) as [[e|recs] s2]; simpl in *;
        (exists ([Embed (JStr text)] ++ evs);
         split; [eapply advance_trans; eassumption | exact Hu]).
Qed.

Lemma default_records_succeeds :
  (forall q w, exists v w', embedQuery q w = (inr v, w')) ->
  forall texts i s, exists recs s', Knowledge.default_records i texts s = (inr recs, s').
Proof.
  intros Hembed. induction texts as [|text rest IH]; intros i s; simpl.
  - eexists _, _. reflexivity.
  - unfold bind, call.
    destruct (Hembed (JStr text) (ext s)) as (v & w & Hv). rewrite Hv.
    match goal with |- context [Knowledge.default_records (S i) rest ?s1] =>
      destruct (IH (S i) s1) as (recs & s2 & Hr); rewrite Hr end.
    eexists _, _. reflexivity.
Qed.


Lemma NoDup_map_injective {A B} (f : A -> B) (l : list A) :
  (forall a b, f a = f b -> a = b) -> List.NoDup l -> List.NoDup (List.map f l).
Proof.
  intros Hf. induction 1 as [|x l Hx Hl IH]; simpl; constructor; [|exact IH].
  intros Hin. apply List.in_map_iff in Hin as (y & Hy & Hin).
  apply Hf in Hy. subst y. exact (Hx Hin).
Qed.

Lemma initialize_never_throws (s : state) :
  exists s', Knowledge.initializeWithDefaultKnowledge s = (inr tt, s').
Proof.
  unfold Knowledge.initializeWithDefaultKnowledge, try_catch.
  match goal with |- context [match ?m s with _ => _ end] =>
    destruct (m s) as [[e|[]] s1] end; eexists; reflexivity.
Qed.


(** X8.  An index that shows a document is left alone: when the probe of
    [retrieveKnowledge] comes back with at least one match,
    [checkAndInitializeKnowledge] stops there; it embeds the probe and
    nothing else, and upserts nothing. *)
Theorem existing_knowledge_is_not_reseeded (s s1 : state) (docs : list Document) :
  Knowledge.retrieveKnowledge s = (inr docs, s1) ->
  docs <> [] ->
  Knowledge.checkAndInitializeKnowledge s = (inr tt, s1)
  /\ upserts (new_events s s1) = []
  /\ embeds (new_events s s1) = [JStr Knowledge.probe].
Proof.
  intros Hr Hne. split.
  - unfold Knowledge.checkAndInitializeKnowledge, try_catch, bind. rewrite Hr.
    destruct docs; [contradiction|reflexivity].
  - unfold Knowledge.retrieveKnowledge in Hr.
    apply bind_inr in Hr as ([] & s0 & H0 & Hr).
    destruct pinecone_handle; [discriminate|]. injection H0 as <-.
    apply bind_inr in Hr as (v & s2 & H2 & Hr).
    apply bind_inr in Hr as (ms & s3 & H3 & Hr).
    unfold lift in Hr. injection Hr as _ <-.
    pose proof (call_advance (Embed (JStr Knowledge.probe))
                  (embedQuery (JStr Knowledge.probe)) s) as (A1 & _).
    rewrite H2 in A1. simpl in A1.
    pose proof (call_advance (Query v) (index_query v) s2) as (A2 & _).
    rewrite H3 in A2. simpl in A2.
    rewrite (new_events_advance _ _ _ (advance_trans _ _ _ _ _ A1 A2)).
    split; reflexivity.
Qed.

(** X9.  What the seeding writes.  With the index handle at hand and the
    embedding service answering, [initializeWithDefaultKnowledge] embeds the
    five seed texts in order and hands the index one batch of five records:
    the texts as contents, [default-knowledge-0] to [default-knowledge-4]
    as ids and as sources.  The ids are distinct and do not depend on the
    clock, which is never read: seeding again overwrites the same five
    records. *)
Theorem seeding_writes_the_default_records (s : state) :
  pinecone_handle = None ->
  (forall q w, exists v w', embedQuery q w = (inr v, w')) ->
  exists batch s',
    Knowledge.initializeWithDefaultKnowledge s = (inr tt, s')
    /\ upserts (new_events s s') = [batch]
    /\ embeds (new_events s s') = List.map JStr Knowledge.initialKnowledge
    /\ clock_readings (new_events s s') = []
    /\ List.map pageContent batch = Knowledge.initialKnowledge
    /\ List.map id batch = List.map Knowledge.default_id [0; 1; 2; 3; 4]%nat
    /\ List.map source batch
       = List.map (fun k => JStr (Knowledge.default_id k)) [0; 1; 2; 3; 4]%nat
    /\ List.NoDup (List.map id batch).
Proof.
  intros Hh Hembed.
  destruct (default_records_succeeds Hembed Knowledge.initialKnowledge 0 s)
    as (recs & s1 & Hrecs).
  destruct (default_records_inv _ _ _ _ _ Hrecs)
    as (evs & Ha & Hu & Hc & He & Hid & Hpc & Hsrc).
  assert (Hlen : length recs = 5%nat).
  { rewrite <- (length_map pageContent), Hpc. reflexivity. }
  destruct (initialize_never_throws s) as (s' & Hrun).
  assert (Hs' : s' = snd (upsert_batches recs s1)).
  { unfold Knowledge.initializeWithDefaultKnowledge, try_catch, bind in Hrun.
    rewrite Hh in Hrun. simpl check in Hrun. unfold ret at 1 in Hrun.
    rewrite Hrecs in Hrun.
    destruct (upsert_batches recs s1) as [[e|[]] s2]; inversion Hrun; reflexivity. }
  assert (Hup : advance s1 s' [Upsert recs]).
  { rewrite Hs'. unfold upsert_batches.
    destruct (upsert_loop_spec recs (length recs) 0 s1) as (issued & Hadv & Hshape & Hres);
      [lia|].
    assert (Hissued : issued = [recs]).
    { destruct issued as [|b0 [|b1 rest]].
      - exfalso. destruct (fst (upsert_loop (length recs) 0 recs s1)).
        + destruct Hres as (earlier & b & w & Heq & _). destruct earlier; discriminate.
        + simpl in Hres. rewrite drop_0 in Hres. rewrite <- Hres in Hlen. discriminate.
      - destruct (Hshape 0%nat b0 eq_refl) as [_ Hb0].
        rewrite Hb0. simpl. rewrite drop_0, take_ge; [reflexivity|].
        rewrite Hlen. unfold BATCH_SIZE. lia.
      - exfalso. destruct (Hshape 1%nat b1 eq_refl) as [Hlt _].
        rewrite Hlen in Hlt. unfold BATCH_SIZE in Hlt. lia. }
    rewrite Hissued in Hadv. exact Hadv. }
  exists recs, s'. split; [exact Hrun|].
  rewrite (new_events_advance _ _ _ (advance_trans _ _ _ _ _ Ha Hup)).
  rewrite upserts_app, embeds_app, clock_readings_app, Hu, He, Hc.
  repeat split; try assumption.
  - rewrite Hid. apply NoDup_map_injective; [|apply List.seq_NoDup].
    intros a b Hab. unfold Knowledge.default_id in Hab.
    apply app_inv_head in Hab. apply decimal_inj in Hab. lia.
Qed.

End Seeding.

Lemma existing_knowledge_is_not_reseeded_witness :
  @Knowledge.checkAndInitializeKnowledge
    (Fixture.platform true None [Fixture.stored (JS.lit "a text") (JS.lit "a source")])
    (Mock.start
       (Fixture.platform true None [Fixture.stored (JS.lit "a text") (JS.lit "a source")])
       0 ∅)
  = (inr tt,
     snd (@Knowledge.retrieveKnowledge
            (Fixture.platform true None
               [Fixture.stored (JS.lit "a text") (JS.lit "a source")])
            (Mock.start
               (Fixture.platform true None
                  [Fixture.stored (JS.lit "a text") (JS.lit "a source")]) 0 ∅))).
Proof.
  apply (@existing_knowledge_is_not_reseeded
           (Fixture.platform true None [Fixture.stored (JS.lit "a text") (JS.lit "a source")])
           (Mock.start
              (Fixture.platform true None
                 [Fixture.stored (JS.lit "a text") (JS.lit "a source")]) 0 ∅)
           _
           [{| doc_content := JS.lit "a text"; doc_source := JS.lit "a source" |}]).
  - vm_compute. reflexivity.
  - discriminate.
Defined.

Lemma seeding_writes_the_default_records_witness :
  exists batch s',
    @Knowledge.initializeWithDefaultKnowledge (Fixture.platform true None [])
      (Mock.start (Fixture.platform true None []) 0 ∅) = (inr tt, s')
    /\ @upserts (Fixture.platform true None [])
         (new_events (Mock.start (Fixture.platform true None []) 0 ∅) s') = [batch]
    /\ List.map pageContent batch = Knowledge.initialKnowledge.
Proof.
  destruct (@seeding_writes_the_default_records (Fixture.platform true None [])
              (Mock.start (Fixture.platform true None []) 0 ∅))
    as (batch & s' & Hrun & Hup & _ & _ & Hpc & _).
  - reflexivity.
  - intros q w. eexists _, _. reflexivity.
  - exists batch, s'. auto.
Defined.

(** ** Bodies of the wrong shape *)

Section WrongShape.
Context {P : Platform}.

Lemma map_result_app_fail {A B} (f : A -> result B) (pre : list A) (x : A)
    (post : list A) (ys : list B) (e : jserror) :
  map_result f pre = inr ys -> f x = inl e ->
  map_result f (pre ++ x :: post) = inl e.
Proof.
  revert ys. induction pre as [|a pre IH]; intros ys Hpre Hx; simpl.
  - rewrite Hx. reflexivity.
  - simpl in Hpre. destruct (f a) as [e'|b]; [discriminate|].
    destruct (map_result f pre) as [e'|bs] eqn:E; [discriminate|].
    rewrite (IH bs eq_refl Hx). reflexivity.
Qed.

(** X10.  A [null] among the messages: [POST /coaching] fails on reading
    [msg.speaker] of the first one and answers 500 with that error.  The
    messages are rendered before the agent is asked for, so nothing is
    constructed and no provider is called: the state is as before. *)
Theorem coaching_null_message (req_body : json) (pre post : list json)
    (lines : list jsstring) (s : state) :
  Json.prop req_body (JS.lit "conversation") = Some (JArr (pre ++ JNull :: post)) ->
  map_result render_message pre = inr lines ->
  coaching_post req_body s
  = (inr (internal_error (raise (NullProperty (JS.lit "speaker")))), s).
Proof.
  intros Hc Hpre. unfold coaching_post. rewrite Hc.
  assert (Hrej : rejected_conversation (Some (JArr (pre ++ JNull :: post))) = false).
  { unfold rejected_conversation. simpl. rewrite length_app. simpl.
    destruct (length pre); reflexivity. }
  rewrite Hrej. unfold try_catch, bind, lift. cbn [array_items].
  rewrite (map_result_app_fail render_message pre JNull post lines _ Hpre eq_refl).
  reflexivity.
Qed.

(** X11.  A [text] that is truthy and not a string (a number, [true], an array,
    an object) passes the check of [POST /knowledge/add] and fails at
    [text.split]: 500, with nothing embedded and nothing upserted. *)
Theorem knowledge_add_text_not_a_string (req_body : json) (v : json) (s : state) :
  Json.prop req_body (JS.lit "text") = Some v ->
  Json.truthy (Some v) = true ->
  (forall t, v <> JStr t) ->
  knowledge_add_post req_body s
  = (inr (internal_error (raise (NotCallable (JS.lit "text.split")))), s).
Proof.
  intros Hp Ht Hv. unfold knowledge_add_post. rewrite Hp, Ht. cbn [negb].
  unfold try_catch, bind, lift.
  destruct v; try reflexivity. exfalso. exact (Hv _ eq_refl).
Qed.

End WrongShape.

Lemma coaching_null_message_witness :
  @coaching_post (Mock.platform true true None 1 [])
    (JObj [(JS.lit "conversation",
            JArr [Mock.message_object (JS.lit "user") (JS.lit "hello"); JNull])])
    (Mock.start (Mock.platform true true None 1 []) (1700, 0%nat) ∅)
  = (inr (@internal_error (Mock.platform true true None 1 [])
            (@raise (Mock.platform true true None 1 [])
               (NullProperty (JS.lit "speaker")))),
     Mock.start (Mock.platform true true None 1 []) (1700, 0%nat) ∅).
Proof.
  apply (@coaching_null_message (Mock.platform true true None 1 [])
           (JObj [(JS.lit "conversation",
                   JArr [Mock.message_object (JS.lit "user") (JS.lit "hello"); JNull])])
           [Mock.message_object (JS.lit "user") (JS.lit "hello")] []
           [JS.lit "user: hello"]).
  - reflexivity.
  - reflexivity.
Defined.

Lemma knowledge_add_text_not_a_string_witness :
  @knowledge_add_post (Mock.platform true true None 1 [])
    (JObj [(JS.lit "text", JArr [JStr (JS.lit "A")])])
    (Mock.start (Mock.platform true true None 1 []) (1700, 0%nat) ∅)
  = (inr (@internal_error (Mock.platform true true None 1 [])
            (@raise (Mock.platform true true None 1 [])
               (NotCallable (JS.lit "text.split")))),
     Mock.start (Mock.platform true true None 1 []) (1700, 0%nat) ∅).
Proof.
  apply (@knowledge_add_text_not_a_string (Mock.platform true true None 1 [])
           (JObj [(JS.lit "text", JArr [JStr (JS.lit "A")])])
           (JArr [JStr (JS.lit "A")])).
  - reflexivity.
  - reflexivity.
  - intros t H. discriminate H.
Defined.

(** ** Ids and source labels across the ingestion routes *)

Section Routes.
Context {P : Platform}.

(** What a run of the two loops, records then batches, has upserted: records
    whose ids carry the prefix of the route. *)
Lemma ingest_ids (prefix : jsstring) (label : option json) (chunks : list jsstring)
    (s : state) :
  let s' := match build_records prefix label 0 chunks s with
            | (inr records, s1) => snd (upsert_batches records s1)
            | (inl _, s1) => s1
            end in
  exists stamps,
    List.map id (concat (upserts (new_events s s'))) = List.map (stamped prefix) stamps.
Proof.
  intros s'. subst s'.
  destruct (build_records_quiet prefix label chunks 0 s) as (evs0 & Ha0 & Hq0).
  destruct (build_records prefix label 0 chunks s) as [[e|records] s1] eqn:Hb.
  - simpl in Ha0. rewrite (new_events_advance _ _ _ Ha0), Hq0. exists []. reflexivity.
  - destruct (build_records_inv _ _ _ _ _ _ _ Hb)
      as (evs & stamps & Ha & Hq & _ & Hid & _ & _).
    destruct (upsert_loop_prefix records (length records) 0 s1)
      as (issued & k & Ha2 & Hpre).
    fold (upsert_batches records) in Ha2.
    rewrite (new_events_advance _ _ _ (advance_trans _ _ _ _ _ Ha Ha2)).
    rewrite upserts_app, Hq, upserts_map_Upsert. simpl.
    rewrite Hpre, drop_0. exists (take k stamps).
    rewrite <- !firstn_map, Hid. reflexivity.
Qed.

Lemma knowledge_add_prefix (req_body : json) (s : state) :
  exists stamps,
    List.map id (concat (upserts (new_events s (snd (knowledge_add_post req_body s)))))
    = List.map (stamped (JS.lit "manual")) stamps.
Proof.
  assert (Hnone : forall r, knowledge_add_post req_body s = (r, s) ->
    exists stamps,
      List.map id (concat (upserts (new_events s (snd (knowledge_add_post req_body s)))))
      = List.map (stamped (JS.lit "manual")) stamps).
  { intros r ->. exists []. simpl. unfold new_events. rewrite drop_all. reflexivity. }
  destruct (Json.prop req_body (JS.lit "text")) as [v|] eqn:Hp.
  2: { apply (Hnone (inr (json_error 400 Text.text_required))).
       unfold knowledge_add_post. rewrite Hp. reflexivity. }
  destruct (Json.truthy (Some v)) eqn:Ht.
  2: { apply (Hnone (inr (json_error 400 Text.text_required))).
       unfold knowledge_add_post. rewrite Hp, Ht. reflexivity. }
  assert (Hstr : (exists t, v = JStr t) \/ (forall t, v <> JStr t)).
  { destruct v; try (right; intros t' H; discriminate H). left. eauto. }
  destruct Hstr as [[t ->]|Hv].
  2: { apply (Hnone (inr (internal_error (raise (NotCallable (JS.lit "text.split")))))).
       unfold knowledge_add_post. rewrite Hp, Ht. cbn [negb].
       unfold try_catch, bind, lift.
       destruct v; try reflexivity. exfalso. exact (Hv _ eq_refl). }
  assert (Hne : t <> []) by (destruct t; [discriminate Ht|discriminate]).
  rewrite (knowledge_add_run req_body t s Hp Hne).
  destruct pinecone_handle as [e|].
  { exists []. simpl. unfold new_events. rewrite drop_all. reflexivity. }
  pose proof (ingest_ids (JS.lit "manual") (Json.prop req_body (JS.lit "source"))
                (JS.split (JS.match_sep JS.blank_line) t) s) as H.
  cbv zeta in H.
  destruct (build_records _ _ _ _ s) as [[e|records] s1]; [exact H|].
  destruct (upsert_batches records s1) as [[e|u] s2]; exact H.
Qed.

Lemma knowledge_upload_prefix (file : option upload) (s : state) :
  exists stamps,
    List.map id (concat (upserts (new_events s (snd (knowledge_upload_post file s)))))
    = List.map (stamped (JS.lit "file")) stamps.
Proof.
  destruct file as [f|].
  2: { exists []. simpl. unfold new_events. rewrite drop_all. reflexivity. }
  destruct (files s !! path f) as [content|] eqn:Hf.
  2: { exists []. unfold knowledge_upload_post, try_catch, bind, readFileSync.
       rewrite Hf. simpl. unfold new_events. simpl.
       rewrite drop_app_length. reflexivity. }
  rewrite (knowledge_upload_run f content s Hf).
  assert (Hun : advance s (after_unlink f s) [ReadFile (path f); Unlink (path f)]).
  { unfold advance, after_unlink. simpl. rewrite <- app_assoc. reflexivity. }
  destruct pinecone_handle as [e|].
  { exists []. simpl. rewrite (new_events_advance _ _ _ Hun). reflexivity. }
  pose proof (ingest_ids (JS.lit "file") (Some (JStr (originalname f)))
                (JS.split (JS.match_sep JS.blank_line) content) (after_unlink f s)) as H.
  cbv zeta in H.
  assert (Hshift : forall s',
    (exists evs, advance (after_unlink f s) s' evs) ->
    upserts (new_events s s') = upserts (new_events (after_unlink f s) s')).
  { intros s' [evs Hadv].
    rewrite (new_events_advance _ _ _ Hadv).
    rewrite (new_events_advance _ _ _ (advance_trans _ _ _ _ _ Hun Hadv)).
    reflexivity. }
  pose proof (tame_build_records (JS.lit "file") (Some (JStr (originalname f)))
                (JS.split (JS.match_sep JS.blank_line) content) 0%nat (after_unlink f s))
    as [_ [evs1 Hadv1]].
  destruct (build_records _ _ _ _ (after_unlink f s)) as [[e|records] s1].
  - simpl. simpl in Hadv1. rewrite (Hshift s1 (ex_intro _ evs1 Hadv1)). exact H.
  - simpl in Hadv1.
    pose proof (tame_upsert_loop records (length records) 0%nat s1) as [_ [evs2 Hadv2]].
    fold (upsert_batches records) in Hadv2.
    assert (Hall : exists evs, advance (after_unlink f s) (snd (upsert_batches records s1)) evs).
    { exists (evs1 ++ evs2). eapply advance_trans; eassumption. }
    destruct (upsert_batches records s1) as [[e|u] s2]; simpl in *;
      rewrite (Hshift s2 Hall); exact H.
Qed.

Lemma stamped_prefixes_differ (st st' : N * nat) (k : nat) :
  stamped (JS.lit "manual") st <> stamped (JS.lit "file") st'
  /\ stamped (JS.lit "manual") st <> Knowledge.default_id k
  /\ stamped (JS.lit "file") st' <> Knowledge.default_id k.
Proof. repeat split; intros H; discriminate H. Qed.

(** X12.  The routes cannot overwrite one another's records: an id upserted by
    [POST /knowledge/add] is never an id upserted by [POST /knowledge/upload],
    whatever the requests, the clock and the states they run in, and neither
    is ever the id of a seed record. *)
Theorem routes_never_share_an_id (req_body : json) (file : option upload)
    (s1 s2 : state) (added uploaded : jsstring) (k : nat) :
  In added
     (List.map id (concat (upserts (new_events s1 (snd (knowledge_add_post req_body s1)))))) ->
  In uploaded
     (List.map id
        (concat (upserts (new_events s2 (snd (knowledge_upload_post file s2)))))) ->
  added <> uploaded
  /\ added <> Knowledge.default_id k
  /\ uploaded <> Knowledge.default_id k.
Proof.
  intros Ha Hu.
  destruct (knowledge_add_prefix req_body s1) as (st1 & H1).
  destruct (knowledge_upload_prefix file s2) as (st2 & H2).
  rewrite H1 in Ha. rewrite H2 in Hu.
  apply List.in_map_iff in Ha as (a & <- & _).
  apply List.in_map_iff in Hu as (u & <- & _).
  apply stamped_prefixes_differ.
Qed.

(** X13.  The source label a record gets.  When the caller's label is truthy,
    every record carries it and the clock is read once per record.  When it
    is falsy, the clock is read twice per record, first for the id and then
    for the label: the label is [<prefix>-<t'>-<i>] with the second reading
    [t'], so it is the id of the record only if the two readings agree. *)
Theorem default_source_label (prefix : jsstring) (label : option json) :
  forall (chunks : list jsstring) (i : nat) (s s' : state)
         (recs : list (record vector)),
    build_records prefix label i chunks s = (inr recs, s') ->
    if Json.truthy label then
      Forall (fun r => Some (source r) = label) recs
      /\ length (clock_readings (new_events s s')) = length recs
    else
      exists stamps : list (N * N * nat),
        List.map id recs = List.map (fun st => record_id prefix (fst (fst st)) (snd st)) stamps
        /\ List.map source recs
           = List.map (fun st => JStr (record_id prefix (snd (fst st)) (snd st))) stamps
        /\ clock_readings (new_events s s')
           = flat_map (fun st => [fst (fst st); snd (fst st)]) stamps.
Proof.
  assert (Hgen : forall chunks i s s' recs,
    build_records prefix label i chunks s = (inr recs, s') ->
    exists evs, advance s s' evs /\
      if Json.truthy label then
        Forall (fun r => Some (source r) = label) recs
        /\ length (clock_readings evs) = length recs
      else
        exists stamps : list (N * N * nat),
          List.map id recs
          = List.map (fun st => record_id prefix (fst (fst st)) (snd st)) stamps
          /\ List.map source recs
             = List.map (fun st => JStr (record_id prefix (snd (fst st)) (snd st))) stamps
          /\ clock_readings evs = flat_map (fun st => [fst (fst st); snd (fst st)]) stamps).
  { induction chunks as [|chunk rest IH]; intros i s s' recs H; simpl in H.
    - injection H as <- <-. exists []. split; [apply advance_refl|].
      destruct (Json.truthy label); [split; [constructor|reflexivity]|].
      exists []. repeat split.
    - destruct (JS.blank chunk); [exact (IH _ _ _ _ H)|].
      apply bind_inr in H as (v & sa & H1 & H).
      apply bind_inr in H as (t & sb & H2 & H).
      apply bind_inr in H as (src & sc & H3 & H).
      apply bind_inr in H as (recs' & sd & H4 & H).
      injection H as <- <-.
      destruct (IH _ _ _ _ H4) as (evs & Ha & Hrest).
      pose proof (call_advance (Embed (JStr chunk)) (embedQuery (JStr chunk)) s) as (A1 & _).
      rewrite H1 in A1. simpl in A1.
      destruct (now_inv _ _ _ H2) as (n & Hn & A2 & _).
      injection Hn as ->.
      destruct (Json.truthy label) eqn:Hl.
      + injection H3 as <- <-.
        exists ([Embed (JStr chunk)] ++ [Clock n] ++ evs). split.
        * eapply advance_trans; [exact A1|]. eapply advance_trans; [exact A2|exact Ha].
        * destruct Hrest as [Hall Hlen]. split.
          -- constructor; [|exact Hall]. simpl.
             destruct label; [reflexivity|discriminate Hl].
          -- simpl. rewrite Hlen. reflexivity.
      + apply bind_inr in H3 as (t' & sb' & H3 & H3').
        injection H3' as <- <-.
        destruct (now_inv _ _ _ H3) as (n' & Hn' & A3 & _).
        injection Hn' as ->.
        exists ([Embed (JStr chunk)] ++ [Clock n] ++ [Clock n'] ++ evs). split.
        * eapply advance_trans; [exact A1|]. eapply advance_trans; [exact A2|].
          eapply advance_trans; [exact A3|exact Ha].
        * destruct Hrest as (stamps & Hid & Hsrc & Hclk).
          exists ((n, n', i) :: stamps). simpl. rewrite Hid, Hsrc, Hclk.
          repeat split. }
  intros chunks i s s' recs H.
  destruct (Hgen _ _ _ _ _ H) as (evs & Ha & Hres).
  rewrite (new_events_advance _ _ _ Ha). exact Hres.
Qed.

End Routes.

Lemma routes_never_share_an_id_witness :
  JS.lit "manual-1700-0" <> JS.lit "file-1700-0"
  /\ JS.lit "manual-1700-0" <> Knowledge.default_id 0
  /\ JS.lit "file-1700-0" <> Knowledge.default_id 0.
Proof.
  pose (P := Mock.platform true true None 1 []).
  apply (@routes_never_share_an_id P
           (Mock.add_body (JS.lit "A") (JS.lit "x"))
           (Some {| path := JS.lit "uploads/1"; originalname := JS.lit "notes.txt" |})
           (Mock.start P (1700, 0%nat) ∅)
           (Mock.start P (1700, 0%nat) {[ JS.lit "uploads/1" := JS.lit "B" ]})).
  - vm_compute. left. reflexivity.
  - vm_compute. left. reflexivity.
Defined.

Lemma default_source_label_witness :
  exists stamps : list (N * N * nat),
    [JS.lit "manual-1700-0"]
    = List.map (fun st => record_id (JS.lit "manual") (fst (fst st)) (snd st)) stamps
    /\ [JStr (JS.lit "manual-1701-0")]
       = List.map (fun st => JStr (record_id (JS.lit "manual") (snd (fst st)) (snd st)))
           stamps
    /\ [1700; 1701] = flat_map (fun st => [fst (fst st); snd (fst st)]) stamps.
Proof.
  pose (P := Mock.platform true true None 1 []).
  pose (s0 := Mock.start P (1700, 0%nat) ∅).
  pose (run := @build_records P (JS.lit "manual") None 0 [JS.lit "A"] s0).
  apply (@default_source_label P (JS.lit "manual") None [JS.lit "A"] 0%nat s0
           (snd run) (Mock.value [] (fst run))).
  vm_compute. reflexivity.
Defined.

(** ** The grounded path *)

Section Grounded.
Context {P : Platform}.

Lemma map_result_length {A B} (f : A -> result B) (l : list A) (ys : list B) :
  map_result f l = inr ys -> length ys = length l.
Proof.
  revert ys. induction l as [|x l IH]; intros ys H; simpl in H.
  - injection H as <-. reflexivity.
  - destruct (f x); [discriminate|].
    destruct (map_result f l); [discriminate|].
    injection H as <-. simpl. rewrite (IH _ eq_refl). reflexivity.
Qed.

(** X14.  When the retriever works, the answer of [POST /ask] to a question
    that the log line of the handler can render (every string is one) is
    generated over the documents of the matches and nothing else.  The
    request embeds the
    question, queries the index with that embedding and makes one
    generation call over one document per match, in the order the index
    gave; it constructs the agent only if there was none.  (The seeding
    task of the constructor runs on its own and is not part of the request.)
    The response is 200 with the generated text, or 500 with the error of
    the generation. *)
Theorem ask_generates_over_the_matches (req_body : json) (query : json)
    (shown : jsstring) (s : state) (v : vector) (w1 w2 : world)
    (ms : list pmatch) (docs : list Document) :
  agent_ready s ->
  Json.prop req_body (JS.lit "question") = Some query ->
  Json.to_string raise query = inr shown ->
  Json.truthy (Some query) = true ->
  embedQuery query (ext s) = (inr v, w1) ->
  index_query v w1 = (inr ms, w2) ->
  map_result document_of_match ms = inr docs ->
  length docs = length ms
  /\ new_events s (snd (ask_post req_body s))
     = (match instance s with None => [Construct] | Some _ => [] end)
       ++ [Embed query; Query v; Generate docs query]
  /\ fst (ask_post req_body s)
     = match fst (generate docs query w2) with
       | inr t => inr (ok (JObj [(JS.lit "answer", JStr t)]))
       | inl e => inr (internal_error e)
       end.
Proof.
  intros Hr Hp Hshown Hq He Hi Hd.
  split; [exact (map_result_length _ _ _ Hd)|].
  unfold ask_post. rewrite Hp.
  rewrite (bind_step _ _ _ _ _ (log_question_renders (Some query) shown s Hshown)).
  rewrite Hq. cbn [negb].
  change (default JNull (Some query)) with query.
  unfold agent_ready in Hr.
  unfold try_catch, bind, getInstance, new_SalesCoachAgent.
  destruct (instance s) as [a|] eqn:Hinst.
  - unfold ask, bind, lift. rewrite Hr.
    unfold chain_call, bind, getRelevantDocuments, try_catch, bind, call, lift.
    rewrite He. cbn [ext]. rewrite Hi, Hd. cbn [ext].
    destruct (generate docs query w2) as [[e|t] w3]; cbn;
      (split; [|reflexivity]);
      unfold new_events; cbn; rewrite <- !app_assoc, drop_app_length; reflexivity.
  - rewrite Hr. unfold ask, bind, lift. cbn [chainPromise].
    unfold chain_call, bind, getRelevantDocuments, try_catch, bind, call, lift.
    cbn [ext record_event]. rewrite He. cbn [ext]. rewrite Hi, Hd. cbn [ext].
    destruct (generate docs query w2) as [[e|t] w3]; cbn;
      (split; [|reflexivity]);
      unfold new_events; cbn; rewrite <- !app_assoc, drop_app_length; reflexivity.
Qed.

End Grounded.

Lemma ask_generates_over_the_matches_witness :
  new_events
    (Mock.start
       (Fixture.platform true None [Fixture.stored (JS.lit "a text") (JS.lit "a source")])
       0 ∅)
    (snd (@ask_post
            (Fixture.platform true None
               [Fixture.stored (JS.lit "a text") (JS.lit "a source")])
            (JObj [(JS.lit "question", JStr (JS.lit "hello"))])
            (Mock.start
               (Fixture.platform true None
                  [Fixture.stored (JS.lit "a text") (JS.lit "a source")]) 0 ∅)))
  = [Construct] ++
    [Embed (JStr (JS.lit "hello"));
     @Query (Fixture.platform true None
               [Fixture.stored (JS.lit "a text") (JS.lit "a source")]) (JS.lit "hello");
     Generate [{| doc_content := JS.lit "a text"; doc_source := JS.lit "a source" |}]
       (JStr (JS.lit "hello"))].
Proof.
  apply (@ask_generates_over_the_matches
           (Fixture.platform true None [Fixture.stored (JS.lit "a text") (JS.lit "a source")])
           (JObj [(JS.lit "question", JStr (JS.lit "hello"))])
           (JStr (JS.lit "hello")) (JS.lit "hello")
           (Mock.start
              (Fixture.platform true None
                 [Fixture.stored (JS.lit "a text") (JS.lit "a source")]) 0 ∅)
           (JS.lit "hello") 0 0
           [Fixture.stored (JS.lit "a text") (JS.lit "a source")]
           [{| doc_content := JS.lit "a text"; doc_source := JS.lit "a source" |}]).
  - reflexivity.
  - reflexivity.
  - reflexivity.
  - reflexivity.
  - reflexivity.
  - reflexivity.
  - vm_compute. reflexivity.
Defined.

(** ** What the client makes of the suggestions *)

Section Sorting.
Context {P : Platform}.

Lemma includes_any_mentions (kws : list jsstring) (x : jsstring) :
  Client.includes_any kws (JStr x) = inr (Buckets.mentions kws x).
Proof.
  induction kws as [|kw kws IH]; simpl; [reflexivity|].
  destruct (JS.includes kw x); [reflexivity|exact IH].
Qed.

Lemma for_each_filters (ss : list jsstring) :
  forall r,
    Client.for_each (List.map JStr ss) r
    = inr {| Client.questions :=
               Client.questions r
               ++ List.map JStr (List.filter (Buckets.mentions Buckets.question_words) ss);
             Client.nextSteps :=
               Client.nextSteps r
               ++ List.map JStr
                    (List.filter
                       (fun x => negb (Buckets.mentions Buckets.question_words x)
                                 && Buckets.mentions Buckets.next_words x) ss);
             Client.tips :=
               Client.tips r
               ++ List.map JStr
                    (List.filter
                       (fun x => negb (Buckets.mentions Buckets.question_words x)
                                 && negb (Buckets.mentions Buckets.next_words x)) ss) |}.
Proof.
  induction ss as [|x ss IH]; intros r.
  - simpl. rewrite !app_nil_r. destruct r; reflexivity.
  - cbn [List.map Client.for_each]. unfold Client.push_suggestion.
    fold Buckets.question_words. fold Buckets.next_words.
    rewrite (includes_any_mentions Buckets.question_words x).
    cbn [List.filter].
    destruct (Buckets.mentions Buckets.question_words x) eqn:Hq.
    + rewrite IH. cbn. rewrite <- !app_assoc. reflexivity.
    + rewrite (includes_any_mentions Buckets.next_words x).
      destruct (Buckets.mentions Buckets.next_words x) eqn:Hn.
      * rewrite IH. cbn. rewrite <- !app_assoc. reflexivity.
      * rewrite IH. cbn. rewrite <- !app_assoc. reflexivity.
Qed.

(** X15.  [categorize] on strings, in full.  If some suggestion mentions a question
    keyword, the three lists are the suggestions that mention one, those
    of the rest that mention a next-step keyword, and what is left, each in
    the order given.  If none does, the keyword pass is thrown away, also
    for the next-step keywords: the lists are the first [ceil(n/3)]
    suggestions, the next [ceil(n/3)] and the remaining ones. *)
Theorem categorize_by_keyword_or_position (ss : list jsstring) :
  Client.categorize (List.map JStr ss)
  = inr (if existsb (Buckets.mentions Buckets.question_words) ss then
           {| Client.questions :=
                List.map JStr (List.filter (Buckets.mentions Buckets.question_words) ss);
              Client.nextSteps :=
                List.map JStr
                  (List.filter
                     (fun x => negb (Buckets.mentions Buckets.question_words x)
                               && Buckets.mentions Buckets.next_words x) ss);
              Client.tips :=
                List.map JStr
                  (List.filter
                     (fun x => negb (Buckets.mentions Buckets.question_words x)
                               && negb (Buckets.mentions Buckets.next_words x)) ss) |}
         else
           let third := Client.ceil_third (length ss) in
           {| Client.questions := List.map JStr (take third ss);
              Client.nextSteps := List.map JStr (take third (drop third ss));
              Client.tips := List.map JStr (drop (third * 2) ss) |}).
Proof.
  unfold Client.categorize. rewrite for_each_filters. cbn [Client.questions Client.empty_set app].
  rewrite !length_map.
  assert (Hex : Nat.eqb (length (List.filter (Buckets.mentions Buckets.question_words) ss)) 0
                = negb (existsb (Buckets.mentions Buckets.question_words) ss)).
  { induction ss as [|x ss IH]; [reflexivity|]. cbn [List.filter existsb].
    destruct (Buckets.mentions Buckets.question_words x); [reflexivity|exact IH]. }
  rewrite Hex.
  destruct (existsb (Buckets.mentions Buckets.question_words) ss); cbn [negb].
  - reflexivity.
  - cbv zeta. f_equal.
    set (third := Client.ceil_third (length ss)).
    rewrite slice_from_drop.
    replace (third * 2)%nat with (third + third)%nat by lia.
    rewrite (slice_take_drop third third).
    change (JS.slice 0 third (List.map JStr ss))
      with (JS.slice 0 (0 + third) (List.map JStr ss)).
    rewrite (slice_take_drop 0 third), drop_0.
    rewrite <- !firstn_map, <- !skipn_map. reflexivity.
Qed.

End Sorting.

(** ** The browser side: [askApi] *)

Section Browser.
Context {P : Platform}.

(** [POST /ask] with a string as question: the log line goes through, the
    empty string is turned away, and any other question is put to the
    agent. *)
Lemma ask_post_string (question : jsstring) (s : state) :
  ask_post (JObj [(JS.lit "question", JStr question)]) s
  = match question with
    | [] => (inr (json_error 400 Text.missing_question), s)
    | _ =>
        match getInstance s with
        | (inr a, s1) =>
            match ask a (JStr question) s1 with
            | (inr t, s2) => (inr (ok (JObj [(JS.lit "answer", JStr t)])), s2)
            | (inl e, s2) => (inr (internal_error e), s2)
            end
        | (inl e, s1) => (inr (internal_error e), s1)
        end
    end.
Proof.
  unfold ask_post. rewrite prop_single.
  rewrite (bind_step _ _ _ _ _
             (log_question_renders (Some (JStr question)) question s eq_refl)).
  destruct question as [|c q]; [reflexivity|].
  cbn [Json.truthy negb]. change (default JNull (Some (JStr (c :: q)))) with (JStr (c :: q)).
  unfold try_catch, bind.
  destruct (getInstance s) as [[e|a] s1]; [reflexivity|].
  destruct (ask a (JStr (c :: q)) s1) as [[e|t] s2]; reflexivity.
Qed.

Lemma read_answer_ok (t : jsstring) :
  UI.read_answer (ok (JObj [(JS.lit "answer", JStr t)])) = JObj [(JS.lit "answer", JStr t)].
Proof. reflexivity. Qed.

Lemma read_answer_400 (msg : jsstring) :
  UI.read_answer (json_error 400 msg)
  = UI.failure_object (JS.lit "API request failed with status 400: ").
Proof. reflexivity. Qed.

Lemma read_answer_500 (e : jserror) :
  UI.read_answer (internal_error e)
  = UI.failure_object (JS.lit "API request failed with status 500: " ++ message e).
Proof.
  unfold UI.read_answer, UI.request_failed.
  change (Client.response_ok (internal_error e)) with false. cbv iota.
  destruct (internal_error_carries_message e) as [_ Hm]. rewrite Hm.
  destruct (message e) as [|c m]; reflexivity.
Qed.

(** X16.  [askApi] never throws, and what it returns is settled by the server.
    For the empty question, which the server turns away before it touches
    the agent, it is the failure object for status 400, and the state is as
    it was.  For any other question the server takes the agent and asks it
    that very question: if the agent answers [t], [askApi] returns
    [{ answer: t }]; if it fails with an error, [askApi] returns the
    failure object for status 500 with the message of that error. *)
Theorem askApi_answer_or_error (question : jsstring) (s : state) :
  question <> [] ->
  (exists a s1,
     getInstance s = (inr a, s1)
     /\ UI.askApi question s
        = match ask a (JStr question) s1 with
          | (inr t, s2) => (inr (JObj [(JS.lit "answer", JStr t)]), s2)
          | (inl e, s2) =>
              (inr (UI.failure_object
                      (JS.lit "API request failed with status 500: " ++ message e)),
               s2)
          end)
  /\ UI.askApi [] s
     = (inr (UI.failure_object (JS.lit "API request failed with status 400: ")), s).
Proof.
  intros Hne. split.
  - destruct (getInstance_total s) as (a & s1 & Hg). exists a, s1.
    split; [exact Hg|].
    unfold UI.askApi. rewrite ask_post_string.
    destruct question as [|c q]; [contradiction|]. rewrite Hg.
    destruct (ask a (JStr (c :: q)) s1) as [[e|t] s2].
    + rewrite read_answer_500. reflexivity.
    + rewrite read_answer_ok. reflexivity.
  - unfold UI.askApi. rewrite ask_post_string. rewrite read_answer_400. reflexivity.
Qed.

End Browser.

Lemma askApi_answer_or_error_witness :
  @UI.askApi (Mock.platform true true None 1 (JS.lit "an answer")) (JS.lit "hello")
    (Mock.start (Mock.platform true true None 1 (JS.lit "an answer")) (1700, 0%nat) ∅)
  = (inr (JObj [(JS.lit "answer", JStr (JS.lit "an answer"))]),
     snd (@ask_post (Mock.platform true true None 1 (JS.lit "an answer"))
            (JObj [(JS.lit "question", JStr (JS.lit "hello"))])
            (Mock.start (Mock.platform true true None 1 (JS.lit "an answer"))
               (1700, 0%nat) ∅))).
Proof.
  destruct (@askApi_answer_or_error (Mock.platform true true None 1 (JS.lit "an answer"))
              (JS.lit "hello")
              (Mock.start (Mock.platform true true None 1 (JS.lit "an answer"))
                 (1700, 0%nat) ∅))
    as [(a & s1 & Hg & Hrun) _].
  - discriminate.
  - rewrite Hrun. vm_compute in Hg. injection Hg as <- <-. vm_compute. reflexivity.
Defined.

(** ** The browser side: the summary *)

Section Summary.
Context {P : Platform}.

Lemma chunk_loop_spec (l : list jsstring) :
  forall fuel i,
    (length l <= i + fuel)%nat ->
    concat (UI.chunk_loop fuel i l) = drop i l
    /\ forall j c, UI.chunk_loop fuel i l !! j = Some c ->
         (i + 5 * j < length l)%nat /\ c = take 5 (drop (i + 5 * j) l).
Proof.
  induction fuel as [|fuel IH]; intros i Hlen; cbn [UI.chunk_loop].
  - split; [|intros j c H; destruct j; discriminate H].
    symmetry. apply drop_ge. lia.
  - destruct (Nat.ltb i (length l)) eqn:Hlt.
    + apply Nat.ltb_lt in Hlt.
      destruct (IH (i + 5)%nat) as [Hc Hj]; [lia|].
      rewrite slice_take_drop. split.
      * cbn [concat]. rewrite Hc. rewrite <- (drop_drop l), take_drop. reflexivity.
      * intros [|j] c H; cbn in H.
        -- injection H as <-. rewrite Nat.mul_0_r, Nat.add_0_r. split; [exact Hlt|reflexivity].
        -- destruct (Hj j c H) as [H1 H2].
           replace (i + 5 * S j)%nat with (i + 5 + 5 * j)%nat by lia.
           split; assumption.
    + apply Nat.ltb_ge in Hlt. split; [|intros j c H; destruct j; discriminate H].
      symmetry. apply drop_ge. exact Hlt.
Qed.

(** X17.  The summary requests cover the user's messages: the chunks are the
    consecutive runs of five messages (the last one may be shorter, none is
    empty), and put end to end they are the messages, each once and in
    order. *)
Theorem summary_chunks_partition (userMessages : list jsstring) :
  concat (UI.messageChunks userMessages) = userMessages
  /\ (forall j c, UI.messageChunks userMessages !! j = Some c ->
        c = take 5 (drop (5 * j) userMessages)
        /\ (1 <= length c <= 5)%nat)
  /\ (length (UI.messageChunks userMessages) * 5 < length userMessages + 5)%nat.
Proof.
  unfold UI.messageChunks.
  destruct (chunk_loop_spec userMessages (length userMessages) 0) as [Hc Hj]; [lia|].
  rewrite drop_0 in Hc. split; [exact Hc|]. split.
  - intros j c H. destruct (Hj j c H) as [Hlt ->]. rewrite Nat.add_0_l in *.
    split; [reflexivity|]. rewrite length_take, length_drop. lia.
  - set (chunks := UI.chunk_loop (length userMessages) 0 userMessages) in *.
    destruct (length chunks) as [|n] eqn:Hn; [lia|].
    destruct (lookup_lt_is_Some_2 chunks n) as [c Hcn]; [lia|].
    destruct (Hj n c Hcn) as [Hlt _]. lia.
Qed.

(** X18.  With no message of the user there is nothing to summarise: the fixed
    text is shown and no request is sent.  With one to five of them there
    is one request, whose prompt is the heading, a blank line and the
    messages joined by line breaks; its answer is shown as it is, and when
    the request failed the panel is left as it was.  No second request
    combines anything. *)
Theorem summary_of_a_short_conversation (messages : list UI.Message) (s : state) :
  let userMessages :=
    List.map UI.text
      (List.filter (fun msg => bool_decide (UI.speaker msg = JS.lit "user")) messages) in
  (length userMessages <= 5)%nat ->
  UI.generateSummary messages s
  = match userMessages with
    | [] => (inr (UI.Shown (Some (JStr UI.nothing_to_summarize))), s)
    | _ =>
        match UI.askApi (UI.summarize_head ++ JS.blank_line
                         ++ JS.join [JS.nl] userMessages) s with
        | (inr response, s') =>
            (inr (if Json.truthy (Json.prop response (JS.lit "error")) then UI.Unchanged
                  else UI.Shown (Json.prop response (JS.lit "answer"))), s')
        | (inl _, s') => (inr (UI.Shown (Some (JStr UI.summary_failed))), s')
        end
    end.
Proof.
  intros userMessages Hlen. unfold UI.generateSummary. fold userMessages.
  destruct userMessages as [|m ms] eqn:Hum; [reflexivity|].
  cbn [length Nat.eqb].
  assert (Hchunks : UI.messageChunks (m :: ms) = [m :: ms]).
  { unfold UI.messageChunks.
    destruct (chunk_loop_spec (m :: ms) (length (m :: ms)) 0) as [Hc Hj]; [lia|].
    rewrite drop_0 in Hc.
    destruct (UI.chunk_loop (length (m :: ms)) 0 (m :: ms)) as [|c0 [|c1 rest]].
    - discriminate Hc.
    - simpl in Hc. rewrite app_nil_r in Hc. rewrite Hc. reflexivity.
    - exfalso. destruct (Hj 1%nat c1 eq_refl) as [Hlt _]. simpl in Hlt, Hlen. lia. }
  rewrite Hchunks. unfold try_catch, bind at 1. cbn [UI.summarize].
  unfold bind at 1.
  destruct (UI.askApi _ s) as [[e|response] s']; [reflexivity|].
  unfold bind, ret.
  destruct (Json.truthy (Json.prop response (JS.lit "error"))); reflexivity.
Qed.

(** X19.  A failing agent goes unreported by the summary.  When [initChain] has
    failed, every request of [generateSummary] comes back as a failure
    object, no summary is collected, and the function ends without calling
    [setResult]: the panel shows neither a summary nor an error.  The
    handlers of these requests call no provider. *)
Theorem summary_is_silent_when_the_agent_failed (messages : list UI.Message)
    (s : state) (e : jserror) :
  initChain = inl e ->
  (forall a, instance s = Some a -> chainPromise a = initChain) ->
  Exists (fun msg => UI.speaker msg = JS.lit "user") messages ->
  exists s',
    UI.generateSummary messages s = (inr UI.Unchanged, s')
    /\ ext s' = ext s
    /\ Forall (fun ev => is_provider_call ev = false) (new_events s s').
Proof.
  intros Hinit Hinv Hex.
  assert (Hask : forall q s0,
    (forall a, instance s0 = Some a -> chainPromise a = initChain) ->
    exists v s1 evs,
      UI.askApi q s0 = (inr v, s1)
      /\ Json.truthy (Json.prop v (JS.lit "error")) = true
      /\ (forall a, instance s1 = Some a -> chainPromise a = initChain)
      /\ ext s1 = ext s0
      /\ advance s0 s1 evs
      /\ Forall (fun ev => is_provider_call ev = false) evs).
  { intros q s0 Hinv0. unfold UI.askApi. rewrite ask_post_string.
    destruct q as [|c q].
    - simpl. eexists _, _, []. split; [reflexivity|].
      repeat split; try assumption; try apply advance_refl; constructor.
    - unfold getInstance, new_SalesCoachAgent.
      destruct (instance s0) as [a|] eqn:Hi.
      + pose proof (Hinv0 a eq_refl) as Ha. rewrite Hinit in Ha.
        unfold ask, bind, lift. rewrite Ha. unfold ret.
        eexists _, s0, []. split; [reflexivity|].
        rewrite read_answer_500.
        split; [reflexivity|]. split; [rewrite Hi; exact Hinv0|].
        split; [reflexivity|]. split; [apply advance_refl|constructor].
      + unfold ask, bind, lift. cbn [chainPromise]. rewrite Hinit. unfold ret.
        eexists _, _, [Construct]. split; [reflexivity|].
        rewrite read_answer_500.
        split; [reflexivity|]. split.
        { cbn. intros a Ha. injection Ha as <-. reflexivity. }
        split; [reflexivity|]. split; [reflexivity|repeat constructor]. }
  assert (Hsum : forall chunks s0,
    (forall a, instance s0 = Some a -> chainPromise a = initChain) ->
    exists s1 evs,
      UI.summarize chunks s0 = (inr [], s1)
      /\ ext s1 = ext s0
      /\ advance s0 s1 evs
      /\ Forall (fun ev => is_provider_call ev = false) evs).
  { induction chunks as [|chunk rest IH]; intros s0 Hinv0; cbn [UI.summarize].
    - exists s0, []. split; [reflexivity|]. split; [reflexivity|].
      split; [apply advance_refl|constructor].
    - destruct (Hask (UI.summarize_head ++ JS.blank_line ++ JS.join [JS.nl] chunk) s0 Hinv0)
        as (v & s1 & evs1 & Hrun & Herr & Hinv1 & Hext1 & Hadv1 & Hq1).
      destruct (IH s1 Hinv1) as (s2 & evs2 & Hrun2 & Hext2 & Hadv2 & Hq2).
      exists s2, (evs1 ++ evs2). unfold bind. rewrite Hrun, Hrun2. unfold ret.
      rewrite Herr. split; [reflexivity|]. split; [congruence|].
      split; [eapply advance_trans; eassumption|].
      apply Forall_app. split; assumption. }
  unfold UI.generateSummary.
  set (userMessages := List.map UI.text _).
  assert (Hne : Nat.eqb (length userMessages) 0 = false).
  { subst userMessages. rewrite length_map.
    induction Hex as [msg l Hm|msg l _ IH]; cbn [List.filter].
    - rewrite bool_decide_true by exact Hm. reflexivity.
    - destruct (bool_decide (UI.speaker msg = JS.lit "user")); [reflexivity|exact IH]. }
  rewrite Hne.
  destruct (Hsum (UI.messageChunks userMessages) s Hinv)
    as (s1 & evs & Hrun & Hext & Hadv & Hq).
  exists s1. unfold try_catch, bind. rewrite Hrun. cbn.
  split; [reflexivity|]. split; [exact Hext|].
  rewrite (new_events_advance _ _ _ Hadv). exact Hq.
Qed.

End Summary.

Lemma summary_of_a_short_conversation_witness :
  fst (@UI.generateSummary (Mock.platform true true None 1 (JS.lit "a summary"))
         [ {| UI.speaker := JS.lit "user"; UI.text := JS.lit "hello" |};
           {| UI.speaker := JS.lit "ai"; UI.text := JS.lit "welcome" |};
           {| UI.speaker := JS.lit "user"; UI.text := JS.lit "a price, please" |} ]
         (Mock.start (Mock.platform true true None 1 (JS.lit "a summary")) (1700, 0%nat) ∅))
  = inr (UI.Shown (Some (JStr (JS.lit "a summary")))).
Proof.
  rewrite (@summary_of_a_short_conversation
             (Mock.platform true true None 1 (JS.lit "a summary"))).
  - vm_compute. reflexivity.
  - vm_compute. lia.
Defined.

Lemma summary_is_silent_when_the_agent_failed_witness :
  exists s',
    @UI.generateSummary (Fixture.platform true (Some Mock.failure) [])
      [ {| UI.speaker := JS.lit "user"; UI.text := JS.lit "hello" |} ]
      (Mock.start (Fixture.platform true (Some Mock.failure) []) 0 ∅)
    = (inr UI.Unchanged, s').
Proof.
  destruct (@summary_is_silent_when_the_agent_failed
              (Fixture.platform true (Some Mock.failure) [])
              [ {| UI.speaker := JS.lit "user"; UI.text := JS.lit "hello" |} ]
              (Mock.start (Fixture.platform true (Some Mock.failure) []) 0 ∅)
              Mock.failure) as (s' & Hrun & _).
  - reflexivity.
  - intros a H. discriminate H.
  - constructor. reflexivity.
  - exists s'. exact Hrun.
Defined.

(** ** The browser side: the knowledge form *)

Section Form.
Context {P : Platform}.

Lemma all_space_join (sep : jsstring) (l : list jsstring) :
  Spec.all_space sep -> Forall Spec.all_space l -> Spec.all_space (JS.join sep l).
Proof.
  intros Hsep. induction 1 as [|x l Hx Hl IH]; [constructor|].
  destruct l as [|y l]; [exact Hx|].
  change (JS.join sep (x :: y :: l)) with (x ++ sep ++ JS.join sep (y :: l)).
  apply all_space_app. split; [exact Hx|].
  apply all_space_app. split; [exact Hsep|exact IH].
Qed.

(** A text that is not blank has a paragraph that is not blank. *)
Lemma nonblank_has_paragraph (t : jsstring) :
  JS.blank t = false -> Spec.paragraphs t <> [].
Proof.
  intros Hb Hnil.
  assert (Hall : Forall Spec.all_space (JS.split (JS.match_sep JS.blank_line) t)).
  { unfold Spec.paragraphs in Hnil.
    induction (JS.split (JS.match_sep JS.blank_line) t) as [|seg segs IH]; [constructor|].
    simpl in Hnil. destruct (JS.blank seg) eqn:Hs; [|discriminate Hnil].
    constructor; [apply blank_all_space; exact Hs|exact (IH Hnil)]. }
  assert (Hsep : Spec.all_space JS.blank_line) by (repeat constructor).
  pose proof (all_space_join _ _ Hsep Hall) as Hj.
  rewrite join_split in Hj by discriminate.
  apply blank_all_space in Hj. congruence.
Qed.

(** X20.  The knowledge form and the server, end to end.  A text that is not
    blank passes the check of the form and the check of the server; with
    the index at hand and the providers answering, the form then shows the
    server's count of added documents, which is the number of non-blank
    paragraphs of the text and at least one, clears both inputs and shows no
    error. *)
Theorem text_form_reports_the_paragraphs (f : UI.form) (s : state) :
  JS.blank (UI.f_text f) = false ->
  pinecone_handle = None ->
  (forall q w, exists v w', embedQuery q w = (inr v, w')) ->
  (forall b w, exists w', index_upsert b w = (inr tt, w')) ->
  exists s',
    UI.handleTextSubmit f s
    = (inr {| UI.f_text := [];
              UI.f_source := [];
              UI.f_message :=
                Some (JStr (JS.decimal (N.of_nat (length (Spec.paragraphs (UI.f_text f))))
                            ++ Text.documents_added));
              UI.f_error := Some (JStr []) |}, s')
    /\ (1 <= length (Spec.paragraphs (UI.f_text f)))%nat
    /\ List.map pageContent (concat (upserts (new_events s s')))
       = Spec.paragraphs (UI.f_text f).
Proof.
  intros Hb Hh Hembed Hup.
  set (t := UI.f_text f) in *.
  set (req_body := JObj [(JS.lit "text", JStr t); (JS.lit "source", JStr (UI.f_source f))]).
  assert (Hp : Json.prop req_body (JS.lit "text") = Some (JStr t)) by reflexivity.
  assert (Hne : t <> []) by (intros E; rewrite E in Hb; discriminate Hb).
  unfold UI.handleTextSubmit. fold t. rewrite Hb. fold req_body.
  rewrite (knowledge_add_run req_body t s Hp Hne), Hh.
  destruct (build_records_succeeds (JS.lit "manual") (Json.prop req_body (JS.lit "source"))
              Hembed (JS.split (JS.match_sep JS.blank_line) t) 0 s) as (recs & s1 & Hrecs).
  rewrite Hrecs.
  destruct (build_records_inv _ _ _ _ _ _ _ Hrecs) as (evs & _ & Ha & Hq & Hc & _).
  change (List.map pageContent recs = Spec.paragraphs t) in Hc.
  pose proof (upsert_loop_succeeds recs Hup (length recs) 0 s1) as Hok.
  destruct (upsert_loop_spec recs (length recs) 0 s1) as (issued & Ha2 & _ & Hres); [lia|].
  fold (upsert_batches recs) in Hok, Ha2, Hres.
  destruct (upsert_batches recs s1) as [[e|[]] s2]; [discriminate Hok|].
  simpl in Ha2, Hres. rewrite drop_0 in Hres.
  assert (Hlen : length recs = length (Spec.paragraphs t)).
  { rewrite <- Hc, length_map. reflexivity. }
  exists s2. split; [|split].
  - rewrite Hlen. reflexivity.
  - pose proof (nonblank_has_paragraph t Hb) as Hnp.
    destruct (Spec.paragraphs t); [contradiction|simpl; lia].
  - rewrite (new_events_advance _ _ _ (advance_trans _ _ _ _ _ Ha Ha2)).
    rewrite upserts_app, Hq, upserts_map_Upsert. simpl. rewrite Hres. exact Hc.
Qed.

End Form.

Lemma text_form_reports_the_paragraphs_witness :
  fst (@UI.handleTextSubmit (Mock.platform true true None 1 [])
         {| UI.f_text := Mock.scenario_text; UI.f_source := [];
            UI.f_message := None; UI.f_error := None |}
         (Mock.start (Mock.platform true true None 1 []) (1700, 0%nat) ∅))
  = inr {| UI.f_text := []; UI.f_source := [];
           UI.f_message := Some (JStr (JS.lit "2" ++ Text.documents_added));
           UI.f_error := Some (JStr []) |}.
Proof.
  destruct (@text_form_reports_the_paragraphs (Mock.platform true true None 1 [])
              {| UI.f_text := Mock.scenario_text; UI.f_source := [];
                 UI.f_message := None; UI.f_error := None |}
              (Mock.start (Mock.platform true true None 1 []) (1700, 0%nat) ∅))
    as (s' & Hrun & _).
  - reflexivity.
  - reflexivity.
  - intros q w. eexists _, _. reflexivity.
  - intros b w. eexists. reflexivity.
  - rewrite Hrun. reflexivity.
Defined.

(** ** The browser side: coaching suggestions *)

Section Coaching.
Context {P : Platform}.

(** X21.  [getCoachingSuggestions] never throws, and its result is one of two
    things: the categorisation of exactly the suggestions the server sent
    with a 200, or the one-line failure placeholder.  The empty conversation
    is a failure of this kind: the server turns it away, nothing is asked
    of the agent, and the placeholder is shown rather than three empty
    lists. *)
Theorem coaching_client_result (conversation : list json) (s : state) :
  exists set s',
    Client.getCoachingSuggestions conversation s = (inr set, s')
    /\ (set = Client.failed_set
        \/ exists suggestions,
             coaching_post (JObj [(JS.lit "conversation", JArr conversation)]) s
             = (inr (ok (suggestions_body suggestions)), s')
             /\ Client.categorize (List.map JStr suggestions) = inr set)
    /\ (conversation = [] -> set = Client.failed_set /\ s' = s).
Proof.
  unfold Client.getCoachingSuggestions.
  set (req_body := JObj [(JS.lit "conversation", JArr conversation)]).
  assert (Hp : Json.prop req_body (JS.lit "conversation") = Some (JArr conversation))
    by reflexivity.
  destruct conversation as [|x items].
  { unfold coaching_post. rewrite Hp. simpl.
    eexists _, _. split; [reflexivity|]. split; [left; reflexivity|].
    intros _. split; reflexivity. }
  unfold coaching_post. rewrite Hp.
  change (rejected_conversation (Some (JArr (x :: items)))) with false. cbv iota.
  unfold try_catch.
  match goal with |- context [match ?m s with _ => _ end] =>
    destruct (m s) as [[e|r] s'] eqn:E end.
  - eexists _, _. split; [reflexivity|]. split; [left; reflexivity|].
    intros H. discriminate H.
  - apply bind_inr in E as (lines & s0 & _ & E).
    apply bind_inr in E as (a & s1 & _ & E).
    apply bind_inr in E as (answer & s2 & _ & E).
    injection E as <- <-.
    destruct (categorize_strings (parse_suggestions answer)) as (set & Hset & _).
    exists set, s2. split; [|split].
    + unfold ret, Client.read_response.
      change (Client.response_ok (ok (suggestions_body (parse_suggestions answer))))
        with true. cbv iota.
      unfold ok, suggestions_body. cbn [body]. rewrite prop_single, Hset. reflexivity.
    + right. exists (parse_suggestions answer). split; [reflexivity|exact Hset].
    + intros H. discriminate H.
Qed.

End Coaching.

(** ** The minutes form *)

Section MinutesRows.
Import Minutes.

Lemma splice1_length_out {A} (index : nat) (l : list A) :
  (length l <= index)%nat -> splice1 index l = l.
Proof.
  intros H. unfold splice1.
  rewrite take_ge by exact H. rewrite drop_ge by lia. apply app_nil_r.
Qed.

Lemma splice1_nil {A} (index : nat) : splice1 index (@nil A) = [].
Proof. unfold splice1. rewrite take_nil, drop_nil. reflexivity. Qed.

Lemma splice1_last {A} (l : list A) (x : A) : splice1 (length l) (l ++ [x]) = l.
Proof.
  unfold splice1. rewrite take_app_length.
  rewrite drop_ge by (rewrite length_app; simpl; lia). apply app_nil_r.
Qed.

Lemma rows_alter (section : jsstring) (d : MinutesData) (h : heap)
    (g : list row -> list row) (ref : nat) (blank : row) :
  section_array section d = Some (ref, blank) ->
  g [] = [] ->
  rows section d (alter g ref h) = g (rows section d h).
Proof.
  intros Hs Hg. unfold rows. rewrite Hs, lookup_alter_eq.
  destruct (h !! ref); simpl; [reflexivity|symmetry; exact Hg].
Qed.

(** X22.  [addItem] and [removeItem] work on the arrays of the previous state.
    The state object they return is a new one, yet the rows it shows are
    shown by the previous object as well: after [addItem] the previous
    state has the new row too.  So running the same updater a second time
    on the same previous state, as React does in strict mode, adds a second
    row. *)
Theorem minutes_updaters_mutate_the_previous_state (section : jsstring)
    (prev : MinutesData) (h : heap) (ref : nat) (blank : row) (l : list row) :
  section_array section prev = Some (ref, blank) ->
  h !! ref = Some l ->
  let (next, h1) := addItem section prev h in
  let (next', h2) := addItem section prev h1 in
  rows section prev h = l
  /\ rows section next h1 = l ++ [blank]
  /\ rows section prev h1 = l ++ [blank]
  /\ rows section next' h2 = l ++ [blank; blank]
  /\ rows section next h2 = l ++ [blank; blank].
Proof.
  intros Hs Hl. unfold addItem. rewrite Hs.
  unfold rows. rewrite Hs, !lookup_alter_eq, Hl. simpl.
  rewrite <- app_assoc. repeat split.
Qed.

(** X23.  Removing and adding undo each other at the end of a section: a row
    added and then removed at the last index leaves the rows as they were.
    [removeItem] with an index past the end removes nothing, and neither
    updater does anything for a section name it does not know. *)
Theorem minutes_add_then_remove (section : jsstring) (prev : MinutesData) (h : heap) :
  let n := length (rows section prev h) in
  let (d1, h1) := addItem section prev h in
  let (d2, h2) := removeItem section n d1 h1 in
  rows section d2 h2 = rows section prev h
  /\ (forall index, (n <= index)%nat ->
        rows section prev (snd (removeItem section index prev h)) = rows section prev h)
  /\ (section_array section prev = None ->
      addItem section prev h = (prev, h)
      /\ forall index, removeItem section index prev h = (prev, h)).
Proof.
  intros n. subst n. unfold addItem, removeItem.
  destruct (section_array section prev) as [[ref blank]|] eqn:Hs.
  - rewrite Hs. split; [|split].
    + rewrite (rows_alter section prev _ (splice1 _) ref blank Hs) by apply splice1_nil.
      unfold rows at 2 3. rewrite Hs, lookup_alter_eq.
      destruct (h !! ref) as [l|] eqn:Hl; simpl.
      * unfold rows. rewrite Hs, Hl. simpl. apply splice1_last.
      * unfold rows. rewrite Hs, Hl. reflexivity.
    + intros index Hi. simpl.
      rewrite (rows_alter section prev h (splice1 index) ref blank Hs) by
        apply splice1_nil.
      apply splice1_length_out. exact Hi.
    + intros H. discriminate H.
  - rewrite Hs. split; [reflexivity|]. split.
    + intros index _. reflexivity.
    + intros _. split; [reflexivity|]. intros index. reflexivity.
Qed.

End MinutesRows.

Lemma minutes_updaters_mutate_the_previous_state_witness :
  let prev :=
    {| Minutes.date := []; Minutes.startTime := []; Minutes.endTime := [];
       Minutes.location := [];
       Minutes.participants := 0; Minutes.absentees := 1; Minutes.agendaItems := 2;
       Minutes.agreements := 3; Minutes.concerns := 4; Minutes.actionItems := 5;
       Minutes.nextSteps := 6; Minutes.otherMatters := [];
       Minutes.nextMeeting :=
         {| Minutes.nm_date := []; Minutes.nm_time := []; Minutes.nm_location := [];
            Minutes.nm_agenda := [] |};
       Minutes.creator := []; Minutes.creationDate := [] |} in
  let h : Minutes.heap := {[ 1%nat := [Minutes.Line []] ]} in
  Minutes.rows (JS.lit "absentees") prev
    (snd (Minutes.addItem (JS.lit "absentees") prev h))
  = [Minutes.Line []; Minutes.Line []].
Proof.
  intros prev h.
  pose proof (minutes_updaters_mutate_the_previous_state (JS.lit "absentees") prev h
                1%nat (Minutes.Line []) [Minutes.Line []] eq_refl eq_refl) as H.
  destruct (Minutes.addItem (JS.lit "absentees") prev h) as [next h1].
  destruct (Minutes.addItem (JS.lit "absentees") prev h1) as [next' h2].
  destruct H as (_ & _ & H & _). exact H.
Defined.

(** ** One pipeline for all requests *)

Section OnePipeline.
Context {P : Platform}.

(** X24.  The integrated server under any interleaving of arriving requests,
    settling promises and resuming handlers: the pipeline has been built
    once if some request got as far as asking for the agent and not at all
    otherwise; every request waiting in [ask] waits for that one promise;
    and all requests that were resumed saw the same outcome of it.  A
    request gets that far when it passes the check of its handler and, on
    [/ask], the log line before the check could render its question. *)
Theorem integrated_server_builds_one_pipeline (labels : list Lifecycle.label) :
  let s := Lifecycle.run Lifecycle.Integrated labels in
  Lifecycle.constructions s
  = (if Nat.eqb (accepted_posts Lifecycle.Integrated labels) 0 then 0 else 1)%nat
  /\ (forall req h, In (req, h) (Lifecycle.awaiting s) -> h = 0%nat)
  /\ (forall req h o req' h' o',
        In (req, h, o) (Lifecycle.resumed s) ->
        In (req', h', o') (Lifecycle.resumed s) ->
        h = h' /\ o = o').
Proof.
  intros s. subst s. split; [apply integrated_constructions|].
  destruct (integrated_single_pipeline labels) as [Hinv _].
  destruct Hinv as [(_ & _ & Ha & Hr) | (_ & p & _ & Ha & Hr)].
  - rewrite Ha, Hr. split; intros; contradiction.
  - split; [exact Ha|].
    intros req h o req' h' o' H1 H2.
    destruct (Hr _ _ _ H1) as [-> E1]. destruct (Hr _ _ _ H2) as [-> E2].
    split; [reflexivity|congruence].
Qed.


End OnePipeline.


(** ** An uploaded file, paragraph by paragraph *)

Section UploadedText.
Context {P : Platform}.

(** X26.  [POST /knowledge/upload] with the file on disk, the index at hand and
    the providers answering: the response is the 200 that counts the
    non-blank paragraphs of the file's content, and the records upserted
    are those paragraphs, one record each, in order.  A file of white space
    only is answered 200 with the count 0, nothing embedded and nothing
    upserted. *)
Theorem upload_one_record_per_paragraph (f : upload) (content : jsstring) (s : state) :
  files s !! path f = Some content ->
  pinecone_handle = None ->
  (forall q w, exists v w', embedQuery q w = (inr v, w')) ->
  (forall b w, exists w', index_upsert b w = (inr tt, w')) ->
  exists s',
    knowledge_upload_post (Some f) s
    = (inr (ok (added_body (length (Spec.paragraphs content)))), s')
    /\ List.map pageContent (concat (upserts (new_events s s')))
       = Spec.paragraphs content
    /\ embeds (new_events s s') = List.map JStr (Spec.paragraphs content)
    /\ (Spec.all_space content ->
        new_events s s' = [ReadFile (path f); Unlink (path f)]).
Proof.
  intros Hf Hh Hembed Hup.
  rewrite (knowledge_upload_run f content s Hf), Hh.
  assert (Hun : advance s (after_unlink f s) [ReadFile (path f); Unlink (path f)]).
  { unfold advance, after_unlink. simpl. rewrite <- app_assoc. reflexivity. }
  destruct (build_records_succeeds (JS.lit "file") (Some (JStr (originalname f)))
              Hembed (JS.split (JS.match_sep JS.blank_line) content) 0 (after_unlink f s))
    as (recs & s1 & Hrecs).
  rewrite Hrecs.
  destruct (build_records_inv _ _ _ _ _ _ _ Hrecs) as (evs & _ & Ha & Hq & Hc & _).
  destruct (build_records_embeds _ _ _ _ _ _ _ Hrecs) as (evs' & Ha' & _ & He).
  assert (evs' = evs) as ->.
  { unfold advance in Ha, Ha'. rewrite Ha in Ha'. apply app_inv_head in Ha'.
    symmetry. exact Ha'. }
  change (List.map pageContent recs = Spec.paragraphs content) in Hc.
  change (embeds evs = List.map JStr (Spec.paragraphs content)) in He.
  pose proof (upsert_loop_succeeds recs Hup (length recs) 0 s1) as Hok.
  destruct (upsert_loop_spec recs (length recs) 0 s1) as (issued & Ha2 & Hshape & Hres);
    [lia|].
  fold (upsert_batches recs) in Hok, Ha2, Hres.
  destruct (upsert_batches recs s1) as [[e|[]] s2]; [discriminate Hok|].
  simpl in Ha2, Hres. rewrite drop_0 in Hres.
  assert (Hlen : length recs = length (Spec.paragraphs content)).
  { rewrite <- Hc, length_map. reflexivity. }
  pose proof (new_events_advance _ _ _
                (advance_trans _ _ _ _ _ Hun (advance_trans _ _ _ _ _ Ha Ha2))) as Hev.
  exists s2. split; [rewrite Hlen; reflexivity|].
  rewrite Hev. split; [|split].
  - rewrite !upserts_app, Hq, upserts_map_Upsert. simpl. rewrite Hres. exact Hc.
  - rewrite !embeds_app, He, embeds_map_Upsert. simpl. apply app_nil_r.
  - intros Hsp. rewrite (paragraphs_of_blank content Hsp) in Hc, He.
    destruct recs; [|discriminate Hc].
    assert (Hevs : evs = []).
    { clear -Hrecs Hsp Ha.
      assert (Hall : Forall (fun c => JS.blank c = true)
                       (JS.split (JS.match_sep JS.blank_line) content)).
      { apply List.Forall_forall. intros seg Hin. apply blank_all_space.
        apply List.Forall_forall. intros c Hc.
        pose proof (proj1 (List.Forall_forall _ _) Hsp) as H.
        apply H. exact (split_go_units _ _ _ _ Hin c Hc). }
      assert (Hsame : forall chunks i s0,
        Forall (fun c => JS.blank c = true) chunks ->
        build_records (JS.lit "file") (Some (JStr (originalname f))) i chunks s0
        = (inr [], s0)).
      { induction chunks as [|c chunks IH]; intros i s0 Hb; [reflexivity|].
        inversion Hb as [|? ? Hc Hrest]; subst. simpl. rewrite Hc. apply IH. exact Hrest. }
      rewrite (Hsame _ _ _ Hall) in Hrecs. injection Hrecs as <-.
      unfold advance in Ha. apply (f_equal length) in Ha.
      rewrite length_app in Ha. destruct evs; [reflexivity|simpl in Ha; lia]. }
    destruct issued as [|b issued].
    + rewrite Hevs. reflexivity.
    + exfalso. destruct (Hshape 0%nat b eq_refl) as [Hlt _]. simpl in Hlt. lia.
Qed.

End UploadedText.

Lemma upload_one_record_per_paragraph_witness :
  fst (@knowledge_upload_post (Mock.platform true true None 1 [])
         (Some {| path := JS.lit "uploads/1"; originalname := JS.lit "notes.txt" |})
         (Mock.start (Mock.platform true true None 1 []) (1700, 0%nat)
            {[ JS.lit "uploads/1" := Mock.scenario_text ]}))
  = inr (@ok (added_body 2)).
Proof.
  destruct (@upload_one_record_per_paragraph (Mock.platform true true None 1 [])
              {| path := JS.lit "uploads/1"; originalname := JS.lit "notes.txt" |}
              Mock.scenario_text
              (Mock.start (Mock.platform true true None 1 []) (1700, 0%nat)
                 {[ JS.lit "uploads/1" := Mock.scenario_text ]}))
    as (s' & Hrun & _).
  - vm_compute. reflexivity.
  - reflexivity.
  - intros q w. eexists _, _. reflexivity.
  - intros b w. eexists. reflexivity.
  - rewrite Hrun. reflexivity.
Defined.

(** ** An answer without numbered items *)

Section Unnumbered.
Context {P : Platform}.

Lemma split_go_no_match (m : JS.matcher) (s : jsstring) :
  (forall k, m (drop k s) = None) -> JS.split_go m 0 s = [s].
Proof.
  induction s as [|c s IH]; intros H; [reflexivity|].
  simpl. rewrite (H 0%nat : m (c :: s) = None).
  rewrite IH; [reflexivity|]. intros k. exact (H (S k)).
Qed.

Lemma match_marker_needs_digit (s : jsstring) :
  Forall (fun c => JS.is_digit c = false) s -> JS.match_marker s = None.
Proof.
  intros H. unfold JS.match_marker.
  destruct s as [|c s]; [reflexivity|].
  inversion H as [|? ? Hc _]; subst. simpl. rewrite Hc. reflexivity.
Qed.

(** X27.  The prompt of [POST /coaching] asks for dashed items, while the answer
    is cut at numbered markers.  An answer that holds no digit, and so no
    marker, is not cut at all: if it is not blank, it is one suggestion, the
    whole answer trimmed.  The client then shows that one suggestion under
    the questions, whatever its words: a single suggestion goes there by
    keyword or else by position. *)
Theorem unnumbered_answer_is_one_question (answer : jsstring) :
  Forall (fun c => JS.is_digit c = false) answer ->
  JS.blank answer = false ->
  parse_suggestions answer = [JS.trim answer]
  /\ Client.categorize (List.map JStr (parse_suggestions answer))
     = inr {| Client.questions := [JStr (JS.trim answer)];
              Client.nextSteps := [];
              Client.tips := [] |}.
Proof.
  intros Hd Hb.
  assert (Hparse : parse_suggestions answer = [JS.trim answer]).
  { unfold parse_suggestions, JS.split.
    rewrite split_go_no_match.
    - simpl. rewrite trim_length_blank, Hb. reflexivity.
    - intros k. apply match_marker_needs_digit. apply Forall_drop. exact Hd. }
  split; [exact Hparse|]. rewrite Hparse.
  unfold Client.categorize. rewrite (for_each_filters [JS.trim answer]).
  cbn [List.filter Client.empty_set Client.questions Client.nextSteps Client.tips app].
  destruct (Buckets.mentions Buckets.question_words (JS.trim answer)); cbn [negb andb].
  - reflexivity.
  - destruct (Buckets.mentions Buckets.next_words (JS.trim answer)); reflexivity.
Qed.

End Unnumbered.

Lemma unnumbered_answer_is_one_question_witness :
  parse_suggestions (JS.lit "- ask for the budget") = [JS.lit "- ask for the budget"].
Proof.
  apply (@unnumbered_answer_is_one_question (Mock.platform true true None 1 [])
           (JS.lit "- ask for the budget")).
  - repeat constructor.
  - reflexivity.
Defined.
